(** * tsq: the match-to-model projection pipeline

    A shallow embedding of [tsq/codesitter.go] (with the types of
    [tsq/types.go], the options of [tsq/options.go] and the registry of
    [tsq/language.go]), of the scanner of [tsq/scanner.go] over a file
    tree and of the engine's wrapper of [tsq/parser.go], and the
    properties of the classifier, the worker pool, the aggregators, the
    scanner and the wrapper.

    Go strings are byte sequences: they are modelled by [string], whose
    characters are the 8-bit [ascii].  Go's [int] and [int64] are [Z];
    the arithmetic the code performs on them ([Line - 1], [Row + 1])
    has its 64-bit wrap-around written out.  A Go [map\[string\]T] is a
    [gmap string T]. *)

From Stdlib Require Import ZArith Ascii String.
From stdpp Require Import gmap strings list fin_maps pretty.

Local Open Scope Z_scope.

(** ** Data model ([tsq/types.go]) *)

Module Position.
Record t := mk { Line : Z; Column : Z }.
Definition zero : t := mk 0 0.
End Position.

Module Range.
Record t := mk { Start : Position.t; End : Position.t }.
Definition zero : t := mk Position.zero Position.zero.
End Range.

Module CaptureResult.
Record t := mk {
  Name : string;
  NodeType : string;
  Text : string;
  Range : Range.t
}.
End CaptureResult.

Module QueryMatch.
Record t := mk {
  File : string;
  Pattern : Z;
  Captures : list CaptureResult.t
}.
End QueryMatch.

Module Symbol.
Record t := mk {
  Name : string;
  Kind : string;
  Visibility : string;
  File : string;
  Range : Range.t;
  Signature : string;
  Source : string;
  Receiver : string;
  Doc : string
}.
(** The zero value of [var sym Symbol]. *)
Definition zero : t := mk "" "" "" "" Range.zero "" "" "" "".

Definition set_Name (v : string) (s : t) : t :=
  mk v (Kind s) (Visibility s) (File s) (Range s) (Signature s) (Source s) (Receiver s) (Doc s).
Definition set_Kind (v : string) (s : t) : t :=
  mk (Name s) v (Visibility s) (File s) (Range s) (Signature s) (Source s) (Receiver s) (Doc s).
Definition set_Visibility (v : string) (s : t) : t :=
  mk (Name s) (Kind s) v (File s) (Range s) (Signature s) (Source s) (Receiver s) (Doc s).
Definition set_File (v : string) (s : t) : t :=
  mk (Name s) (Kind s) (Visibility s) v (Range s) (Signature s) (Source s) (Receiver s) (Doc s).
Definition set_Range (v : Range.t) (s : t) : t :=
  mk (Name s) (Kind s) (Visibility s) (File s) v (Signature s) (Source s) (Receiver s) (Doc s).
Definition set_Signature (v : string) (s : t) : t :=
  mk (Name s) (Kind s) (Visibility s) (File s) (Range s) v (Source s) (Receiver s) (Doc s).
Definition set_Source (v : string) (s : t) : t :=
  mk (Name s) (Kind s) (Visibility s) (File s) (Range s) (Signature s) v (Receiver s) (Doc s).
Definition set_Receiver (v : string) (s : t) : t :=
  mk (Name s) (Kind s) (Visibility s) (File s) (Range s) (Signature s) (Source s) v (Doc s).
End Symbol.

Module Reference.
Record t := mk {
  Symbol : string;
  Kind : string;
  File : string;
  Position : Position.t; Context : string
}.
Definition set_Context (v : string) (r : t) : t :=
  mk (Symbol r) (Kind r) (File r) (Position r) v.
End Reference.

Module ImportInfo.
Record t := mk { Path : string; Alias : string }.
End ImportInfo.

Module FileOutline.
Record t := mk {
  File : string;
  Package : string;
  Imports : list ImportInfo.t;
  Symbols : list Symbol.t
}.
Definition set_Package (v : string) (o : t) : t := mk (File o) v (Imports o) (Symbols o).
Definition set_Imports (v : list ImportInfo.t) (o : t) : t := mk (File o) (Package o) v (Symbols o).
Definition set_Symbols (v : list Symbol.t) (o : t) : t := mk (File o) (Package o) (Imports o) v.
End FileOutline.

Module FileJob.
Record t := mk { AbsPath : string; DisplayPath : string }.
End FileJob.

(** ** The part of Go's [strings] package the code uses, on byte strings *)

Module strings.

Definition HasPrefix (s pfx : string) : bool := String.prefix pfx s.

Definition TrimPrefix (s pfx : string) : string :=
  if HasPrefix s pfx
  then String.substring (String.length pfx) (String.length s - String.length pfx) s
  else s.

Definition HasSuffix (s sfx : string) : bool :=
  HasPrefix (String.rev s) (String.rev sfx).

Definition TrimSuffix (s sfx : string) : string :=
  if HasSuffix s sfx
  then String.substring 0 (String.length s - String.length sfx) s
  else s.

(** [Split s sep] for a separator of one byte: the pieces between the
    occurrences of [sep]; one piece more than there are separators. *)
Fixpoint Split1 (s : string) (sep : ascii) : list string :=
  match s with
  | EmptyString => [EmptyString]
  | String c rest =>
      if Ascii.eqb c sep then EmptyString :: Split1 rest sep
      else match Split1 rest sep with
           | piece :: pieces => String c piece :: pieces
           | [] => [String c EmptyString]
           end
  end.

Fixpoint Join (elems : list string) (sep : string) : string :=
  match elems with
  | [] => ""
  | [e] => e
  | e :: rest => e +:+ sep +:+ Join rest sep
  end.

(** [TrimLeft s cutset] and [TrimRight s cutset] for a cutset of one byte. *)
Fixpoint TrimLeft1 (s : string) (cut : ascii) : string :=
  match s with
  | String c rest => if Ascii.eqb c cut then TrimLeft1 rest cut else s
  | EmptyString => EmptyString
  end.

Definition Trim1 (s : string) (cut : ascii) : string :=
  String.rev (TrimLeft1 (String.rev (TrimLeft1 s cut)) cut).

End strings.

Definition newline : ascii := Ascii.ascii_of_nat 10.
Definition newline_str : string := String newline EmptyString.
Definition dquote : ascii := Ascii.ascii_of_nat 34.

(** ** Go's [int]: 64 bits, two's complement *)

Definition minInt : Z := - 2 ^ 63.
Definition maxInt : Z := 2 ^ 63 - 1.

Definition is_int (z : Z) : Prop := minInt <= z <= maxInt.

Definition wrap_int (z : Z) : Z := (z + 2 ^ 63) mod 2 ^ 64 - 2 ^ 63.

Definition int_sub (a b : Z) : Z := wrap_int (a - b).

(** [s[i]] on a slice: [None] is the panic of an index out of range. *)
Definition index {A : Type} (s : list A) (i : Z) : option A :=
  if (0 <=? i) && (i <? Z.of_nat (length s)) then s !! Z.to_nat i else None.

(** ** Go's [unicode] and [unicode/utf8], as far as the code reaches them *)

Module unicode.

Definition MaxLatin1 : Z := 255.

(** [unicode.IsUpper r] for [r <= MaxLatin1], where Go answers from its
    Latin-1 property table: the upper-case letters are [A]-[Z],
    U+00C0-U+00D6 and U+00D8-U+00DE.  [getVisibility] only ever passes
    such a rune, since it converts one byte. *)
Definition IsUpperLatin1 (r : Z) : bool :=
  ((65 <=? r) && (r <=? 90)) || ((192 <=? r) && (r <=? 214)) || ((216 <=? r) && (r <=? 222)).

End unicode.

(** [rune(b)] for a byte [b]: its value, between 0 and 255. *)
Definition rune_of_byte (b : ascii) : Z := Z.of_N (Ascii.N_of_ascii b).

Module utf8.

Definition RuneSelf : Z := 128.

Definition is_continuation (b : Z) : bool := (128 <=? b) && (b <=? 191).

(** The first character of a string, for the one- and two-byte
    encodings (U+0000-U+07FF); [None] stands for every other case
    (empty string, longer or malformed encodings). *)
Definition DecodeRuneInString (s : string) : option Z :=
  match s with
  | EmptyString => None
  | String b0 rest =>
      let r0 := rune_of_byte b0 in
      if r0 <? RuneSelf then Some r0
      else if (194 <=? r0) && (r0 <=? 223) then
        match rest with
        | String b1 _ =>
            let r1 := rune_of_byte b1 in
            if is_continuation r1
            then Some (Z.lor (Z.shiftl (Z.land r0 31) 6) (Z.land r1 63))
            else None
        | EmptyString => None
        end
      else None
  end.

End utf8.

(** ** Classifier / projector ([tsq/codesitter.go]) *)

(** [captures := make(map[string]CaptureResult)] filled by
    [captures[c.Name] = c] over the match's captures in order: a later
    capture of the same name replaces an earlier one. *)
Definition captureMap (cs : list CaptureResult.t) : gmap string CaptureResult.t :=
  foldl (fun m c => <[CaptureResult.Name c := c]> m) ∅ cs.

Definition has (captures : gmap string CaptureResult.t) (name : string) : bool :=
  match captures !! name with Some _ => true | None => false end.

Definition getVisibility (name : string) : string :=
  match name with
  | EmptyString => "private"
  | String b _ =>
      let r := rune_of_byte b in
      if unicode.IsUpperLatin1 r then "public" else "private"
  end.

Definition buildFuncSignature (captures : gmap string CaptureResult.t) : string :=
  let sb := "func" in
  let sb := match captures !! "receiver" with
            | Some recv => sb +:+ " " +:+ CaptureResult.Text recv
            | None => sb
            end in
  let sb := match captures !! "name" with
            | Some name => sb +:+ " " +:+ CaptureResult.Text name
            | None => sb
            end in
  let sb := match captures !! "params" with
            | Some params => sb +:+ CaptureResult.Text params
            | None => sb
            end in
  let sb := match captures !! "result" with
            | Some result => sb +:+ " " +:+ CaptureResult.Text result
            | None => sb
            end in
  sb.

Definition truncateSource (source : string) (maxLines : Z) : string :=
  if maxLines <=? 0 then source
  else
    let lines := strings.Split1 source newline in
    if Z.of_nat (length lines) <=? maxLines then source
    else strings.Join (take (Z.to_nat maxLines) lines) newline_str +:+ newline_str +:+ "...".

Section Classifier.

(** [strings.Fields] and [strings.TrimSpace] split and trim around
    Unicode white space; they are Go's, and are left abstract. *)
Variable Fields : string -> list string.
Variable TrimSpace : string -> string.

Definition extractReceiverType (receiver : string) : string :=
  let receiver := strings.TrimPrefix receiver "(" in
  let receiver := strings.TrimSuffix receiver ")" in
  let parts := Fields receiver in
  if (2 <=? length parts)%nat then
    strings.TrimPrefix (List.last parts "") "*"
  else
    match parts with
    | [p] => strings.TrimPrefix p "*"
    | _ => receiver
    end.

(** The recurring
    [if name, ok := captures["name"]; ok { sym.Name = name.Text; sym.Range = name.Range }]. *)
Definition withName (captures : gmap string CaptureResult.t) (sym : Symbol.t) : Symbol.t :=
  match captures !! "name" with
  | Some name =>
      Symbol.set_Range (CaptureResult.Range name) (Symbol.set_Name (CaptureResult.Text name) sym)
  | None => sym
  end.

(** The [if]/[else if] chain of [parseSymbolFromMatch] that fills
    [sym] from the capture names; [None] is its final [return nil]. *)
Definition classify (captures : gmap string CaptureResult.t) : option Symbol.t :=
  let sym := Symbol.zero in
  if has captures "const" then
    Some (withName captures (Symbol.set_Kind "const" sym))
  else if has captures "var" then
    Some (withName captures (Symbol.set_Kind "var" sym))
  else if has captures "function" then
    let sym := withName captures (Symbol.set_Kind "function" sym) in
    Some (Symbol.set_Signature (buildFuncSignature captures) sym)
  else if has captures "method" then
    let sym := withName captures (Symbol.set_Kind "method" sym) in
    let sym := match captures !! "receiver" with
               | Some recv => Symbol.set_Receiver (extractReceiverType (CaptureResult.Text recv)) sym
               | None => sym
               end in
    Some (Symbol.set_Signature (buildFuncSignature captures) sym)
  else
    match captures !! "type" with
    | Some typeDef =>
        let kind :=
          match captures !! "type_def" with
          | Some typeSpec =>
              if strings.HasPrefix (CaptureResult.NodeType typeSpec) "struct" then "struct"
              else if strings.HasPrefix (CaptureResult.NodeType typeSpec) "interface" then "interface"
              else "type"
          | None => "type"
          end in
        let sym := withName captures (Symbol.set_Kind kind sym) in
        Some (Symbol.set_Range (CaptureResult.Range typeDef) sym)
    | None => None
    end.

(** The names of the outermost captures the source snippet is taken from. *)
Definition isOutermost (c : CaptureResult.t) : bool :=
  let n := CaptureResult.Name c in
  String.eqb n "function" || String.eqb n "method" || String.eqb n "type" || String.eqb n "const" || String.eqb n "var".

Definition parseSymbolFromMatch
    (match_ : QueryMatch.t) (source : string) (includeSource : bool) (maxSourceLines : Z)
    : option Symbol.t :=
  let captures := captureMap (QueryMatch.Captures match_) in
  match classify captures with
  | None => None
  | Some sym =>
      if String.eqb (Symbol.Name sym) "" then None
      else
        let sym := Symbol.set_Visibility (getVisibility (Symbol.Name sym)) sym in
        let sym :=
          if includeSource then
            match List.find isOutermost (QueryMatch.Captures match_) with
            | Some c =>
                Symbol.set_Range (CaptureResult.Range c)
                  (Symbol.set_Source (truncateSource (CaptureResult.Text c) maxSourceLines) sym)
            | None => sym
            end
          else sym in
        Some (Symbol.set_File (QueryMatch.File match_) sym)
  end.

(** The [switch visibility] of [extractSymbols]: [true] when the
    symbol is kept. *)
Definition passesFilter (visibility : string) (sym : Symbol.t) : bool :=
  if String.eqb visibility "public" then String.eqb (Symbol.Visibility sym) "public"
  else if String.eqb visibility "private" then String.eqb (Symbol.Visibility sym) "private"
  else true.

Definition extractSymbols
    (matches : list QueryMatch.t) (source : string) (visibility : string)
    (includeSource : bool) (maxSourceLines : Z) : list Symbol.t :=
  foldl (fun symbols match_ =>
           match parseSymbolFromMatch match_ source includeSource maxSourceLines with
           | None => symbols
           | Some sym =>
               if passesFilter visibility sym then symbols ++ [sym] else symbols
           end) [] matches.

(** *** Reference finding *)

(** [switch capture.Name] of [findReferences]. *)
Definition referenceKind (captureName : string) : string :=
  if String.eqb captureName "call" then "call"
  else if String.eqb captureName "type_ref" || String.eqb captureName "composite_type" then "type_ref"
  else if String.eqb captureName "field" then "field_access"
  else if String.eqb captureName "ident" || String.eqb captureName "short_var" then "identifier"
  else "reference".

(** The body of the inner loop of [findReferences] for a capture that
    passed the text filter.  [None] is the run-time panic of an index
    out of range in [lines[lineIdx]]. *)
Definition referenceFor
    (lines : list string) (symbolName : string) (includeContext : bool)
    (match_ : QueryMatch.t) (capture : CaptureResult.t) : option Reference.t :=
  let start := Range.Start (CaptureResult.Range capture) in
  let ref := Reference.mk symbolName (referenceKind (CaptureResult.Name capture))
               (QueryMatch.File match_)
               (Position.mk (Position.Line start) (Position.Column start)) "" in
  if includeContext then
    let lineIdx := int_sub (Position.Line start) 1 in
    if (0 <=? lineIdx) && (lineIdx <? Z.of_nat (length lines)) then
      match index lines lineIdx with
      | Some line => Some (Reference.set_Context (TrimSpace line) ref)
      | None => None
      end
    else Some ref
  else Some ref.

Definition findReferences
    (matches : list QueryMatch.t) (source : string) (symbolName : string)
    (includeContext : bool) : option (list Reference.t) :=
  let lines := strings.Split1 source newline in
  foldl (fun refs match_ =>
           foldl (fun refs capture =>
                    if negb (String.eqb (CaptureResult.Text capture) symbolName) then refs
                    else
                      match refs, referenceFor lines symbolName includeContext match_ capture with
                      | Some refs, Some ref => Some (refs ++ [ref])
                      | _, _ => None
                      end)
                 refs (QueryMatch.Captures match_))
        (Some []) matches.

(** *** Outline building *)

(** The [Symbol{...}] literal repeated in [buildOutline], with its
    [if includeSource] assignment. *)
Definition outlineSymbol
    (kind : string) (name decl : CaptureResult.t) (file receiver : string)
    (includeSource : bool) (maxSourceLines : Z) : Symbol.t :=
  Symbol.mk (CaptureResult.Text name) kind (getVisibility (CaptureResult.Text name)) file
    (CaptureResult.Range decl) ""
    (if includeSource then truncateSource (CaptureResult.Text decl) maxSourceLines else "")
    receiver "".

(** The [type_alias], [type_ptr], ... loop: the first category present
    decides, then the loop breaks. *)
Definition typeCategories : list string :=
  ["type_alias"; "type_ptr"; "type_slice"; "type_map"; "type_func"].

Definition firstTypeDecl (captures : gmap string CaptureResult.t) : option CaptureResult.t :=
  match List.find (has captures) typeCategories with
  | Some typeCat => captures !! typeCat
  | None => None
  end.

Definition addSymbol (sym : Symbol.t) (o : FileOutline.t) : FileOutline.t :=
  FileOutline.set_Symbols (FileOutline.Symbols o ++ [sym]) o.

(** One iteration of the [for _, match := range matches] of [buildOutline]. *)
Definition outlineStep
    (file : string) (includeSource : bool) (maxSourceLines : Z)
    (outline : FileOutline.t) (match_ : QueryMatch.t) : FileOutline.t :=
  let captures := captureMap (QueryMatch.Captures match_) in
  let declared (kind declName nameName : string) (receiver : string) (o : FileOutline.t) :=
    match captures !! declName, captures !! nameName with
    | Some decl, Some name =>
        addSymbol (outlineSymbol kind name decl file receiver includeSource maxSourceLines) o
    | _, _ => o
    end in
  match captures !! "package" with
  | Some pkg => FileOutline.set_Package (CaptureResult.Text pkg) outline
  | None =>
  match captures !! "path" with
  | Some path =>
      let imp := ImportInfo.mk (strings.Trim1 (CaptureResult.Text path) dquote)
                   (match captures !! "alias" with
                    | Some alias => CaptureResult.Text alias
                    | None => ""
                    end) in
      FileOutline.set_Imports (FileOutline.Imports outline ++ [imp]) outline
  | None =>
  if has captures "function" then declared "function" "function" "func_name" "" outline
  else if has captures "method" then
    declared "method" "method" "method_name"
      (match captures !! "receiver_type" with
       | Some recv => strings.TrimPrefix (CaptureResult.Text recv) "*"
       | None => ""
       end) outline
  else if has captures "struct" then declared "struct" "struct" "type_name" "" outline
  else if has captures "interface" then declared "interface" "interface" "type_name" "" outline
  else
    let outline :=
      match firstTypeDecl captures, captures !! "type_name" with
      | Some typeDecl, Some name =>
          addSymbol (outlineSymbol "type" name typeDecl file "" includeSource maxSourceLines) outline
      | _, _ => outline
      end in
    if has captures "const" then declared "const" "const" "const_name" "" outline
    else if has captures "var" then declared "var" "var" "var_name" "" outline
    else outline
  end end.

Definition buildOutline
    (file : string) (matches : list QueryMatch.t) (source : string)
    (includeSource : bool) (maxSourceLines : Z) : FileOutline.t :=
  foldl (outlineStep file includeSource maxSourceLines)
        (FileOutline.mk file "" [] []) matches.

End Classifier.

(** ** Options ([tsq/options.go]) and result shapes *)

Module QueryOptions.
Record t := mk {
  Query : string;
  Language : string;
  Path : string;
  File : string;
  Jobs : Z;
  MaxBytes : Z
}.
End QueryOptions.

Module SymbolsOptions.
Record t := mk {
  Language : string;
  Path : string;
  File : string;
  Visibility : string;
  IncludeSource : bool;
  MaxSourceLines : Z;
  Jobs : Z;
  MaxBytes : Z
}.
End SymbolsOptions.

Module OutlineOptions.
Record t := mk {
  Language : string;
  File : string;
  IncludeSource : bool;
  MaxSourceLines : Z
}.
End OutlineOptions.

Module RefsOptions.
Record t := mk {
  Symbol : string;
  Language : string;
  Path : string;
  File : string;
  IncludeContext : bool;
  Jobs : Z;
  MaxBytes : Z
}.
End RefsOptions.

Module SymbolsResult.
Record t := mk { File : string; Symbols : list Symbol.t }.
End SymbolsResult.

Module RefsResult.
Record t := mk { Symbol : string; References : list Reference.t }.
End RefsResult.

(** ** Languages and their registry ([tsq/language.go]) *)

Module Language.
(** The methods of the [Language] interface that return data; the
    grammar handle of [TreeSitterLang] is only ever passed on to the
    engine, which receives the language itself here. *)
Record t := mk {
  Name : string;
  Extensions : list string;
  SymbolsQuery : string;
  OutlineQuery : string;
  RefsQuery : string
}.
End Language.

Definition Register (lang : Language.t) (registry : gmap string Language.t)
    : gmap string Language.t :=
  <[Language.Name lang := lang]> registry.

(** [Get]: a missing name gives the nil interface, here [None]. *)
Definition Get (registry : gmap string Language.t) (name : string) : option Language.t :=
  registry !! name.

(** ** Scanner configuration ([tsq/scanner.go]) *)

Module scannerConfig.
Record t := mk {
  root : string;
  language : Language.t;
  ignoreDirs : option (gset string);
  maxBytes : Z
}.
End scannerConfig.

Definition defaultIgnoreDirs : gset string :=
  list_to_set
    [".git"; ".hg"; ".svn"; ".jj"; "node_modules"; "vendor"; "dist"; "build"; "target";
     ".venv"; "__pycache__"; ".mypy_cache"; ".pytest_cache"; ".next"; ".cache"; ".turbo";
     "coverage"].

Definition newScanner (cfg : scannerConfig.t) : scannerConfig.t :=
  match scannerConfig.ignoreDirs cfg with
  | Some _ => cfg
  | None =>
      scannerConfig.mk (scannerConfig.root cfg) (scannerConfig.language cfg)
        (Some defaultIgnoreDirs) (scannerConfig.maxBytes cfg)
  end.

(** ** Results, errors and observable effects *)

(** A Go [(T, error)] pair. *)
Inductive result (A : Type) : Type :=
  | Ok (a : A)
  | Err (msg : string).
Arguments Ok {A} a.
Arguments Err {A} msg.

(** What a call that may start goroutines comes to under a given
    schedule: it returns a value, returns an error, or has workers that
    the schedule has not yet run to their end. *)
Inductive outcome (A : Type) : Type :=
  | Return (a : A)
  | Error (msg : string)
  | Unfinished.
Arguments Return {A} a.
Arguments Error {A} msg.
Arguments Unfinished {A}.

(** The effects a call has on the world outside it, in order. *)
Inductive Event : Type :=
  | EvResolve (file : string)            (* [collectSingle]: a path is resolved *)
  | EvCollect (cfg : scannerConfig.t)    (* [collect]: the tree under [root] is walked *)
  | EvGo                                 (* [go worker()] *)
  | EvParseFile (absPath : string).      (* [parseFile]: a file is read and, if read, parsed *)

(** A computation with a log of effects. *)
Definition M (A : Type) : Type := (outcome A * list Event)%type.

Definition ret {A : Type} (a : A) : M A := (Return a, []).
Definition fail {A : Type} (msg : string) : M A := (Error msg, []).
Definition emit (ev : Event) : M unit := (Return tt, [ev]).
Definition lift {A : Type} (r : result A) : M A :=
  match r with Ok a => ret a | Err msg => fail msg end.

Definition bind {A B : Type} (m : M A) (f : A -> M B) : M B :=
  match m with
  | (Return a, log) => let '(r, log') := f a in (r, log ++ log')
  | (Error msg, log) => (Error msg, log)
  | (Unfinished, log) => (Unfinished, log)
  end.

Notation "x <- m ;; k" := (bind m (fun x => k))
  (at level 100, m at next level, right associativity).
Notation "m ;;; k" := (bind m (fun _ => k))
  (at level 100, right associativity).

(** ** The worker pool

    [runQueryWorkers], [runSymbolsWorkers] and [runRefsWorkers] are the
    same text around three different worker bodies.  The pool is modelled
    once, by the state the goroutines share and one step per goroutine
    action - receiving a job, reading its file, sending one result,
    leaving - ; which goroutine moves next is the scheduler's choice,
    given as a list of worker indices.

    - [jobQueue] holds the files no worker has received yet, in the order
      the feeder goroutine sends them; the channel is closed once the
      feeder has sent them all, so a worker leaves its [range] loop
      exactly when it finds this list empty.
    - [results] holds what the workers have sent on the results channel,
      in the order of the sends; the caller's [for match := range results]
      appends them in that order, and ends when every worker has exited
      ([wg.Wait] then [close(results)]). *)

Definition workerCount (jobs : Z) (files : list FileJob.t) : Z :=
  let workerCount := jobs in
  let workerCount := if workerCount <? 1 then 1 else workerCount in
  let workerCount :=
    if workerCount >? Z.of_nat (length files) then Z.of_nat (length files) else workerCount in
  workerCount.

Section Pool.

Context {T : Type}.

(** What one iteration of [for job := range jobQueue] sends on
    [results], in order. *)
Variable body : FileJob.t -> list T.

Inductive goroutine : Type :=
  | Working (pending : list T)   (* sends [pending], then takes the next job *)
  | Received (job : FileJob.t)   (* has taken [job], and calls [parseFile] next *)
  | Exited.                      (* [wg.Done()] has run *)

Record pool : Type := mkPool {
  jobQueue : list FileJob.t;
  workers : list goroutine;
  results : list T;
  effects : list Event
}.

Definition startPool (files : list FileJob.t) (n : nat) : pool :=
  mkPool files (replicate n (Working [])) [] (replicate n EvGo).

(** One action of worker [i]; a worker that does not exist or has
    exited does nothing.  Receiving a job from [jobQueue] and calling
    [parseFile] on it are two actions, as they are two statements of the
    worker: other workers may act in between. *)
Definition stepWorker (i : nat) (p : pool) : pool :=
  match workers p !! i with
  | Some (Working (r :: pending)) =>
      mkPool (jobQueue p) (<[i := Working pending]> (workers p)) (results p ++ [r]) (effects p)
  | Some (Working []) =>
      match jobQueue p with
      | job :: queue =>
          mkPool queue (<[i := Received job]> (workers p)) (results p) (effects p)
      | [] =>
          mkPool [] (<[i := Exited]> (workers p)) (results p) (effects p)
      end
  | Some (Received job) =>
      mkPool (jobQueue p) (<[i := Working (body job)]> (workers p)) (results p)
        (effects p ++ [EvParseFile (FileJob.AbsPath job)])
  | _ => p
  end.

Definition schedule (sched : list nat) (p : pool) : pool :=
  foldl (fun p i => stepWorker i p) p sched.

Definition hasExited (g : goroutine) : bool :=
  match g with Exited => true | Working _ | Received _ => false end.

Definition allExited (p : pool) : bool := forallb hasExited (workers p).

Definition runPool (sched : list nat) (files : list FileJob.t) (jobs : Z) : M (list T) :=
  let p := schedule sched (startPool files (Z.to_nat (workerCount jobs files))) in
  (if allExited p then Return (results p) else Unfinished, effects p).

End Pool.

(** ** The aggregators, over the world outside the core *)

(** The world outside the core: the host, the registry, the pattern
    engine, the file system and Go's white-space functions. *)
Class World : Type := {
  (** [runtime.NumCPU()]. *)
  NumCPU : Z;
  (** The process-wide [registry]. *)
  registry : gmap string Language.t;
  (** The pattern engine: syntax trees, compiled queries, [newQuery],
      [query.run] and the [Parse] of a language's parser, which gives a
      tree for every source. *)
  Tree : Type;
  query : Type;
  newQuery : string -> Language.t -> result query;
  run : query -> Tree -> string -> string -> list QueryMatch.t;
  parse : Language.t -> string -> Tree;
  (** The file system: [os.ReadFile], [scanner.collect], [filepath.Abs],
      [filepath.Base]. *)
  ReadFile : string -> result string;
  collect : scannerConfig.t -> result (list FileJob.t);
  filepath_Abs : string -> result string;
  filepath_Base : string -> string;
  (** [strings.Fields] and [strings.TrimSpace]. *)
  Fields : string -> list string;
  TrimSpace : string -> string
}.

Section Aggregators.

Context `{W : World}.

Definition collectSingle (s : scannerConfig.t) (filePath : string) : result FileJob.t :=
  match filepath_Abs filePath with
  | Err err => Err ("resolve path: " +:+ err)
  | Ok absPath => Ok (FileJob.mk absPath (filepath_Base absPath))
  end.

(** [newParser(language).parseFile(path)]: its only error is that of
    [os.ReadFile]; a file that is read is parsed, and [parse] returns no
    error. *)
Definition parseFile (language : Language.t) (path : string) : result (Tree * string) :=
  match ReadFile path with
  | Err err => Err ("read file: " +:+ err)
  | Ok source => Ok (parse language source, source)
  end.

(** *** Worker bodies *)

Definition queryWorker (language : Language.t) (q : query) (job : FileJob.t)
    : list QueryMatch.t :=
  match parseFile language (FileJob.AbsPath job) with
  | Err _ => []
  | Ok (tree, source) => run q tree source (FileJob.DisplayPath job)
  end.

Definition symbolsWorker
    (language : Language.t) (q : query) (visibility : string) (includeSource : bool)
    (maxSourceLines : Z) (job : FileJob.t) : list SymbolsResult.t :=
  match parseFile language (FileJob.AbsPath job) with
  | Err _ => []
  | Ok (tree, source) =>
      let matches := run q tree source (FileJob.DisplayPath job) in
      let symbols := extractSymbols Fields matches source visibility includeSource maxSourceLines in
      if (0 <? length symbols)%nat
      then [SymbolsResult.mk (FileJob.DisplayPath job) symbols]
      else []
  end.

(** [findReferences] does not panic ([findReferences_total] below), so
    the [None] branch is never taken. *)
Definition refsWorker
    (language : Language.t) (q : query) (symbolName : string) (includeContext : bool)
    (job : FileJob.t) : list Reference.t :=
  match parseFile language (FileJob.AbsPath job) with
  | Err _ => []
  | Ok (tree, source) =>
      let matches := run q tree source (FileJob.DisplayPath job) in
      match findReferences TrimSpace matches source symbolName includeContext with
      | Some refs => refs
      | None => []
      end
  end.

Definition runQueryWorkers
    (sched : list nat) (language : Language.t) (q : query) (files : list FileJob.t) (jobs : Z)
    : M (list QueryMatch.t) :=
  runPool (queryWorker language q) sched files jobs.

Definition runSymbolsWorkers
    (sched : list nat) (language : Language.t) (q : query) (files : list FileJob.t) (jobs : Z)
    (visibility : string) (includeSource : bool) (maxSourceLines : Z)
    : M (list SymbolsResult.t) :=
  runPool (symbolsWorker language q visibility includeSource maxSourceLines) sched files jobs.

Definition runRefsWorkers
    (sched : list nat) (language : Language.t) (q : query) (files : list FileJob.t) (jobs : Z)
    (symbolName : string) (includeContext : bool) : M (list Reference.t) :=
  runPool (refsWorker language q symbolName includeContext) sched files jobs.

(** *** File-set resolution, the block shared by [Query], [Symbols] and [Refs] *)

Definition resolveFiles (language : Language.t) (file path : string) (maxBytes : Z)
    : M (list FileJob.t) :=
  if negb (String.eqb file "") then
    let sc := newScanner (scannerConfig.mk "" language None 0) in
    emit (EvResolve file) ;;;
    job <- lift (collectSingle sc file) ;;
    ret [job]
  else
    let sc := newScanner (scannerConfig.mk path language None maxBytes) in
    emit (EvCollect sc) ;;;
    lift (collect sc).

Definition orDefault (s dflt : string) : string := if String.eqb s "" then dflt else s.
Definition orDefaultZ (z dflt : Z) : Z := if z =? 0 then dflt else z.

Definition defaultMaxBytes : Z := 2 * 1024 * 1024.

Definition Query (sched : list nat) (opts : QueryOptions.t) : M (list QueryMatch.t) :=
  if String.eqb (QueryOptions.Query opts) "" then fail "query is required"
  else
    let Language := orDefault (QueryOptions.Language opts) "go" in
    let Path := orDefault (QueryOptions.Path opts) "." in
    let Jobs := orDefaultZ (QueryOptions.Jobs opts) NumCPU in
    let MaxBytes := orDefaultZ (QueryOptions.MaxBytes opts) defaultMaxBytes in
    match Get registry Language with
    | None => fail (Language +:+ " language not registered")
    | Some language =>
        q <- lift (newQuery (QueryOptions.Query opts) language) ;;
        files <- resolveFiles language (QueryOptions.File opts) Path MaxBytes ;;
        if (length files =? 0)%nat then ret []
        else runQueryWorkers sched language q files Jobs
    end.

Definition Symbols (sched : list nat) (opts : SymbolsOptions.t) : M (list SymbolsResult.t) :=
  let Language := orDefault (SymbolsOptions.Language opts) "go" in
  let Path := orDefault (SymbolsOptions.Path opts) "." in
  let Visibility := orDefault (SymbolsOptions.Visibility opts) "all" in
  let MaxSourceLines := orDefaultZ (SymbolsOptions.MaxSourceLines opts) 10 in
  let Jobs := orDefaultZ (SymbolsOptions.Jobs opts) NumCPU in
  let MaxBytes := orDefaultZ (SymbolsOptions.MaxBytes opts) defaultMaxBytes in
  match Get registry Language with
  | None => fail (Language +:+ " language not registered")
  | Some language =>
      q <- lift (newQuery (Language.SymbolsQuery language) language) ;;
      files <- resolveFiles language (SymbolsOptions.File opts) Path MaxBytes ;;
      if (length files =? 0)%nat then ret []
      else runSymbolsWorkers sched language q files Jobs Visibility
             (SymbolsOptions.IncludeSource opts) MaxSourceLines
  end.

Definition Outline (opts : OutlineOptions.t) : M FileOutline.t :=
  if String.eqb (OutlineOptions.File opts) "" then fail "file is required"
  else
    let Language := orDefault (OutlineOptions.Language opts) "go" in
    let MaxSourceLines := orDefaultZ (OutlineOptions.MaxSourceLines opts) 5 in
    match Get registry Language with
    | None => fail (Language +:+ " language not registered")
    | Some language =>
        q <- lift (newQuery (Language.OutlineQuery language) language) ;;
        let sc := newScanner (scannerConfig.mk "" language None 0) in
        emit (EvResolve (OutlineOptions.File opts)) ;;;
        job <- lift (collectSingle sc (OutlineOptions.File opts)) ;;
        emit (EvParseFile (FileJob.AbsPath job)) ;;;
        parsed <- lift (parseFile language (FileJob.AbsPath job)) ;;
        let '(tree, source) := parsed in
        let matches := run q tree source (FileJob.DisplayPath job) in
        ret (buildOutline (FileJob.DisplayPath job) matches source
               (OutlineOptions.IncludeSource opts) MaxSourceLines)
    end.

Definition Refs (sched : list nat) (opts : RefsOptions.t) : M RefsResult.t :=
  if String.eqb (RefsOptions.Symbol opts) "" then fail "symbol is required"
  else
    let Language := orDefault (RefsOptions.Language opts) "go" in
    let Path := orDefault (RefsOptions.Path opts) "." in
    let Jobs := orDefaultZ (RefsOptions.Jobs opts) NumCPU in
    let MaxBytes := orDefaultZ (RefsOptions.MaxBytes opts) defaultMaxBytes in
    match Get registry Language with
    | None => fail (Language +:+ " language not registered")
    | Some language =>
        q <- lift (newQuery (Language.RefsQuery language) language) ;;
        files <- resolveFiles language (RefsOptions.File opts) Path MaxBytes ;;
        if (length files =? 0)%nat then ret (RefsResult.mk (RefsOptions.Symbol opts) [])
        else
          refs <- runRefsWorkers sched language q files Jobs (RefsOptions.Symbol opts)
                    (RefsOptions.IncludeContext opts) ;;
          ret (RefsResult.mk (RefsOptions.Symbol opts) refs)
    end.

End Aggregators.

(** ** The pattern engine and its wrapper ([tsq/parser.go]) *)

Definition int_add (a b : Z) : Z := wrap_int (a + b).

(** What the code reads of go-tree-sitter's answers.  Rows, columns and
    capture indexes are [uint32], pattern indexes [uint16]. *)
Module sitter.
Record Point := mkPoint { Row : Z; Column : Z }.
Record Node := mkNode {
  Type_ : string;
  Content : string -> string;
  StartPoint : Point;
  EndPoint : Point
}.
Record QueryCapture := mkQueryCapture { Index : Z; Node_ : Node }.
Record QueryMatch := mkQueryMatch { PatternIndex : Z; Captures : list QueryCapture }.
(** A compiled query: the number of its captures and their names. *)
Record Query := mkQuery { CaptureCount : Z; CaptureNameForId : Z -> string }.

Definition uint32 (z : Z) : Prop := 0 <= z < 2 ^ 32.
End sitter.

Module parser.

Record query := mk { query_ : sitter.Query; captureNames : list string }.

Section Parser.

Context {Tree : Type}.
(** [sitter.NewQuery], and the matches a cursor yields, one
    [NextMatch] after the other, once [Exec] has set it on the root of
    a tree. *)
Variable NewQuery : string -> Language.t -> result sitter.Query.
Variable Exec : sitter.Query -> Tree -> list sitter.QueryMatch.

Definition newQuery (queryStr : string) (language : Language.t) : result query :=
  match NewQuery queryStr language with
  | Err err => Err ("compile query: " +:+ err)
  | Ok q =>
      let captureCount := sitter.CaptureCount q in
      Ok (mk q (map (sitter.CaptureNameForId q) (seqZ 0 captureCount)))
  end.

(** The index is below the length where the table is indexed. *)
Definition captureName (q : query) (index_ : Z) : string :=
  if Z.of_nat (length (captureNames q)) <=? index_ then "capture_" +:+ pretty index_
  else default "" (index (captureNames q) index_).

Definition run (q : query) (tree : Tree) (source displayPath : string) : list QueryMatch.t :=
  map (fun match_ =>
         QueryMatch.mk displayPath (sitter.PatternIndex match_)
           (map (fun capture =>
                   let name := captureName q (sitter.Index capture) in
                   let node := sitter.Node_ capture in
                   let start := sitter.StartPoint node in
                   let end_ := sitter.EndPoint node in
                   CaptureResult.mk name (sitter.Type_ node) (sitter.Content node source)
                     (Range.mk
                        (Position.mk (int_add (sitter.Row start) 1)
                                     (int_add (sitter.Column start) 1))
                        (Position.mk (int_add (sitter.Row end_) 1)
                                     (int_add (sitter.Column end_) 1))))
                (sitter.Captures match_)))
      (Exec (query_ q) tree).

End Parser.

End parser.

(** ** The scanner over a file tree ([tsq/scanner.go]) *)

(** What [filepath.WalkDir] meets under a path: an entry that is not a
    directory, with its name and the size its [Info] reports, if it can
    be had; or a directory, with its name, the entries [os.ReadDir]
    lists, in that order, and the error [os.ReadDir] ends with, if
    any. *)
Module fs.
#[warnings="-register-all"] Inductive node : Type :=
  | File (name : string) (size : result Z)
  | Dir (name : string) (entries : list node) (readErr : option string).

Definition Name (d : node) : string :=
  match d with File name _ => name | Dir name _ _ => name end.

Definition IsDir (d : node) : bool :=
  match d with File _ _ => false | Dir _ _ _ => true end.

(** What a walk function returns beside [nil]: [filepath.SkipDir], or
    an error of its own. *)
Inductive error : Type :=
  | SkipDir
  | Failure (msg : string).

Definition Error_ (err : error) : string :=
  match err with SkipDir => "skip this directory" | Failure msg => msg end.
End fs.

(** [filepath.WalkDir], after the text of Go's [path/filepath]: the
    walk function is called on an entry before its children, a
    directory for which it returns [SkipDir] is not read, a failure of
    [os.ReadDir] is reported by a second call, and any other error ends
    the walk.  The walk function works on a state, here the [jobs] its
    closure appends to. *)
Section WalkDir.

Context {St : Type}.
Variable Join : string -> string -> string.
Variable Lstat : string -> result fs.node.
Variable fn : string -> option fs.node -> option string -> St -> St * option fs.error.

(** [if err == SkipDir && d.IsDir() { err = nil }]. *)
Definition skipped (d : fs.node) (err : fs.error) : option fs.error :=
  match err with
  | fs.SkipDir => if fs.IsDir d then None else Some err
  | fs.Failure _ => Some err
  end.

Section Entries.

Variable walk : string -> fs.node -> St -> St * option fs.error.
Variable path : string.

(** [for _, d1 := range dirs]: [SkipDir] from an entry leaves the loop. *)
Fixpoint walkEntries (dirs : list fs.node) (s : St) : St * option fs.error :=
  match dirs with
  | [] => (s, None)
  | d1 :: dirs =>
      match walk (Join path (fs.Name d1)) d1 s with
      | (s, Some fs.SkipDir) => (s, None)
      | (s, Some err) => (s, Some err)
      | (s, None) => walkEntries dirs s
      end
  end.

End Entries.

Fixpoint walkDir (path : string) (d : fs.node) (s : St) {struct d} : St * option fs.error :=
  match fn path (Some d) None s with
  | (s, Some err) => (s, skipped d err)
  | (s, None) =>
      match d with
      | fs.File _ _ => (s, None)
      | fs.Dir _ entries readErr =>
          match
            match readErr with
            | Some e => fn path (Some d) (Some e) s
            | None => (s, None)
            end
          with
          | (s, Some err) => (s, skipped d err)
          | (s, None) => walkEntries (fun path1 d1 s => walkDir path1 d1 s) path entries s
          end
      end
  end.

Definition WalkDir (root : string) (s : St) : St * option fs.error :=
  let '(s, err) :=
    match Lstat root with
    | Err e => fn root None (Some e) s
    | Ok d => walkDir root d s
    end in
  match err with
  | Some fs.SkipDir => (s, None)
  | _ => (s, err)
  end.

End WalkDir.

Module scanner.

(** The host the scanner runs on: Go's [path/filepath] and
    [strings.ToLower], and the file tree found at a path. *)
Class Host : Type := {
  Abs : string -> result string;
  Rel : string -> string -> result string;
  ToSlash : string -> string;
  Join : string -> string -> string;
  Ext : string -> string;
  ToLower : string -> string;
  Lstat : string -> result fs.node
}.

Section Scanner.

Context `{H : Host}.

(** A lookup in [ignoreDirs]; in a nil map it finds nothing. *)
Definition shouldIgnoreDir (s : scannerConfig.t) (name : string) : bool :=
  match scannerConfig.ignoreDirs s with
  | Some dirs => bool_decide (name ∈ dirs)
  | None => false
  end.

Definition isSupportedFile (s : scannerConfig.t) (name : string) : bool :=
  let ext := ToLower (Ext name) in
  if String.eqb ext "" then false
  else existsb (String.eqb ext) (Language.Extensions (scannerConfig.language s)).

(** The closure [collect] hands to [filepath.WalkDir].  [WalkDir] passes
    an entry whenever it passes no error. *)
Definition visit (s : scannerConfig.t) (absRoot path : string)
    (d : option fs.node) (err : option string) (jobs : list FileJob.t)
    : list FileJob.t * option fs.error :=
  match err, d with
  | Some e, _ => (jobs, Some (fs.Failure e))
  | None, None => (jobs, None)
  | None, Some (fs.Dir name _ _) =>
      if String.eqb path absRoot then (jobs, None)
      else if shouldIgnoreDir s name then (jobs, Some fs.SkipDir)
      else (jobs, None)
  | None, Some (fs.File name size) =>
      if negb (isSupportedFile s name) then (jobs, None)
      else
        let rel := match Rel absRoot path with Ok rel => rel | Err _ => path end in
        let job := FileJob.mk path (ToSlash rel) in
        if 0 <? scannerConfig.maxBytes s then
          match size with
          | Err _ => (jobs, None)
          | Ok size =>
              if scannerConfig.maxBytes s <? size then (jobs, None) else (jobs ++ [job], None)
          end
        else (jobs ++ [job], None)
  end.

Definition collect (s : scannerConfig.t) : result (list FileJob.t) :=
  match Abs (scannerConfig.root s) with
  | Err e => Err ("resolve root: " +:+ e)
  | Ok absRoot =>
      match WalkDir Join Lstat (visit s absRoot) absRoot [] with
      | (_, Some err) => Err (fs.Error_ err)
      | (jobs, None) => Ok jobs
      end
  end.

End Scanner.

End scanner.

(** ** Vocabulary of the properties *)

(** A match carries a capture of the given name. *)
Definition captured (match_ : QueryMatch.t) (name : string) : Prop :=
  exists c, c ∈ QueryMatch.Captures match_ /\ CaptureResult.Name c = name.

(** The text of the capture of the given name, as the classifier sees it. *)
Definition captureText (captures : gmap string CaptureResult.t) (name : string) : option string :=
  CaptureResult.Text <$> captures !! name.

(** The signature as a plain joining of the present parts with single
    spaces: keyword, receiver, name, parameter list, result. *)
Definition spaceJoinedSignature (captures : gmap string CaptureResult.t) : string :=
  strings.Join
    (["func"] ++ option_list (captureText captures "receiver")
              ++ option_list (captureText captures "name")
              ++ option_list (captureText captures "params")
              ++ option_list (captureText captures "result")) " ".

(** What one match contributes to the result of [extractSymbols]. *)
Definition keptSymbols
    (Fields : string -> list string) (source visibility : string) (includeSource : bool)
    (maxSourceLines : Z) (match_ : QueryMatch.t) : list Symbol.t :=
  match parseSymbolFromMatch Fields match_ source includeSource maxSourceLines with
  | Some sym => if passesFilter visibility sym then [sym] else []
  | None => []
  end.

(** Every capture of every match, in the order [findReferences] visits
    them, with the match it belongs to. *)
Definition allCaptures (matches : list QueryMatch.t) : list (QueryMatch.t * CaptureResult.t) :=
  flat_map (fun match_ => map (pair match_) (QueryMatch.Captures match_)) matches.

(** The captures whose text is the search term. *)
Definition withText (symbolName : string) (mcs : list (QueryMatch.t * CaptureResult.t))
    : list (QueryMatch.t * CaptureResult.t) :=
  filter (fun mc => CaptureResult.Text mc.2 = symbolName) mcs.

(** *** The worker pool *)

(** What a goroutine still has to send: what it holds, or what the
    file it has received gives. *)
Definition pendingOf {T : Type} (body : FileJob.t -> list T) (g : @goroutine T) : list T :=
  match g with Working pending => pending | Received job => body job | Exited => [] end.

Definition inFlight {T : Type} (body : FileJob.t -> list T) (ws : list (@goroutine T))
    : list T :=
  flat_map (pendingOf body) ws.

(** Everything the pool holds: sent, about to be sent, and still to be
    produced from the files in the queue. *)
Definition poolContents {T : Type} (body : FileJob.t -> list T) (p : @pool T) : list T :=
  results p ++ inFlight body (workers p) ++ flat_map body (jobQueue p).

(** The number of actions the pool has left: each worker reads the
    file it has received, sends what it holds and then exits or takes a
    job; each queued job is taken once. *)
Definition weight {T : Type} (body : FileJob.t -> list T) (g : @goroutine T) : nat :=
  match g with
  | Working pending => S (length pending)
  | Received job => S (S (length (body job)))
  | Exited => 0
  end.

Definition someWorking {T : Type} (ws : list (@goroutine T)) : Prop :=
  exists i g, ws !! i = Some g /\ hasExited g = false.

Definition remaining {T : Type} (body : FileJob.t -> list T) (p : @pool T) : nat :=
  (sum_list_with (weight body) (workers p)
   + sum_list_with (fun job => S (S (length (body job)))) (jobQueue p))%nat.

(** As long as files are queued, some worker is there to take them. *)
Definition live {T : Type} (p : @pool T) : Prop :=
  jobQueue p = [] \/ someWorking (workers p).


(** The goroutines a log shows to have been started, and the files it
    shows to have been read. *)
Definition isGo (ev : Event) : bool :=
  match ev with EvGo => true | _ => false end.

Definition spawned (log : list Event) : nat := length (List.filter isGo log).

Definition isParseFile (ev : Event) : bool :=
  match ev with EvParseFile _ => true | _ => false end.

Definition filesRead (log : list Event) : nat := length (List.filter isParseFile log).

(** A file that can be read. *)
Definition readable `{W : World} (job : FileJob.t) : bool :=
  match ReadFile (FileJob.AbsPath job) with Ok _ => true | Err _ => false end.

(** A file that can be read and whose source parses, for a given notion
    of a source that fails to parse. *)
Definition parses `{W : World} (fails : string -> bool) (job : FileJob.t) : bool :=
  match ReadFile (FileJob.AbsPath job) with
  | Ok source => negb (fails source)
  | Err _ => false
  end.

(** A call over a file set skips the files that fail when, under every
    schedule, it never ends in an error, can always be run on to its
    return, and returns, in some order, exactly what the files that do
    not fail give. *)
Definition skipsFailedFiles {T : Type}
    (call : list nat -> outcome (list T))
    (body : FileJob.t -> list T) (ok : FileJob.t -> bool) (files : list FileJob.t) : Prop :=
  forall sched : list nat,
    (forall msg, call sched <> Error msg) /\
    (forall out, call sched = Return out -> out ≡ₚ flat_map body (List.filter ok files)) /\
    (exists sched' out, call (sched ++ sched') = Return out).

Definition mapOutcome {A B : Type} (f : A -> B) (o : outcome A) : outcome B :=
  match o with
  | Return a => Return (f a)
  | Error msg => Error msg
  | Unfinished => Unfinished
  end.

(** The language an options record selects. *)
Definition selected `{W : World} (language : string) : option Language.t :=
  Get registry (orDefault language "go").

(** The files a log shows to have been read, in the order of the reads. *)
Definition readsOf (log : list Event) : list string :=
  omap (fun ev => match ev with EvParseFile absPath => Some absPath | _ => None end) log.

(** A file a worker has taken: part of what it gives has been sent, in
    order, and the rest is what some worker is still holding. *)
Definition inProgress {T : Type} (body : FileJob.t -> list T) (p : @pool T) (job : FileJob.t)
    : Prop :=
  exists sent rest,
    body job = sent ++ rest /\ sent `sublist_of` results p /\
    (rest = [] \/
     exists i g, workers p !! i = Some g /\ hasExited g = false /\ pendingOf body g = rest).

(** The files the workers have taken are in progress; the others are
    still queued, in their order. *)
Definition ordered {T : Type} (body : FileJob.t -> list T) (files : list FileJob.t)
    (p : @pool T) : Prop :=
  exists taken, files = taken ++ jobQueue p /\ Forall (inProgress body p) taken.

(** The files the workers have received and not yet read. *)
Definition receivedBy {T : Type} (ws : list (@goroutine T)) : list string :=
  omap (fun g => match g with Received job => Some (FileJob.AbsPath job) | _ => None end) ws.

(** A pool reads each file once, in whatever order the workers get to
    it: at any moment the files read are files of the file set, none
    read more often than it occurs there, and on return they are all of
    them. *)
Definition readsEachFileOnce {T : Type}
    (runWorkers : list nat -> M (list T)) (files : list FileJob.t) : Prop :=
  forall sched,
    readsOf (runWorkers sched).2 ⊆+ map FileJob.AbsPath files /\
    forall out, (runWorkers sched).1 = Return out ->
                readsOf (runWorkers sched).2 ≡ₚ map FileJob.AbsPath files.

(** A pool keeps the order of what one file gives: on return, the
    results of each file appear in the result in the order the worker
    body produced them. *)
Definition keepsFileOrder {T : Type}
    (runWorkers : list nat -> M (list T)) (body : FileJob.t -> list T)
    (files : list FileJob.t) : Prop :=
  forall sched out,
    (runWorkers sched).1 = Return out ->
    forall job, job ∈ files -> body job `sublist_of` out.

(** *** The scanner *)

Section ScannerVocabulary.

Context `{H : scanner.Host}.

(** A directory the walk does not enter: one below the root whose name
    is among the ignored ones. *)
Definition pruned (s : scannerConfig.t) (absRoot path : string) (d : fs.node) : bool :=
  fs.IsDir d && negb (String.eqb path absRoot) && scanner.shouldIgnoreDir s (fs.Name d).

(** The entries met on the way down from an entry: the entry itself,
    and what is met from the entries of a directory that is not
    pruned. *)
Inductive visits (s : scannerConfig.t) (absRoot : string)
    : string -> fs.node -> string -> fs.node -> Prop :=
  | visits_here path d : visits s absRoot path d path d
  | visits_below path name entries readErr d1 path' d' :
      pruned s absRoot path (fs.Dir name entries readErr) = false ->
      d1 ∈ entries ->
      visits s absRoot (scanner.Join path (fs.Name d1)) d1 path' d' ->
      visits s absRoot path (fs.Dir name entries readErr) path' d'.

(** A file the scanner takes: of a supported extension and, when a
    limit is set, of a known size within it. *)
Definition eligible (s : scannerConfig.t) (name : string) (size : result Z) : Prop :=
  scanner.isSupportedFile s name = true /\
  (0 < scannerConfig.maxBytes s ->
   exists bytes, size = Ok bytes /\ bytes <= scannerConfig.maxBytes s).

(** The job of the file at a path. *)
Definition jobAt (absRoot path : string) : FileJob.t :=
  FileJob.mk path
    (scanner.ToSlash (match scanner.Rel absRoot path with Ok rel => rel | Err _ => path end)).

(** The jobs to be found from an entry, and the directories met from it
    that cannot be read. *)
Definition collectable (s : scannerConfig.t) (absRoot path : string) (d : fs.node)
    (job : FileJob.t) : Prop :=
  exists path' name size,
    visits s absRoot path d path' (fs.File name size) /\ eligible s name size /\
    job = jobAt absRoot path'.

Definition unreadable (s : scannerConfig.t) (absRoot path : string) (d : fs.node)
    (msg : string) : Prop :=
  exists path' name entries,
    visits s absRoot path d path' (fs.Dir name entries (Some msg)) /\
    pruned s absRoot path' (fs.Dir name entries (Some msg)) = false.

End ScannerVocabulary.

(** What a walk from an entry comes to: it never asks to skip, it only
    appends, what it appends can be collected from the entry, its error
    is that of a directory that cannot be read, and when it ends
    without error it has appended all there is and every directory was
    read. *)
Definition walked (found : FileJob.t -> Prop) (broken : string -> Prop)
    (jobs : list FileJob.t) (r : list FileJob.t * option fs.error) : Prop :=
  r.2 <> Some fs.SkipDir /\
  exists new,
    r.1 = jobs ++ new /\
    (forall job, job ∈ new -> found job) /\
    (forall msg, r.2 = Some (fs.Failure msg) -> broken msg) /\
    (r.2 = None -> (forall job, found job -> job ∈ new) /\ forall msg, ~ broken msg).

(** *** The outline *)

(** What one match alone adds to an outline. *)
Definition outlineOf
    (file : string) (includeSource : bool) (maxSourceLines : Z) (match_ : QueryMatch.t)
    : FileOutline.t :=
  outlineStep file includeSource maxSourceLines (FileOutline.mk file "" [] []) match_.

(** The package clauses among the matches, in order. *)
Definition packageClauses (matches : list QueryMatch.t) : list string :=
  omap (fun match_ => captureText (captureMap (QueryMatch.Captures match_)) "package") matches.

(** ** Sample data *)

(** [strings.Fields] and [strings.TrimSpace] as they act on ASCII text. *)
Definition isAsciiSpace (c : ascii) : bool :=
  let n := Ascii.nat_of_ascii c in
  ((n =? 32) || ((9 <=? n) && (n <=? 13)))%nat.

Fixpoint asciiFields (s : string) : list string :=
  match s with
  | EmptyString => []
  | String c rest =>
      if isAsciiSpace c then asciiFields rest
      else
        match rest with
        | EmptyString => [String c EmptyString]
        | String c' _ =>
            if isAsciiSpace c' then String c EmptyString :: asciiFields rest
            else match asciiFields rest with
                 | f :: fs => String c f :: fs
                 | [] => [String c EmptyString]
                 end
        end
  end.

Fixpoint asciiTrimLeft (s : string) : string :=
  match s with
  | String c rest => if isAsciiSpace c then asciiTrimLeft rest else s
  | EmptyString => EmptyString
  end.

Definition asciiTrimSpace (s : string) : string :=
  String.rev (asciiTrimLeft (String.rev (asciiTrimLeft s))).

Definition at_ (line column : Z) : Range.t :=
  Range.mk (Position.mk line column) (Position.mk line column).

(** [const x int = 1] under the symbols query: the declaration, its
    name and its type annotation. *)
Definition constWithType : QueryMatch.t :=
  QueryMatch.mk "a.go" 3
    [ CaptureResult.mk "const" "const_declaration" "const x int = 1" (at_ 1 1);
      CaptureResult.mk "name" "identifier" "x" (at_ 1 7);
      CaptureResult.mk "type" "type_identifier" "int" (at_ 1 9) ].

(** [func Hello() {}]. *)
Definition helloCaptures : list CaptureResult.t :=
  [ CaptureResult.mk "function" "function_declaration" "func Hello() {}" (at_ 1 1);
    CaptureResult.mk "name" "identifier" "Hello" (at_ 1 6);
    CaptureResult.mk "params" "parameter_list" "()" (at_ 1 11) ].

(** A match of a pattern without a [name] capture. *)
Definition unnamedMatch : QueryMatch.t :=
  QueryMatch.mk "a.go" 0
    [ CaptureResult.mk "function" "function_declaration" "func Hello() {}" (at_ 1 1) ].

(** [func Hello() {}] as one match of the symbols query. *)
Definition helloMatch : QueryMatch.t := QueryMatch.mk "a.go" 0 helloCaptures.

(** The identifier [élan] in UTF-8: [é] is U+00E9, the bytes C3 A9. *)
Definition elan : string :=
  String (Ascii.ascii_of_nat 195) (String (Ascii.ascii_of_nat 169) "lan").

(** Two uses of [Foo] on line 2: as a call and as a type; and [Bar]. *)
Definition fooSource : string :=
  "package p" +:+ newline_str +:+ "  var x Foo = Foo(Bar)  " +:+ newline_str.

Definition fooMatches : list QueryMatch.t :=
  [ QueryMatch.mk "p.go" 0 [ CaptureResult.mk "type_ref" "type_identifier" "Foo" (at_ 2 9) ];
    QueryMatch.mk "p.go" 1 [ CaptureResult.mk "call" "identifier" "Foo" (at_ 2 15) ];
    QueryMatch.mk "p.go" 2 [ CaptureResult.mk "ident" "identifier" "Bar" (at_ 2 19) ] ].

(** A small world.  Three files can be read, [/r/missing.go] cannot.
    The toy engine takes the words of a file for its tree, and a query
    matches every word as a function declaration of that name.  The
    source of [/r/broken.go] opens a brace it does not close. *)
Definition goLanguage : Language.t :=
  Language.mk "go" [".go"] "(symbols)" "(outline)" "(refs)".

Definition demoFiles : gmap string string :=
  <["/r/a.go" := "Foo bar"]> (<["/r/b.go" := "Foo"]> (<["/r/broken.go" := "Baz {"]> ∅)).

Definition demoJobs : list FileJob.t :=
  [ FileJob.mk "/r/a.go" "a.go"; FileJob.mk "/r/missing.go" "missing.go";
    FileJob.mk "/r/b.go" "b.go" ].

Definition brokenJobs : list FileJob.t :=
  [ FileJob.mk "/r/a.go" "a.go"; FileJob.mk "/r/broken.go" "broken.go" ].

(** A source that does not parse as Go, for one reason at least: it
    does not close as many braces as it opens. *)
Fixpoint openBraces (source : string) : Z :=
  match source with
  | EmptyString => 0
  | String c rest =>
      (if Ascii.eqb c "{" then 1 else if Ascii.eqb c "}" then -1 else 0) + openBraces rest
  end.

Definition unbalanced (source : string) : bool := negb (openBraces source =? 0).

Definition demoRun (q : string) (tree : list string) (source displayPath : string)
    : list QueryMatch.t :=
  map (fun w =>
         QueryMatch.mk displayPath 0
           [ CaptureResult.mk "function" "function_declaration" ("func " +:+ w +:+ "()") (at_ 1 1);
             CaptureResult.mk "name" "identifier" w (at_ 1 6) ])
      tree.

#[local] Instance demoWorld : World := {|
  NumCPU := 4;
  registry := Register goLanguage ∅;
  Tree := list string;
  query := string;
  newQuery := fun text _ => if String.eqb text "" then Err "compile query: empty" else Ok text;
  run := demoRun;
  parse := fun _ source => asciiFields source;
  ReadFile := fun path =>
    match demoFiles !! path with
    | Some source => Ok source
    | None => Err "no such file"
    end;
  collect := fun cfg =>
    if String.eqb (scannerConfig.root cfg) "empty" then Ok []
    else if String.eqb (scannerConfig.root cfg) "broken" then Ok brokenJobs
    else Ok demoJobs;
  filepath_Abs := fun file => Ok ("/r/" +:+ file);
  filepath_Base := fun path => String.substring 3 (String.length path - 3) path;
  Fields := asciiFields;
  TrimSpace := asciiTrimSpace
|}.

(** A capture of [Foo] that claims to start on line 9 of the three
    lines of [fooSource], and one that claims line 0. *)
Definition strayMatches : list QueryMatch.t :=
  [ QueryMatch.mk "p.go" 0 [ CaptureResult.mk "ident" "identifier" "Foo" (at_ 9 1) ];
    QueryMatch.mk "p.go" 0 [ CaptureResult.mk "ident" "identifier" "Foo" (at_ 0 1) ] ].

(** [type T struct{}] under the symbols query. *)
Definition structMatch : QueryMatch.t :=
  QueryMatch.mk "a.go" 2
    [ CaptureResult.mk "type" "type_declaration" "type T struct{}" (at_ 3 1);
      CaptureResult.mk "name" "type_identifier" "T" (at_ 3 6);
      CaptureResult.mk "type_def" "struct_type" "struct{}" (at_ 3 8) ].

(** A string literal of Go source: the text between double quotes. *)
Definition quoted (s : string) : string := String dquote (s +:+ String dquote "").

(** The outline matches of
    [package p], [import f "fmt"], [func Hello() {}] and [const x = 1]. *)
Definition outlineMatches : list QueryMatch.t :=
  [ QueryMatch.mk "a.go" 0
      [ CaptureResult.mk "package" "package_identifier" "p" (at_ 1 9) ];
    QueryMatch.mk "a.go" 1
      [ CaptureResult.mk "import" "import_declaration" ("import f " +:+ quoted "fmt") (at_ 2 1);
        CaptureResult.mk "alias" "package_identifier" "f" (at_ 2 8);
        CaptureResult.mk "path" "interpreted_string_literal" (quoted "fmt") (at_ 2 10) ];
    QueryMatch.mk "a.go" 3
      [ CaptureResult.mk "function" "function_declaration" "func Hello() {}" (at_ 3 1);
        CaptureResult.mk "func_name" "identifier" "Hello" (at_ 3 6) ];
    QueryMatch.mk "a.go" 12
      [ CaptureResult.mk "const" "const_declaration" "const x = 1" (at_ 4 1);
        CaptureResult.mk "const_name" "identifier" "x" (at_ 4 7) ] ].

(** A world whose language has no queries: compiling them fails; and
    whose file system resolves no path. *)
Definition bareLanguage : Language.t := Language.mk "go" [".go"] "" "" "".

Definition bareWorld : World := {|
  NumCPU := 4;
  registry := Register bareLanguage ∅;
  Tree := list string;
  query := string;
  newQuery := fun text _ => if String.eqb text "" then Err "compile query: empty" else Ok text;
  run := demoRun;
  parse := fun _ source => asciiFields source;
  ReadFile := fun _ => Err "no such file";
  collect := fun _ => Err "lstat: no such file or directory";
  filepath_Abs := fun _ => Err "getwd: no such file or directory";
  filepath_Base := fun path => path;
  Fields := asciiFields;
  TrimSpace := asciiTrimSpace
|}.

(** A small host.  Under [/r]: two Go files, one of them in [sub] and
    with an upper-case extension, a file that is not Go, a Go file
    whose size cannot be had, one of three million bytes, and a
    [vendor] directory.  [/r/locked] is a directory that cannot be
    read. *)
Fixpoint lastDot (name : string) : option string :=
  match name with
  | EmptyString => None
  | String c rest =>
      match lastDot rest with
      | Some ext => Some ext
      | None => if Ascii.eqb c "." then Some name else None
      end
  end.

Fixpoint asciiToLower (s : string) : string :=
  match s with
  | EmptyString => EmptyString
  | String c rest =>
      let n := Ascii.nat_of_ascii c in
      String (if ((65 <=? n) && (n <=? 90))%nat then Ascii.ascii_of_nat (n + 32) else c)
             (asciiToLower rest)
  end.

Definition demoTree : fs.node :=
  fs.Dir "r"
    [ fs.File "a.go" (Ok 10);
      fs.File "README.md" (Ok 3);
      fs.File "nostat.go" (Err "stat nostat.go: permission denied");
      fs.File "huge.go" (Ok 3000000);
      fs.Dir "vendor" [ fs.File "v.go" (Ok 1) ] None;
      fs.Dir "sub" [ fs.File "B.GO" (Ok 1) ] None ]
    None.

Definition demoHost : scanner.Host := {|
  scanner.Abs := fun path =>
    if String.eqb path "" then Err "getwd: no such file or directory"
    else if String.eqb path "." then Ok "/r" else Ok ("/r/" +:+ path);
  scanner.Rel := fun base path =>
    if String.prefix base path
    then Ok (String.substring (String.length base + 1)
               (String.length path - String.length base - 1) path)
    else Err "Rel: can't make path relative";
  scanner.ToSlash := fun path => path;
  scanner.Join := fun dir name => dir +:+ "/" +:+ name;
  scanner.Ext := fun name => default "" (lastDot name);
  scanner.ToLower := asciiToLower;
  scanner.Lstat := fun path =>
    if String.eqb path "/r" then Ok demoTree
    else if String.eqb path "/r/locked"
    then Ok (fs.Dir "locked" [] (Some "open /r/locked: permission denied"))
    else Err ("lstat " +:+ path +:+ ": no such file or directory")
|}.

(** What an engine may answer for [fooSource]: the two uses of [Foo] on
    row 1, and [Bar] under a capture index the query does not have. *)
Definition demoQuery : sitter.Query :=
  sitter.mkQuery 2 (fun id => if id =? 0 then "type_ref" else "call").

Definition nodeAt (type_ text : string) (row column : Z) : sitter.Node :=
  sitter.mkNode type_ (fun _ => text) (sitter.mkPoint row column)
    (sitter.mkPoint row (column + Z.of_nat (String.length text))).

Definition demoExec (q : sitter.Query) (tree : unit) : list sitter.QueryMatch :=
  [ sitter.mkQueryMatch 0 [ sitter.mkQueryCapture 0 (nodeAt "type_identifier" "Foo" 1 8) ];
    sitter.mkQueryMatch 1 [ sitter.mkQueryCapture 1 (nodeAt "identifier" "Foo" 1 14);
                            sitter.mkQueryCapture 7 (nodeAt "identifier" "Bar" 1 18) ] ].

(** ** Facts about the capture map *)

Lemma captureMap_snoc (cs : list CaptureResult.t) (c : CaptureResult.t) :
  captureMap (cs ++ [c]) = <[CaptureResult.Name c := c]> (captureMap cs).
Proof. unfold captureMap. by rewrite foldl_app. Qed.

Lemma captureMap_lookup_Some (cs : list CaptureResult.t) (n : string) (c : CaptureResult.t) :
  captureMap cs !! n = Some c -> c ∈ cs /\ CaptureResult.Name c = n.
Proof.
  induction cs as [|c' cs IH] using rev_ind.
  - unfold captureMap; simpl. by rewrite lookup_empty.
  - rewrite captureMap_snoc, lookup_insert. case_decide as Hn.
    + intros [= ->]. split; [set_solver | done].
    + intros H. destruct (IH H) as [Hin Hname]. split; [set_solver | done].
Qed.

Lemma captureMap_lookup_None (cs : list CaptureResult.t) (n : string) :
  captureMap cs !! n = None <-> forall c, c ∈ cs -> CaptureResult.Name c <> n.
Proof.
  induction cs as [|c' cs IH] using rev_ind.
  - unfold captureMap; simpl. rewrite lookup_empty. split; [|done].
    intros _ c Hc. by apply elem_of_nil in Hc.
  - rewrite captureMap_snoc, lookup_insert. case_decide as Hn.
    + split; [done|]. intros H. exfalso. apply (H c'); [set_solver | done].
    + rewrite IH. split.
      * intros H c Hc. apply elem_of_app in Hc as [Hc|Hc]; [by apply H|].
        apply list_elem_of_singleton in Hc as ->. done.
      * intros H c Hc. apply H. set_solver.
Qed.

Lemma has_captured (match_ : QueryMatch.t) (n : string) :
  has (captureMap (QueryMatch.Captures match_)) n = true <-> captured match_ n.
Proof.
  unfold has, captured.
  destruct (captureMap (QueryMatch.Captures match_) !! n) as [c|] eqn:E.
  - split; [|done]. intros _. exists c. by apply captureMap_lookup_Some.
  - split; [done|]. intros (c & Hin & Hname).
    rewrite captureMap_lookup_None in E. by destruct (E c Hin).
Qed.

Lemma has_not_captured (match_ : QueryMatch.t) (n : string) :
  has (captureMap (QueryMatch.Captures match_)) n = false <-> ~ captured match_ n.
Proof. rewrite <- has_captured. by destruct (has _ _). Qed.

Lemma has_lookup (captures : gmap string CaptureResult.t) (n : string) :
  has captures n = false <-> captures !! n = None.
Proof. unfold has. by destruct (captures !! n). Qed.

(** ** The classifier *)

Section ClassifierFacts.

Variable Fields : string -> list string.

Lemma withName_Kind (captures : gmap string CaptureResult.t) (sym : Symbol.t) :
  Symbol.Kind (withName captures sym) = Symbol.Kind sym.
Proof. unfold withName. by destruct (captures !! "name"). Qed.

Lemma withName_Name (captures : gmap string CaptureResult.t) (sym : Symbol.t) :
  Symbol.Name (withName captures sym)
  = default (Symbol.Name sym) (captureText captures "name").
Proof. unfold withName, captureText. by destruct (captures !! "name"). Qed.

(** Whatever [classify] returns carries the text of the [name] capture
    as its name, and the empty name when there is none. *)
Lemma classify_Name (captures : gmap string CaptureResult.t) (sym : Symbol.t) :
  classify Fields captures = Some sym ->
  Symbol.Name sym = default "" (captureText captures "name").
Proof.
  unfold classify.
  destruct (has captures "const"); [intros [= <-]; apply withName_Name|].
  destruct (has captures "var"); [intros [= <-]; apply withName_Name|].
  destruct (has captures "function"); [intros [= <-]; apply withName_Name|].
  destruct (has captures "method").
  { intros [= <-]. destruct (captures !! "receiver"); apply withName_Name. }
  destruct (captures !! "type"); [|done]. intros [= <-]. apply withName_Name.
Qed.

(** [parseSymbolFromMatch] keeps the kind and the name [classify]
    chose, and rejects the empty name. *)
Lemma parseSymbolFromMatch_inv
    (match_ : QueryMatch.t) (source : string) (includeSource : bool) (maxSourceLines : Z)
    (sym : Symbol.t) :
  parseSymbolFromMatch Fields match_ source includeSource maxSourceLines = Some sym ->
  exists sym0,
    classify Fields (captureMap (QueryMatch.Captures match_)) = Some sym0 /\
    Symbol.Kind sym = Symbol.Kind sym0 /\
    Symbol.Name sym = Symbol.Name sym0 /\
    Symbol.Name sym <> "" /\
    Symbol.Visibility sym = getVisibility (Symbol.Name sym).
Proof.
  unfold parseSymbolFromMatch.
  destruct (classify Fields _) as [sym0|]; [|done].
  destruct (String.eqb (Symbol.Name sym0) "") eqn:E; [done|].
  apply String.eqb_neq in E. intros [= <-]. exists sym0.
  destruct includeSource; [destruct (List.find _ _)|]; simpl; done.
Qed.

Lemma parseSymbolFromMatch_Some
    (match_ : QueryMatch.t) (source : string) (includeSource : bool) (maxSourceLines : Z)
    (sym0 : Symbol.t) :
  classify Fields (captureMap (QueryMatch.Captures match_)) = Some sym0 ->
  Symbol.Name sym0 <> "" ->
  exists sym,
    parseSymbolFromMatch Fields match_ source includeSource maxSourceLines = Some sym.
Proof.
  intros Hc Hn. unfold parseSymbolFromMatch. rewrite Hc.
  apply String.eqb_neq in Hn. rewrite Hn. eauto.
Qed.

(** The kind [classify] assigns, read off the chain of tests. *)
Lemma classify_Kind (captures : gmap string CaptureResult.t) :
  match classify Fields captures with
  | Some sym =>
      if has captures "const" then Symbol.Kind sym = "const"
      else if has captures "var" then Symbol.Kind sym = "var"
      else if has captures "function" then Symbol.Kind sym = "function"
      else if has captures "method" then Symbol.Kind sym = "method"
      else has captures "type" = true /\
           (Symbol.Kind sym = "struct" \/ Symbol.Kind sym = "interface"
            \/ Symbol.Kind sym = "type")
  | None =>
      has captures "const" = false /\ has captures "var" = false /\
      has captures "function" = false /\ has captures "method" = false /\
      has captures "type" = false
  end.
Proof.
  unfold classify.
  destruct (has captures "const"); [simpl; apply withName_Kind|].
  destruct (has captures "var"); [simpl; apply withName_Kind|].
  destruct (has captures "function"); [simpl; apply withName_Kind|].
  destruct (has captures "method").
  { simpl. destruct (captures !! "receiver"); simpl; apply withName_Kind. }
  unfold has. destruct (captures !! "type"); [|done].
  split; [done|]. simpl. rewrite withName_Kind. simpl.
  destruct (captures !! "type_def") as [typeSpec|]; [|auto].
  destruct (strings.HasPrefix _ "struct"); [auto|].
  destruct (strings.HasPrefix _ "interface"); auto.
Qed.

End ClassifierFacts.

(** C1: [parseSymbolFromMatch] classifies by the fixed precedence const,
    var, function, method, type.  Whenever it produces a symbol, the kind
    is that of the first of these five names the match carries (a [type]
    match being refined to struct, interface or type); so a match with
    both a [const] and a [type] capture is a const, and one with [var]
    and [type] a var.  A match with none of the five names produces no
    symbol, and a match with one of them and a non-empty name does
    produce one. *)
Theorem parseSymbolFromMatch_precedence
    (Fields : string -> list string) (match_ : QueryMatch.t) (source : string)
    (includeSource : bool) (maxSourceLines : Z) :
  let r := parseSymbolFromMatch Fields match_ source includeSource maxSourceLines in
  (forall sym, r = Some sym ->
     (captured match_ "const" -> Symbol.Kind sym = "const") /\
     (~ captured match_ "const" -> captured match_ "var" -> Symbol.Kind sym = "var") /\
     (~ captured match_ "const" -> ~ captured match_ "var" ->
      captured match_ "function" -> Symbol.Kind sym = "function") /\
     (~ captured match_ "const" -> ~ captured match_ "var" ->
      ~ captured match_ "function" -> captured match_ "method" ->
      Symbol.Kind sym = "method") /\
     (~ captured match_ "const" -> ~ captured match_ "var" ->
      ~ captured match_ "function" -> ~ captured match_ "method" ->
      captured match_ "type" /\
      (Symbol.Kind sym = "struct" \/ Symbol.Kind sym = "interface"
       \/ Symbol.Kind sym = "type"))) /\
  (~ captured match_ "const" -> ~ captured match_ "var" ->
   ~ captured match_ "function" -> ~ captured match_ "method" ->
   ~ captured match_ "type" -> r = None) /\
  (forall name,
     captureMap (QueryMatch.Captures match_) !! "name" = Some name ->
     CaptureResult.Text name <> "" ->
     captured match_ "const" \/ captured match_ "var" \/ captured match_ "function"
       \/ captured match_ "method" \/ captured match_ "type" ->
     exists sym, r = Some sym).
Proof.
  intros r. subst r.
  pose proof (classify_Kind Fields (captureMap (QueryMatch.Captures match_))) as HK.
  split; [|split].
  - intros sym Hsym.
    apply parseSymbolFromMatch_inv in Hsym as (sym0 & Hc & -> & _).
    rewrite Hc in HK. rewrite <- !has_not_captured, <- !has_captured.
    repeat split; intros; repeat match goal with
      | H : has _ _ = _ |- _ => rewrite H in HK
      end; tauto.
  - rewrite <- !has_not_captured. intros H1 H2 H3 H4 H5.
    unfold parseSymbolFromMatch.
    destruct (classify Fields _) as [sym0|]; [|done].
    rewrite H1, H2, H3, H4, H5 in HK. by destruct HK as [[=] _].
  - intros name Hname Htext Hany. rewrite <- !has_captured in Hany.
    destruct (classify Fields _) as [sym0|] eqn:Hc.
    + eapply parseSymbolFromMatch_Some; [done|].
      rewrite (classify_Name _ _ _ Hc). unfold captureText. by rewrite Hname.
    + destruct HK as (H1 & H2 & H3 & H4 & H5).
      rewrite H1, H2, H3, H4, H5 in Hany. naive_solver.
Qed.

Lemma parseSymbolFromMatch_precedence_witness :
  exists sym,
    parseSymbolFromMatch asciiFields constWithType "" false 0 = Some sym /\
    Symbol.Kind sym = "const".
Proof.
  destruct (parseSymbolFromMatch_precedence asciiFields constWithType "" false 0)
    as (Hkind & _ & Hsome).
  assert (Hconst : captured constWithType "const").
  { eexists. split; [apply list_elem_of_here | reflexivity]. }
  destruct (Hsome (CaptureResult.mk "name" "identifier" "x" (at_ 1 7))) as [sym Hsym].
  - vm_compute. reflexivity.
  - discriminate.
  - left. exact Hconst.
  - exists sym. split; [exact Hsym|]. exact (proj1 (Hkind sym Hsym) Hconst).
Defined.

(** ** Symbols have names *)

Lemma extractSymbols_acc
    (Fields : string -> list string) (matches : list QueryMatch.t) (source visibility : string)
    (includeSource : bool) (maxSourceLines : Z) (acc : list Symbol.t) :
  foldl (fun symbols match_ =>
           match parseSymbolFromMatch Fields match_ source includeSource maxSourceLines with
           | None => symbols
           | Some sym => if passesFilter visibility sym then symbols ++ [sym] else symbols
           end) acc matches
  = acc ++ flat_map (keptSymbols Fields source visibility includeSource maxSourceLines) matches.
Proof.
  revert acc. induction matches as [|m ms IH]; intros acc; simpl.
  - by rewrite app_nil_r.
  - rewrite IH. unfold keptSymbols at 2.
    destruct (parseSymbolFromMatch _ _ _ _ _) as [sym|]; [|done].
    destruct (passesFilter visibility sym); [|done]. by rewrite <- app_assoc.
Qed.

Lemma extractSymbols_flat_map
    (Fields : string -> list string) (matches : list QueryMatch.t) (source visibility : string)
    (includeSource : bool) (maxSourceLines : Z) :
  extractSymbols Fields matches source visibility includeSource maxSourceLines
  = flat_map (keptSymbols Fields source visibility includeSource maxSourceLines) matches.
Proof. unfold extractSymbols. by rewrite extractSymbols_acc. Qed.

Lemma parseSymbolFromMatch_unnamed
    (Fields : string -> list string) (match_ : QueryMatch.t) (source : string)
    (includeSource : bool) (maxSourceLines : Z) :
  default "" (captureText (captureMap (QueryMatch.Captures match_)) "name") = "" ->
  parseSymbolFromMatch Fields match_ source includeSource maxSourceLines = None.
Proof.
  intros Hname. unfold parseSymbolFromMatch.
  destruct (classify Fields _) as [sym0|] eqn:Hc; [|done].
  by rewrite (classify_Name _ _ _ Hc), Hname.
Qed.

(** C8: every symbol [extractSymbols] returns has a non-empty name.  A
    match with no captures, a match without a [name] capture and a match
    whose [name] capture has the empty text each produce no symbol, and
    leave the result of any batch they are part of unchanged, whatever
    the visibility filter and the include-source setting. *)
Theorem extractSymbols_names_nonempty
    (Fields : string -> list string) (matches : list QueryMatch.t) (source visibility : string)
    (includeSource : bool) (maxSourceLines : Z) :
  Forall (fun sym => Symbol.Name sym <> "")
         (extractSymbols Fields matches source visibility includeSource maxSourceLines) /\
  (forall match_,
     QueryMatch.Captures match_ = [] \/
     ~ captured match_ "name" \/
     (exists name, captureMap (QueryMatch.Captures match_) !! "name" = Some name /\
                   CaptureResult.Text name = "") ->
     parseSymbolFromMatch Fields match_ source includeSource maxSourceLines = None /\
     forall before after,
       extractSymbols Fields (before ++ match_ :: after) source visibility includeSource
         maxSourceLines
       = extractSymbols Fields (before ++ after) source visibility includeSource
           maxSourceLines).
Proof.
  split.
  - rewrite extractSymbols_flat_map. apply Forall_forall. intros sym Hin.
    apply list_elem_of_In, in_flat_map in Hin as (m & _ & Hin).
    unfold keptSymbols in Hin.
    destruct (parseSymbolFromMatch _ _ _ _ _) as [sym'|] eqn:Hp; [|by destruct Hin].
    destruct (passesFilter visibility sym'); [|by destruct Hin].
    destruct Hin as [<-|[]].
    by apply parseSymbolFromMatch_inv in Hp as (sym0 & _ & _ & _ & Hne & _).
  - intros match_ Hcase.
    assert (Hnone : parseSymbolFromMatch Fields match_ source includeSource maxSourceLines
                    = None).
    { apply parseSymbolFromMatch_unnamed. unfold captureText.
      destruct Hcase as [Hnil | [Hno | (name & Hlk & Htext)]].
      - by rewrite Hnil.
      - apply has_not_captured, has_lookup in Hno. by rewrite Hno.
      - by rewrite Hlk. }
    split; [exact Hnone|]. intros before after.
    rewrite !extractSymbols_flat_map, !flat_map_app. simpl.
    unfold keptSymbols at 2. by rewrite Hnone.
Qed.

Lemma extractSymbols_names_nonempty_witness :
  parseSymbolFromMatch asciiFields unnamedMatch "" true 10 = None /\
  extractSymbols asciiFields [constWithType; unnamedMatch] "" "all" true 10
  = extractSymbols asciiFields [constWithType] "" "all" true 10.
Proof.
  destruct (extractSymbols_names_nonempty asciiFields [] "" "all" true 10) as [_ H].
  destruct (H unnamedMatch) as [Hnone Hbatch].
  - right. left. intros (c & Hin & Hname).
    apply list_elem_of_singleton in Hin. subst c. discriminate Hname.
  - split; [exact Hnone|]. exact (Hbatch [constWithType] []).
Defined.

(** ** Visibility *)

(** [getVisibility] decides on the first byte of the name alone. *)
Lemma getVisibility_public_iff (name : string) :
  getVisibility name = "public" <->
  exists b rest, name = String b rest /\ unicode.IsUpperLatin1 (rune_of_byte b) = true.
Proof.
  destruct name as [|b rest]; simpl.
  - split; [done|]. by intros (b & rest & [=] & _).
  - destruct (unicode.IsUpperLatin1 (rune_of_byte b)) eqn:E.
    + split; [|done]. intros _. by exists b, rest.
    + split; [done|]. intros (b' & rest' & [= <- <-] & H). congruence.
Qed.

Lemma getVisibility_total (name : string) :
  getVisibility name = "public" \/ getVisibility name = "private".
Proof.
  destruct name as [|b rest]; simpl; [by right|].
  destruct (unicode.IsUpperLatin1 _); auto.
Qed.

(** On a name that starts with an ASCII character the rule is the
    expected one: public exactly for [A]-[Z]. *)
Lemma getVisibility_ascii (b : ascii) (rest : string) :
  rune_of_byte b < utf8.RuneSelf ->
  (getVisibility (String b rest) = "public" <-> 65 <= rune_of_byte b <= 90).
Proof.
  unfold utf8.RuneSelf. intros Hb. rewrite getVisibility_public_iff. split.
  - intros (b' & rest' & [= <- <-] & H). unfold unicode.IsUpperLatin1 in H. lia.
  - intros H. exists b, rest. split; [done|]. unfold unicode.IsUpperLatin1. lia.
Qed.

(** C4, at the name [élan]: the first character is U+00E9, a lower-case
    letter, but [getVisibility] classifies the first byte, C3, which read
    as a rune is the upper-case letter U+00C3; the symbol is reported
    public. *)
Theorem getVisibility_elan_public :
  utf8.DecodeRuneInString elan = Some 233 /\
  unicode.IsUpperLatin1 233 = false /\
  getVisibility elan = "public".
Proof. repeat split. Qed.

(** ** Signatures *)

Lemma string_app_cons (x : ascii) (a b : string) : String x a +:+ b = String x (a +:+ b).
Proof. reflexivity. Qed.

Lemma string_app_nil_l (a : string) : "" +:+ a = a.
Proof. reflexivity. Qed.

Lemma string_app_assoc (a b c : string) : (a +:+ b) +:+ c = a +:+ (b +:+ c).
Proof.
  induction a as [|x a IH]; [done|].
  rewrite !string_app_cons. by rewrite IH.
Qed.

Lemma string_app_nil_r (a : string) : a +:+ "" = a.
Proof.
  induction a as [|x a IH]; [done|].
  rewrite string_app_cons. by rewrite IH.
Qed.

Create Rewrite HintDb strings.
#[local] Hint Rewrite string_app_cons string_app_nil_l string_app_assoc string_app_nil_r
  : strings.

(** The signature is set from [buildFuncSignature] for functions and
    methods, and for them only. *)
Lemma classify_Signature
    (Fields : string -> list string) (captures : gmap string CaptureResult.t) (sym : Symbol.t) :
  classify Fields captures = Some sym ->
  Symbol.Kind sym = "function" \/ Symbol.Kind sym = "method" ->
  Symbol.Signature sym = buildFuncSignature captures.
Proof.
  unfold classify, withName.
  destruct (has captures "const").
  { intros [= <-]. destruct (captures !! "name"); simpl; by intros [|]. }
  destruct (has captures "var").
  { intros [= <-]. destruct (captures !! "name"); simpl; by intros [|]. }
  destruct (has captures "function"); [by intros [= <-]|].
  destruct (has captures "method"); [by intros [= <-]|].
  destruct (captures !! "type"); [|done]. intros [= <-].
  destruct (captures !! "type_def") as [typeSpec|].
  - destruct (strings.HasPrefix _ "struct"); [|destruct (strings.HasPrefix _ "interface")];
      destruct (captures !! "name"); simpl; by intros [|].
  - destruct (captures !! "name"); simpl; by intros [|].
Qed.

Lemma parseSymbolFromMatch_Signature
    (Fields : string -> list string) (match_ : QueryMatch.t) (source : string)
    (includeSource : bool) (maxSourceLines : Z) (sym : Symbol.t) :
  parseSymbolFromMatch Fields match_ source includeSource maxSourceLines = Some sym ->
  exists sym0,
    classify Fields (captureMap (QueryMatch.Captures match_)) = Some sym0 /\
    Symbol.Kind sym = Symbol.Kind sym0 /\
    Symbol.Signature sym = Symbol.Signature sym0.
Proof.
  unfold parseSymbolFromMatch.
  destruct (classify Fields _) as [sym0|]; [|done].
  destruct (String.eqb (Symbol.Name sym0) ""); [done|].
  intros [= <-]. exists sym0.
  destruct includeSource; [destruct (List.find _ _)|]; simpl; done.
Qed.

(** C7, as stated, at [func Hello() {}]: the signature is [func Hello()],
    with nothing between the name and the parameter list, where joining
    the parts by single spaces gives [func Hello ()]. *)
Lemma signature_not_space_joined :
  exists sym,
    parseSymbolFromMatch asciiFields helloMatch "" false 0 = Some sym /\
    Symbol.Kind sym = "function" /\
    Symbol.Signature sym = "func Hello()" /\
    spaceJoinedSignature (captureMap (QueryMatch.Captures helloMatch)) = "func Hello ()" /\
    Symbol.Signature sym <> spaceJoinedSignature (captureMap (QueryMatch.Captures helloMatch)).
Proof. eexists. repeat split. vm_compute. discriminate. Qed.

(** C7, amended: for a match classified as a function or a method the
    signature is the keyword [func], the receiver text if present and the
    name text if present, joined by single spaces; then the parameter-list
    text, if present, with no space before it; then, if a result capture
    is present, a single space and its text.  Absent parts leave no
    trace. *)
Theorem signature_layout
    (Fields : string -> list string) (match_ : QueryMatch.t) (source : string)
    (includeSource : bool) (maxSourceLines : Z) (sym : Symbol.t) :
  parseSymbolFromMatch Fields match_ source includeSource maxSourceLines = Some sym ->
  Symbol.Kind sym = "function" \/ Symbol.Kind sym = "method" ->
  let captures := captureMap (QueryMatch.Captures match_) in
  Symbol.Signature sym
  = strings.Join (["func"] ++ option_list (captureText captures "receiver")
                           ++ option_list (captureText captures "name")) " "
    +:+ default "" (captureText captures "params")
    +:+ match captureText captures "result" with
        | Some result => " " +:+ result
        | None => ""
        end.
Proof.
  intros Hp Hk captures.
  apply parseSymbolFromMatch_Signature in Hp as (sym0 & Hc & HK & ->).
  rewrite HK in Hk. rewrite (classify_Signature _ _ _ Hc Hk).
  unfold buildFuncSignature, captureText. fold captures.
  destruct (captures !! "receiver") as [recv|];
    destruct (captures !! "name") as [name|];
    destruct (captures !! "params") as [params|];
    destruct (captures !! "result") as [result|];
    simpl; autorewrite with strings; reflexivity.
Qed.

Lemma signature_layout_witness :
  exists sym,
    parseSymbolFromMatch asciiFields helloMatch "" false 0 = Some sym /\
    Symbol.Signature sym = "func Hello()".
Proof.
  assert (Hp : exists sym,
             parseSymbolFromMatch asciiFields helloMatch "" false 0 = Some sym /\
             Symbol.Kind sym = "function")
    by (eexists; split; reflexivity).
  destruct Hp as (sym & Hp & Hk). exists sym. split; [exact Hp|].
  rewrite (signature_layout _ _ _ _ _ _ Hp (or_introl Hk)). reflexivity.
Defined.

(** ** References *)

Section ReferenceFacts.

Variable TrimSpace : string -> string.

(** The guard of the context lookup makes the index valid: the inner
    loop body never panics. *)
Lemma referenceFor_total
    (lines : list string) (symbolName : string) (includeContext : bool)
    (match_ : QueryMatch.t) (capture : CaptureResult.t) :
  exists ref, referenceFor TrimSpace lines symbolName includeContext match_ capture = Some ref.
Proof.
  unfold referenceFor. destruct includeContext; [|eauto].
  set (lineIdx := int_sub _ 1).
  destruct ((0 <=? lineIdx) && (lineIdx <? Z.of_nat (length lines))) eqn:Hguard; [|eauto].
  unfold index. rewrite Hguard.
  destruct (lookup_lt_is_Some_2 lines (Z.to_nat lineIdx)) as [line ->]; [lia|eauto].
Qed.

(** The fields of a reference that do not depend on the context flag. *)
Lemma referenceFor_fields
    (lines : list string) (symbolName : string) (includeContext : bool)
    (match_ : QueryMatch.t) (capture : CaptureResult.t) (ref : Reference.t) :
  referenceFor TrimSpace lines symbolName includeContext match_ capture = Some ref ->
  Reference.Symbol ref = symbolName /\
  Reference.Kind ref = referenceKind (CaptureResult.Name capture) /\
  Reference.File ref = QueryMatch.File match_ /\
  Reference.Position ref = Range.Start (CaptureResult.Range capture).
Proof.
  unfold referenceFor.
  assert (Hpos : forall p, Position.mk (Position.Line p) (Position.Column p) = p)
    by (by intros []).
  destruct includeContext.
  - destruct (_ && _); [destruct (index _ _)|]; intros [= <-]; simpl; by rewrite Hpos.
  - intros [= <-]; simpl. by rewrite Hpos.
Qed.

Lemma findReferences_inner
    (lines : list string) (symbolName : string) (includeContext : bool)
    (match_ : QueryMatch.t) (captures : list CaptureResult.t) (refs0 : list Reference.t) :
  exists refs1,
    foldl (fun refs capture =>
             if negb (String.eqb (CaptureResult.Text capture) symbolName) then refs
             else
               match refs, referenceFor TrimSpace lines symbolName includeContext match_ capture with
               | Some refs, Some ref => Some (refs ++ [ref])
               | _, _ => None
               end) (Some refs0) captures
    = Some (refs0 ++ refs1) /\
    Forall2 (fun mc ref =>
               referenceFor TrimSpace lines symbolName includeContext mc.1 mc.2 = Some ref)
            (withText symbolName (map (pair match_) captures)) refs1.
Proof.
  revert refs0. induction captures as [|c cs IH]; intros refs0; simpl.
  - exists []. by rewrite app_nil_r.
  - unfold withText. destruct (String.eqb_spec (CaptureResult.Text c) symbolName) as [Heq|Hne]; simpl.
    + destruct (referenceFor_total lines symbolName includeContext match_ c) as [ref Href].
      rewrite Href. destruct (IH (refs0 ++ [ref])) as (refs1 & -> & HF).
      exists (ref :: refs1). rewrite <- app_assoc. split; [done|].
      rewrite filter_cons_True by done. by constructor.
    + destruct (IH refs0) as (refs1 & -> & HF). exists refs1. split; [done|].
      by rewrite filter_cons_False by done.
Qed.

(** [findReferences] never panics, and returns one reference for each
    capture whose text is the search term, in the order of the
    captures: the one the loop body builds for it. *)
Lemma findReferences_spec
    (matches : list QueryMatch.t) (source symbolName : string) (includeContext : bool) :
  exists refs,
    findReferences TrimSpace matches source symbolName includeContext = Some refs /\
    Forall2 (fun mc ref =>
               referenceFor TrimSpace (strings.Split1 source newline) symbolName
                 includeContext mc.1 mc.2 = Some ref)
            (withText symbolName (allCaptures matches)) refs.
Proof.
  unfold findReferences. set (lines := strings.Split1 source newline).
  enough (H : forall refs0, exists refs1,
    foldl (fun refs match_ =>
             foldl (fun refs capture =>
               if negb (String.eqb (CaptureResult.Text capture) symbolName) then refs
               else
                 match refs, referenceFor TrimSpace lines symbolName includeContext match_ capture with
                 | Some refs, Some ref => Some (refs ++ [ref])
                 | _, _ => None
                 end) refs (QueryMatch.Captures match_)) (Some refs0) matches
    = Some (refs0 ++ refs1) /\
    Forall2 (fun mc ref =>
               referenceFor TrimSpace lines symbolName includeContext mc.1 mc.2 = Some ref)
            (withText symbolName (allCaptures matches)) refs1).
  { destruct (H []) as (refs1 & Hf & HF). exists refs1. by rewrite Hf. }
  induction matches as [|m ms IH]; intros refs0; simpl.
  - exists []. by rewrite app_nil_r.
  - destruct (findReferences_inner lines symbolName includeContext m
                (QueryMatch.Captures m) refs0) as (refs1 & -> & HF1).
    destruct (IH (refs0 ++ refs1)) as (refs2 & -> & HF2).
    exists (refs1 ++ refs2). rewrite <- app_assoc. split; [done|].
    unfold withText in *. rewrite filter_app. by apply Forall2_app.
Qed.

Lemma findReferences_total
    (matches : list QueryMatch.t) (source symbolName : string) (includeContext : bool) :
  exists refs, findReferences TrimSpace matches source symbolName includeContext = Some refs.
Proof. destruct (findReferences_spec matches source symbolName includeContext); naive_solver. Qed.

End ReferenceFacts.

(** C5: [findReferences] with search term [S] produces one reference for
    each capture whose text equals [S], and none for any other capture:
    its result lines up, in order, with the captures of text [S].  Each
    reference has [S] as its symbol, and its kind follows the capture
    name: [call] gives call, [type_ref] and [composite_type] give
    type_ref, [field] gives field_access, [ident] and [short_var] give
    identifier, and every other name gives reference. *)
Theorem findReferences_text_and_kind
    (TrimSpace : string -> string) (matches : list QueryMatch.t) (source S : string)
    (includeContext : bool) :
  exists refs,
    findReferences TrimSpace matches source S includeContext = Some refs /\
    Forall2 (fun mc ref =>
               let name := CaptureResult.Name mc.2 in
               CaptureResult.Text mc.2 = S /\
               Reference.Symbol ref = S /\
               (name = "call" -> Reference.Kind ref = "call") /\
               (name = "type_ref" \/ name = "composite_type" -> Reference.Kind ref = "type_ref") /\
               (name = "field" -> Reference.Kind ref = "field_access") /\
               (name = "ident" \/ name = "short_var" -> Reference.Kind ref = "identifier") /\
               (name <> "call" -> name <> "type_ref" -> name <> "composite_type" ->
                name <> "field" -> name <> "ident" -> name <> "short_var" ->
                Reference.Kind ref = "reference"))
            (filter (fun mc => CaptureResult.Text mc.2 = S) (allCaptures matches)) refs.
Proof.
  destruct (findReferences_spec TrimSpace matches source S includeContext) as (refs & Hf & HF).
  exists refs. split; [exact Hf|]. unfold withText in HF.
  assert (Htext : Forall (fun mc => CaptureResult.Text mc.2 = S)
                    (filter (fun mc => CaptureResult.Text mc.2 = S) (allCaptures matches))).
  { apply Forall_forall. intros mc Hin. by apply list_elem_of_filter in Hin as [? _]. }
  revert Htext HF. generalize (filter (fun mc => CaptureResult.Text mc.2 = S) (allCaptures matches)).
  intros mcs Htext HF. clear Hf.
  induction HF as [|mc ref mcs refs' Href HF IH]; [constructor|].
  apply Forall_cons in Htext as [Ht Htext]. constructor; [|by apply IH].
  apply referenceFor_fields in Href as (Hsym & Hkind & _).
  split; [done|]. split; [done|]. rewrite Hkind. unfold referenceKind.
  repeat split.
  - by intros ->.
  - by intros [-> | ->].
  - by intros ->.
  - by intros [-> | ->].
  - intros H1 H2 H3 H4 H5 H6.
    apply String.eqb_neq in H1, H2, H3, H4, H5, H6.
    by rewrite H1, H2, H3, H4, H5, H6.
Qed.

Lemma findReferences_text_and_kind_witness :
  exists refs,
    findReferences asciiTrimSpace fooMatches fooSource "Foo" true = Some refs /\
    length refs = 2%nat.
Proof.
  destruct (findReferences_text_and_kind asciiTrimSpace fooMatches fooSource "Foo" true)
    as (refs & Hf & HF).
  exists refs. split; [exact Hf|].
  apply Forall2_length in HF. rewrite <- HF. reflexivity.
Defined.

(** ** The context line *)

Lemma wrap_int_id (z : Z) : is_int z -> wrap_int z = z.
Proof.
  unfold is_int, minInt, maxInt, wrap_int. intros Hz.
  rewrite Z.mod_small by lia. lia.
Qed.

Lemma int_sub_1 (z : Z) :
  is_int z -> int_sub z 1 = if decide (z = minInt) then maxInt else z - 1.
Proof.
  intros Hz. unfold int_sub. case_decide as Hmin.
  - subst z. reflexivity.
  - apply wrap_int_id. unfold is_int, minInt, maxInt in *. lia.
Qed.

Lemma referenceFor_context
    (TrimSpace : string -> string) (lines : list string) (symbolName : string)
    (match_ : QueryMatch.t) (capture : CaptureResult.t) (ref : Reference.t) :
  let L := Position.Line (Range.Start (CaptureResult.Range capture)) in
  is_int L ->
  Z.of_nat (length lines) <= maxInt ->
  referenceFor TrimSpace lines symbolName true match_ capture = Some ref ->
  (L - 1 < 0 \/ L - 1 >= Z.of_nat (length lines) -> Reference.Context ref = "") /\
  (0 <= L - 1 < Z.of_nat (length lines) ->
   exists line, lines !! Z.to_nat (L - 1) = Some line /\
                Reference.Context ref = TrimSpace line).
Proof.
  intros L HL Hlen. unfold referenceFor. fold L. rewrite (int_sub_1 L HL).
  unfold is_int, minInt, maxInt in *.
  case_decide as Hmin.
  - replace ((0 <=? 2 ^ 63 - 1) && (2 ^ 63 - 1 <? Z.of_nat (length lines))) with false by lia.
    intros [= <-]. simpl. split; [done | lia].
  - destruct ((0 <=? L - 1) && (L - 1 <? Z.of_nat (length lines))) eqn:Hguard.
    + unfold index. rewrite Hguard.
      destruct (lines !! Z.to_nat (L - 1)) as [line|] eqn:Hline; [|done].
      intros [= <-]. simpl. split; [lia | eauto].
    + intros [= <-]. simpl. split; [done | lia].
Qed.

(** C10: with the include-context flag set, [findReferences] never
    indexes [lines] out of range (it returns, rather than panics), and
    still produces a reference for every capture whose text is the
    search term.  When the capture's start line [L] has [L - 1] negative
    or at least the number of lines of the source, the context is empty;
    when [L - 1] is in range the context is the white-space-trimmed text
    of that line. *)
Theorem findReferences_context_guarded
    (TrimSpace : string -> string) (matches : list QueryMatch.t) (source S : string) :
  let lines := strings.Split1 source newline in
  Z.of_nat (length lines) <= maxInt ->
  (forall mc, mc ∈ allCaptures matches ->
              is_int (Position.Line (Range.Start (CaptureResult.Range mc.2)))) ->
  exists refs,
    findReferences TrimSpace matches source S true = Some refs /\
    Forall2 (fun mc ref =>
               let L := Position.Line (Range.Start (CaptureResult.Range mc.2)) in
               (L - 1 < 0 \/ L - 1 >= Z.of_nat (length lines) ->
                Reference.Context ref = "") /\
               (0 <= L - 1 < Z.of_nat (length lines) ->
                exists line, lines !! Z.to_nat (L - 1) = Some line /\
                             Reference.Context ref = TrimSpace line))
            (filter (fun mc => CaptureResult.Text mc.2 = S) (allCaptures matches)) refs.
Proof.
  intros lines Hlen Hint.
  destruct (findReferences_spec TrimSpace matches source S true) as (refs & Hf & HF).
  exists refs. split; [exact Hf|]. unfold withText in HF. fold lines in HF.
  assert (Hints : Forall (fun mc => is_int (Position.Line (Range.Start (CaptureResult.Range mc.2))))
                    (filter (fun mc => CaptureResult.Text mc.2 = S) (allCaptures matches))).
  { apply Forall_forall. intros mc Hin. apply list_elem_of_filter in Hin as [_ Hin]. by apply Hint. }
  revert Hints HF.
  generalize (filter (fun mc => CaptureResult.Text mc.2 = S) (allCaptures matches)).
  intros mcs Hints HF. clear Hf Hint.
  induction HF as [|mc ref mcs refs' Href HF IH]; [constructor|].
  apply Forall_cons in Hints as [Hi Hints]. constructor; [|by apply IH].
  by apply (referenceFor_context TrimSpace lines S mc.1 mc.2 ref).
Qed.

Lemma findReferences_context_guarded_witness :
  exists refs,
    findReferences asciiTrimSpace (fooMatches ++ strayMatches) fooSource "Foo" true = Some refs /\
    map Reference.Context refs = ["var x Foo = Foo(Bar)"; "var x Foo = Foo(Bar)"; ""; ""].
Proof.
  destruct (findReferences_context_guarded asciiTrimSpace (fooMatches ++ strayMatches)
              fooSource "Foo") as (refs & Hrefs & Hctx).
  - unfold maxInt. simpl. lia.
  - intros mc Hin. apply list_elem_of_In in Hin. unfold is_int, minInt, maxInt.
    simpl in Hin. destruct Hin as [<-|[<-|[<-|[<-|[<-|[]]]]]]; simpl; lia.
  - exists refs. split; [exact Hrefs|].
    vm_compute in Hrefs. injection Hrefs as <-. reflexivity.
Defined.

(** ** The worker pool *)

Lemma workerCount_bounds (jobs : Z) (files : list FileJob.t) :
  files <> [] -> 1 <= workerCount jobs files <= Z.of_nat (length files).
Proof.
  intros Hne. assert (1 <= Z.of_nat (length files)) by (destruct files; [done | simpl; lia]).
  unfold workerCount. destruct (jobs <? 1) eqn:E1.
  - destruct (1 >? Z.of_nat (length files)) eqn:E2; lia.
  - destruct (jobs >? Z.of_nat (length files)) eqn:E2; lia.
Qed.

Lemma workerCount_empty (jobs : Z) : workerCount jobs [] = 0.
Proof.
  unfold workerCount. change (Z.of_nat (length (@nil FileJob.t))) with 0.
  destruct (jobs <? 1) eqn:E1; [reflexivity|].
  destruct (jobs >? 0) eqn:E2; [reflexivity | lia].
Qed.

Lemma spawned_app (l k : list Event) : spawned (l ++ k) = (spawned l + spawned k)%nat.
Proof. unfold spawned. by rewrite List.filter_app, length_app. Qed.

Lemma spawned_replicate (n : nat) : spawned (replicate n EvGo) = n.
Proof. unfold spawned. induction n as [|n IH]; simpl; [done | by rewrite IH]. Qed.

Lemma filesRead_app (l k : list Event) : filesRead (l ++ k) = (filesRead l + filesRead k)%nat.
Proof. unfold filesRead. by rewrite List.filter_app, length_app. Qed.

Section PoolFacts.

Context {T : Type}.
Variable body : FileJob.t -> list T.

Implicit Types (p : @pool T) (ws : list (@goroutine T)) (g : @goroutine T).

Lemma inFlight_split ws i g :
  ws !! i = Some g ->
  inFlight body ws
  = inFlight body (take i ws) ++ pendingOf body g ++ inFlight body (drop (S i) ws) /\
  forall g', inFlight body (<[i := g']> ws)
             = inFlight body (take i ws) ++ pendingOf body g' ++ inFlight body (drop (S i) ws).
Proof.
  intros Hi. unfold inFlight. split.
  - rewrite <- (take_drop_middle ws i g Hi) at 1. by rewrite flat_map_app.
  - intros g'. rewrite insert_take_drop by (by eapply lookup_lt_Some).
    by rewrite flat_map_app.
Qed.

Lemma weight_split ws i g :
  ws !! i = Some g ->
  forall g', (sum_list_with (weight body) (<[i := g']> ws) + weight body g
              = sum_list_with (weight body) ws + weight body g')%nat.
Proof.
  intros Hi g'. rewrite insert_take_drop by (by eapply lookup_lt_Some).
  rewrite <- (take_drop_middle ws i g Hi) at 3.
  rewrite !sum_list_with_app. simpl. lia.
Qed.

(** No step loses, duplicates or invents a result. *)
Lemma stepWorker_contents i p :
  poolContents body (stepWorker body i p) ≡ₚ poolContents body p.
Proof.
  unfold stepWorker, poolContents.
  destruct (workers p !! i) as [[[|r pending]|job|]|] eqn:Hi; [| | |done|done].
  - destruct (inFlight_split _ _ _ Hi) as [E1 E2].
    destruct (jobQueue p) as [|job queue]; simpl; rewrite E1, E2; simpl; [done|].
    f_equiv. rewrite <- !app_assoc. f_equiv.
    rewrite !app_assoc. f_equiv. apply Permutation_app_comm.
  - destruct (inFlight_split _ _ _ Hi) as [E1 E2]. cbn [results workers jobQueue].
    rewrite E1, E2. cbn [pendingOf].
    rewrite <- !app_assoc. f_equiv. simpl. apply Permutation_middle.
  - destruct (inFlight_split _ _ _ Hi) as [E1 E2]. cbn [results workers jobQueue].
    by rewrite E1, E2.
Qed.

Lemma stepWorker_live i p : live p -> live (stepWorker body i p).
Proof.
  unfold stepWorker, live, someWorking.
  destruct (workers p !! i) as [[[|r pending]|job|]|] eqn:Hi; [| | |done|done].
  - destruct (jobQueue p) as [|job queue]; simpl; [by left|].
    intros _. right. exists i, (Received job). split; [|done].
    apply list_lookup_insert_eq. by eapply lookup_lt_Some.
  - simpl. intros _. right. exists i, (Working pending). split; [|done].
    apply list_lookup_insert_eq. by eapply lookup_lt_Some.
  - simpl. intros _. right. exists i, (Working (body job)). split; [|done].
    apply list_lookup_insert_eq. by eapply lookup_lt_Some.
Qed.

Lemma stepWorker_spawned i p :
  spawned (effects (stepWorker body i p)) = spawned (effects p).
Proof.
  unfold stepWorker.
  destruct (workers p !! i) as [[[|r pending]|job|]|]; [| |  |done..].
  - by destruct (jobQueue p).
  - done.
  - simpl. rewrite spawned_app. simpl. unfold spawned at 2. simpl. lia.
Qed.

(** Every action of a goroutine that has not exited uses up one of the
    actions that remain. *)
Lemma stepWorker_remaining i p g :
  workers p !! i = Some g -> hasExited g = false ->
  S (remaining body (stepWorker body i p)) = remaining body p.
Proof.
  intros Hi Hg. unfold stepWorker, remaining. rewrite Hi.
  destruct g as [[|r pending]|job|]; [| | |done].
  - destruct (jobQueue p) as [|job queue]; simpl.
    + pose proof (weight_split _ _ _ Hi Exited). simpl in *. lia.
    + pose proof (weight_split _ _ _ Hi (Received job)). simpl in *. lia.
  - simpl. pose proof (weight_split _ _ _ Hi (Working pending)). simpl in *. lia.
  - simpl. pose proof (weight_split _ _ _ Hi (Working (body job))). simpl in *. lia.
Qed.

Lemma schedule_app sched sched' p :
  schedule body (sched ++ sched') p = schedule body sched' (schedule body sched p).
Proof. unfold schedule. by rewrite foldl_app. Qed.

Lemma schedule_contents sched p :
  poolContents body (schedule body sched p) ≡ₚ poolContents body p.
Proof.
  revert p. induction sched as [|i sched IH]; intros p; simpl; [done|].
  rewrite IH. apply stepWorker_contents.
Qed.

Lemma schedule_live sched p : live p -> live (schedule body sched p).
Proof.
  revert p. induction sched as [|i sched IH]; intros p Hp; simpl; [done|].
  by apply IH, stepWorker_live.
Qed.

Lemma schedule_spawned sched p :
  spawned (effects (schedule body sched p)) = spawned (effects p).
Proof.
  revert p. induction sched as [|i sched IH]; intros p; simpl; [done|].
  rewrite IH. apply stepWorker_spawned.
Qed.

Lemma allExited_inFlight ws : forallb hasExited ws = true -> inFlight body ws = [].
Proof.
  unfold inFlight. induction ws as [|[pending|job|] ws IH]; simpl; [done|done|done|exact IH].
Qed.

Lemma allExited_not_working ws : forallb hasExited ws = true -> ~ someWorking ws.
Proof.
  intros Hall (i & g & Hi & Hg).
  apply Is_true_true, forallb_True in Hall.
  apply (Forall_lookup_1 _ _ _ _ Hall) in Hi. rewrite Hg in Hi. done.
Qed.

Lemma not_allExited_working ws : forallb hasExited ws = false -> someWorking ws.
Proof.
  induction ws as [|g ws IH]; simpl; [done|].
  destruct (hasExited g) eqn:Hg; simpl.
  - intros H. destruct (IH H) as (i & g' & Hi & Hg'). by exists (S i), g'.
  - intros _. by exists 0%nat, g.
Qed.

(** When every worker has exited, what has been sent is what the
    files give, in some order. *)
Lemma allExited_results p :
  live p -> allExited p = true -> results p ≡ₚ poolContents body p.
Proof.
  unfold allExited, poolContents. intros [Hq|Hw] Hall.
  - by rewrite (allExited_inFlight _ Hall), Hq, !app_nil_r.
  - by destruct (allExited_not_working _ Hall).
Qed.

(** From any state the pool can be run to the point where every
    worker has exited. *)
Lemma schedule_completes p : exists sched, allExited (schedule body sched p) = true.
Proof.
  remember (remaining body p) as n eqn:Hn. revert p Hn.
  induction n as [|n IH]; intros p Hn.
  - destruct (allExited p) eqn:Hall; [by exists []|].
    destruct (not_allExited_working _ Hall) as (i & g & Hi & Hg).
    pose proof (stepWorker_remaining i p g Hi Hg). lia.
  - destruct (allExited p) eqn:Hall; [by exists []|].
    destruct (not_allExited_working _ Hall) as (i & g & Hi & Hg).
    pose proof (stepWorker_remaining i p g Hi Hg) as Hstep.
    destruct (IH (stepWorker body i p)) as [sched Hsched]; [lia|].
    by exists (i :: sched).
Qed.

Lemma startPool_contents files n :
  poolContents body (startPool files n) = flat_map body files.
Proof.
  unfold poolContents, startPool. simpl.
  enough (inFlight body (replicate n (@Working T [])) = []) as -> by done.
  unfold inFlight. induction n as [|n IH]; simpl; [done|exact IH].
Qed.

Lemma startPool_live files jobs :
  live (@startPool T files (Z.to_nat (workerCount jobs files))).
Proof.
  unfold live, startPool. simpl. destruct (decide (files = [])) as [->|Hne]; [by left|].
  right. pose proof (workerCount_bounds jobs files Hne).
  exists 0%nat, (Working []). split; [|done]. apply lookup_replicate_2. lia.
Qed.

(** The pool returns what the files give, in some order. *)
Lemma runPool_results sched files jobs out :
  (runPool body sched files jobs).1 = Return out -> out ≡ₚ flat_map body files.
Proof.
  unfold runPool. simpl.
  set (p := schedule body sched (startPool files (Z.to_nat (workerCount jobs files)))).
  destruct (allExited p) eqn:Hall; [|done]. intros [= <-].
  rewrite (allExited_results p); [|by apply schedule_live, startPool_live|done].
  unfold p. by rewrite schedule_contents, startPool_contents.
Qed.

Lemma runPool_no_error sched files jobs msg :
  (runPool body sched files jobs).1 <> Error msg.
Proof. unfold runPool. simpl. by destruct (allExited _). Qed.

Lemma runPool_completes sched files jobs :
  exists sched' out, (runPool body (sched ++ sched') files jobs).1 = Return out.
Proof.
  set (p := schedule body sched (startPool files (Z.to_nat (workerCount jobs files)))).
  destruct (schedule_completes p) as [sched' Hdone]. exists sched'.
  unfold runPool. simpl. rewrite schedule_app. fold p. rewrite Hdone. eauto.
Qed.

Lemma runPool_spawned sched files jobs :
  spawned (runPool body sched files jobs).2 = Z.to_nat (workerCount jobs files).
Proof.
  unfold runPool. simpl. rewrite schedule_spawned. simpl. apply spawned_replicate.
Qed.

End PoolFacts.

(** ** The aggregators *)

Lemma bind_lift_Ok {A B : Type} (a : A) (f : A -> M B) : (x <- lift (Ok a) ;; f x) = f a.
Proof. unfold bind, lift, ret. by destruct (f a). Qed.

Lemma bind_lift_Err {A B : Type} (msg : string) (f : A -> M B) :
  (x <- lift (Err msg) ;; f x) = (Error msg, []).
Proof. reflexivity. Qed.

Lemma bind_Return {A B : Type} (m : M A) (f : A -> M B) (a : A) :
  m.1 = Return a -> (x <- m ;; f x) = ((f a).1, m.2 ++ (f a).2).
Proof. destruct m as [o log]. simpl. intros ->. by destruct (f a). Qed.

Lemma bind_Error {A B : Type} (m : M A) (f : A -> M B) (msg : string) :
  m.1 = Error msg -> (x <- m ;; f x) = (Error msg, m.2).
Proof. destruct m as [o log]. simpl. by intros ->. Qed.

Lemma bind_Unfinished {A B : Type} (m : M A) (f : A -> M B) :
  m.1 = Unfinished -> (x <- m ;; f x) = (Unfinished, m.2).
Proof. destruct m as [o log]. simpl. by intros ->. Qed.

Lemma flat_map_filter_nil {A B : Type} (f : A -> list B) (ok : A -> bool) (l : list A) :
  (forall a, ok a = false -> f a = []) ->
  flat_map f (List.filter ok l) = flat_map f l.
Proof.
  intros Hf. induction l as [|a l IH]; simpl; [done|].
  destruct (ok a) eqn:E; simpl; rewrite IH; [done|]. by rewrite (Hf a E).
Qed.

Lemma runPool_empty {T : Type} (body : FileJob.t -> list T) (sched : list nat) (jobs : Z) :
  runPool body sched [] jobs = (Return [], []).
Proof.
  unfold runPool. rewrite workerCount_empty.
  change (startPool [] (Z.to_nat 0)) with (@mkPool T [] [] [] []).
  assert (schedule body sched (mkPool [] [] [] []) = mkPool [] [] [] []) as ->; [|done].
  induction sched as [|i sched IH]; simpl; [done|]. exact IH.
Qed.

(** A pool skips the files its worker body cannot read. *)
Lemma runPool_skips {T : Type}
    (body : FileJob.t -> list T) (ok : FileJob.t -> bool) (files : list FileJob.t) (jobs : Z) :
  (forall job, ok job = false -> body job = []) ->
  skipsFailedFiles (fun sched => (runPool body sched files jobs).1) body ok files.
Proof.
  intros Hbody sched. split; [|split].
  - intros msg. apply runPool_no_error.
  - intros out Hout. rewrite (flat_map_filter_nil _ _ _ Hbody). by eapply runPool_results.
  - apply runPool_completes.
Qed.

Section AggregatorFacts.

Context `{W : World}.

Lemma queryWorker_unreadable language q job :
  readable job = false -> queryWorker language q job = [].
Proof. unfold readable, queryWorker, parseFile. by destruct (ReadFile _). Qed.

Lemma symbolsWorker_unreadable language q visibility includeSource maxSourceLines job :
  readable job = false ->
  symbolsWorker language q visibility includeSource maxSourceLines job = [].
Proof. unfold readable, symbolsWorker, parseFile. by destruct (ReadFile _). Qed.

Lemma refsWorker_unreadable language q symbolName includeContext job :
  readable job = false ->
  refsWorker language q symbolName includeContext job = [].
Proof. unfold readable, refsWorker, parseFile. by destruct (ReadFile _). Qed.

(** Resolving the file set starts no worker and reads no file; in
    directory mode the scanner is given the caller's root and ceiling. *)
Lemma resolveFiles_log language file path maxBytes :
  let log := (resolveFiles language file path maxBytes).2 in
  spawned log = 0%nat /\ filesRead log = 0%nat /\
  forall cfg, EvCollect cfg ∈ log ->
              scannerConfig.root cfg = path /\ scannerConfig.maxBytes cfg = maxBytes.
Proof.
  unfold resolveFiles, collectSingle.
  destruct (String.eqb file ""); cbn [negb].
  - destruct (collect _); simpl; (split; [done|]; split; [done|]);
      intros cfg Hin; apply list_elem_of_singleton in Hin; by injection Hin as ->.
  - destruct (filepath_Abs file); simpl; (split; [done|]; split; [done|]);
      intros cfg Hin; apply list_elem_of_singleton in Hin; discriminate.
Qed.

(** Once the configuration is valid, each aggregator is its dispatch. *)
Lemma Query_valid sched opts language q :
  QueryOptions.Query opts <> "" ->
  selected (QueryOptions.Language opts) = Some language ->
  newQuery (QueryOptions.Query opts) language = Ok q ->
  Query sched opts
  = (files <- resolveFiles language (QueryOptions.File opts)
                (orDefault (QueryOptions.Path opts) ".")
                (orDefaultZ (QueryOptions.MaxBytes opts) defaultMaxBytes) ;;
     if (length files =? 0)%nat then ret []
     else runQueryWorkers sched language q files
            (orDefaultZ (QueryOptions.Jobs opts) NumCPU)).
Proof.
  unfold Query, selected. intros Hq%String.eqb_neq Hl Hc.
  by rewrite Hq, Hl, Hc, bind_lift_Ok.
Qed.

Lemma Symbols_valid sched opts language q :
  selected (SymbolsOptions.Language opts) = Some language ->
  newQuery (Language.SymbolsQuery language) language = Ok q ->
  Symbols sched opts
  = (files <- resolveFiles language (SymbolsOptions.File opts)
                (orDefault (SymbolsOptions.Path opts) ".")
                (orDefaultZ (SymbolsOptions.MaxBytes opts) defaultMaxBytes) ;;
     if (length files =? 0)%nat then ret []
     else runSymbolsWorkers sched language q files
            (orDefaultZ (SymbolsOptions.Jobs opts) NumCPU)
            (orDefault (SymbolsOptions.Visibility opts) "all")
            (SymbolsOptions.IncludeSource opts)
            (orDefaultZ (SymbolsOptions.MaxSourceLines opts) 10)).
Proof.
  unfold Symbols, selected. intros Hl Hc. by rewrite Hl, Hc, bind_lift_Ok.
Qed.

Lemma Refs_valid sched opts language q :
  RefsOptions.Symbol opts <> "" ->
  selected (RefsOptions.Language opts) = Some language ->
  newQuery (Language.RefsQuery language) language = Ok q ->
  Refs sched opts
  = (files <- resolveFiles language (RefsOptions.File opts)
                (orDefault (RefsOptions.Path opts) ".")
                (orDefaultZ (RefsOptions.MaxBytes opts) defaultMaxBytes) ;;
     if (length files =? 0)%nat then ret (RefsResult.mk (RefsOptions.Symbol opts) [])
     else
       refs <- runRefsWorkers sched language q files
                 (orDefaultZ (RefsOptions.Jobs opts) NumCPU) (RefsOptions.Symbol opts)
                 (RefsOptions.IncludeContext opts) ;;
       ret (RefsResult.mk (RefsOptions.Symbol opts) refs)).
Proof.
  unfold Refs, selected. intros Hs%String.eqb_neq Hl Hc.
  by rewrite Hs, Hl, Hc, bind_lift_Ok.
Qed.

(** With the file set resolved, the outcome of a dispatch is the
    outcome of the pool; an empty file set makes no difference. *)
Lemma dispatch_outcome {T : Type}
    (m : M (list FileJob.t)) (body : FileJob.t -> list T) (sched : list nat) (jobs : Z)
    (files : list FileJob.t) :
  m.1 = Return files ->
  (files <- m ;;
   if (length files =? 0)%nat then ret [] else runPool body sched files jobs).1
  = (runPool body sched files jobs).1.
Proof.
  intros Hm. rewrite (bind_Return _ _ _ Hm). cbn [fst].
  destruct files as [|job files]; [|done].
  by rewrite runPool_empty.
Qed.

Lemma dispatch_empty {A : Type}
    (m : M (list FileJob.t)) (empty : A) (pool : list FileJob.t -> M A) :
  m.1 = Return [] ->
  (files <- m ;; if (length files =? 0)%nat then ret empty else pool files)
  = (Return empty, m.2).
Proof. intros Hm. rewrite (bind_Return _ _ _ Hm). simpl. by rewrite app_nil_r. Qed.

End AggregatorFacts.

(** C2: whatever worker count is requested, zero and negative values
    included, a non-empty file set gets at least one worker and at most
    one per file, and that is the number of goroutines [runQueryWorkers],
    [runSymbolsWorkers] and [runRefsWorkers] start.  When the resolved
    file set is empty, [Query], [Symbols] and [Refs] return an empty
    result, not an error, and start no worker and read no file. *)
Theorem worker_count_clamped `{W : World} :
  (forall (jobs : Z) (files : list FileJob.t),
     files <> [] -> 1 <= workerCount jobs files <= Z.of_nat (length files)) /\
  (forall sched language q files jobs,
     files <> [] ->
     (1 <= spawned (runQueryWorkers sched language q files jobs).2 <= length files)%nat) /\
  (forall sched language q files jobs visibility includeSource maxSourceLines,
     files <> [] ->
     (1 <= spawned (runSymbolsWorkers sched language q files jobs visibility includeSource
                      maxSourceLines).2 <= length files)%nat) /\
  (forall sched language q files jobs symbolName includeContext,
     files <> [] ->
     (1 <= spawned (runRefsWorkers sched language q files jobs symbolName includeContext).2
        <= length files)%nat) /\
  (forall sched opts language q,
     QueryOptions.Query opts <> "" ->
     selected (QueryOptions.Language opts) = Some language ->
     newQuery (QueryOptions.Query opts) language = Ok q ->
     (resolveFiles language (QueryOptions.File opts) (orDefault (QueryOptions.Path opts) ".")
        (orDefaultZ (QueryOptions.MaxBytes opts) defaultMaxBytes)).1 = Return [] ->
     (Query sched opts).1 = Return [] /\
     spawned (Query sched opts).2 = 0%nat /\ filesRead (Query sched opts).2 = 0%nat) /\
  (forall sched opts language q,
     selected (SymbolsOptions.Language opts) = Some language ->
     newQuery (Language.SymbolsQuery language) language = Ok q ->
     (resolveFiles language (SymbolsOptions.File opts) (orDefault (SymbolsOptions.Path opts) ".")
        (orDefaultZ (SymbolsOptions.MaxBytes opts) defaultMaxBytes)).1 = Return [] ->
     (Symbols sched opts).1 = Return [] /\
     spawned (Symbols sched opts).2 = 0%nat /\ filesRead (Symbols sched opts).2 = 0%nat) /\
  (forall sched opts language q,
     RefsOptions.Symbol opts <> "" ->
     selected (RefsOptions.Language opts) = Some language ->
     newQuery (Language.RefsQuery language) language = Ok q ->
     (resolveFiles language (RefsOptions.File opts) (orDefault (RefsOptions.Path opts) ".")
        (orDefaultZ (RefsOptions.MaxBytes opts) defaultMaxBytes)).1 = Return [] ->
     (Refs sched opts).1 = Return (RefsResult.mk (RefsOptions.Symbol opts) []) /\
     spawned (Refs sched opts).2 = 0%nat /\ filesRead (Refs sched opts).2 = 0%nat).
Proof.
  assert (Hpool : forall (T : Type) (body : FileJob.t -> list T) sched files jobs,
             files <> [] ->
             (1 <= spawned (runPool body sched files jobs).2 <= length files)%nat).
  { intros T body sched files jobs Hne. rewrite runPool_spawned.
    pose proof (workerCount_bounds jobs files Hne). lia. }
  split; [exact workerCount_bounds|].
  split; [intros; by apply Hpool|]. split; [intros; by apply Hpool|].
  split; [intros; by apply Hpool|].
  split; [|split].
  - intros sched opts language q Hq Hl Hc Hfiles.
    rewrite (Query_valid _ _ _ _ Hq Hl Hc), (dispatch_empty _ _ _ Hfiles). simpl.
    split; [done|]. split; apply resolveFiles_log.
  - intros sched opts language q Hl Hc Hfiles.
    rewrite (Symbols_valid _ _ _ _ Hl Hc), (dispatch_empty _ _ _ Hfiles). simpl.
    split; [done|]. split; apply resolveFiles_log.
  - intros sched opts language q Hs Hl Hc Hfiles.
    rewrite (Refs_valid _ _ _ _ Hs Hl Hc), (dispatch_empty _ _ _ Hfiles). simpl.
    split; [done|]. split; apply resolveFiles_log.
Qed.

Lemma worker_count_clamped_witness :
  workerCount (-3) demoJobs = 1 /\ workerCount 0 demoJobs = 1 /\ workerCount 16 demoJobs = 3 /\
  (1 <= spawned (runQueryWorkers [] goLanguage "(q)" demoJobs 0).2 <= 3)%nat /\
  (Query [0; 1]%nat (QueryOptions.mk "(q)" "go" "empty" "" 8 0)).1 = Return [].
Proof.
  destruct (@worker_count_clamped demoWorld) as (Hclamp & Hq & _ & _ & Hempty & _).
  split; [reflexivity|]. split; [reflexivity|]. split; [reflexivity|]. split.
  - apply (Hq [] goLanguage "(q)" demoJobs 0). discriminate.
  - apply (Hempty [0; 1]%nat (QueryOptions.mk "(q)" "go" "empty" "" 8 0) goLanguage "(q)");
      [discriminate | reflexivity | reflexivity | reflexivity].
Defined.

(** ** Per-file failures *)

Lemma skipsFailedFiles_ext {T : Type}
    (call call' : list nat -> outcome (list T)) body ok files :
  (forall sched, call' sched = call sched) ->
  skipsFailedFiles call body ok files -> skipsFailedFiles call' body ok files.
Proof.
  intros Hext H sched. destruct (H sched) as (H1 & H2 & sched' & out & H3).
  rewrite Hext. repeat split; [done..|]. exists sched', out. by rewrite Hext.
Qed.

Lemma skipsFailedFiles_References `{W : World}
    (call : list nat -> outcome (list Reference.t)) (call' : list nat -> outcome RefsResult.t)
    (symbolName : string) body ok files :
  (forall sched, call' sched = mapOutcome (RefsResult.mk symbolName) (call sched)) ->
  skipsFailedFiles call body ok files ->
  skipsFailedFiles (fun sched => mapOutcome RefsResult.References (call' sched)) body ok files.
Proof.
  intros Hext. apply skipsFailedFiles_ext. intros sched. rewrite Hext.
  by destruct (call sched).
Qed.

(** C3, as stated, at a directory that holds [a.go] and [broken.go]:
    the source of [broken.go] is read but does not parse as Go - it
    leaves a brace open - and yet the file is not skipped: the engine is
    run on whatever tree the parser gives, its matches are sent, and the
    result of [Query] holds four matches where the files that parse give
    two. *)
Lemma unparsed_file_not_skipped :
  ReadFile "/r/broken.go" = Ok "Baz {" /\
  parses unbalanced (FileJob.mk "/r/broken.go" "broken.go") = false /\
  queryWorker goLanguage "(q)" (FileJob.mk "/r/broken.go" "broken.go") <> [] /\
  ~ skipsFailedFiles
      (fun sched => (Query sched (QueryOptions.mk "(q)" "" "broken" "" 0 0)).1)
      (queryWorker goLanguage "(q)") (parses unbalanced) brokenJobs.
Proof.
  split; [reflexivity|]. split; [reflexivity|]. split; [vm_compute; discriminate|].
  intros Hskip.
  destruct (Hskip [0; 1; 0; 1; 0; 1; 0; 1; 0; 1]%nat) as (_ & Hout & _).
  assert (Hret : exists out,
            (Query [0; 1; 0; 1; 0; 1; 0; 1; 0; 1]%nat
               (QueryOptions.mk "(q)" "" "broken" "" 0 0)).1 = Return out /\
            length out = 4%nat)
    by (eexists; split; vm_compute; reflexivity).
  destruct Hret as (out & Hret & Hlen).
  apply Hout, Permutation_length in Hret. rewrite Hlen in Hret.
  vm_compute in Hret. discriminate.
Qed.

(** C3, amended: in [Query], [Symbols] and [Refs], a file that cannot
    be read makes its worker send nothing, while a file that is read is
    parsed and queried whatever its content - the code has no path for
    a parse that fails - and makes the worker send what the engine
    matches in its tree; and however the workers are scheduled, the
    call never ends in an error, can always run on to its return, and
    returns, in some order, exactly the results of the files that could
    be read.  This holds of the three worker pools and of the three
    aggregators once the configuration is valid and the file set is
    resolved. *)
Theorem file_errors_skipped `{W : World} :
  (forall language q job,
     readable job = false ->
     queryWorker language q job = [] /\
     (forall visibility includeSource maxSourceLines,
        symbolsWorker language q visibility includeSource maxSourceLines job = []) /\
     (forall symbolName includeContext,
        refsWorker language q symbolName includeContext job = [])) /\
  (forall language q job source,
     ReadFile (FileJob.AbsPath job) = Ok source ->
     let matches := run q (parse language source) source (FileJob.DisplayPath job) in
     queryWorker language q job = matches /\
     (forall visibility includeSource maxSourceLines,
        symbolsWorker language q visibility includeSource maxSourceLines job
        = match extractSymbols Fields matches source visibility includeSource maxSourceLines with
          | [] => []
          | symbols => [SymbolsResult.mk (FileJob.DisplayPath job) symbols]
          end) /\
     (forall symbolName includeContext,
        findReferences TrimSpace matches source symbolName includeContext
        = Some (refsWorker language q symbolName includeContext job))) /\
  (forall language q files jobs,
     skipsFailedFiles (fun sched => (runQueryWorkers sched language q files jobs).1)
       (queryWorker language q) readable files) /\
  (forall language q files jobs visibility includeSource maxSourceLines,
     skipsFailedFiles
       (fun sched => (runSymbolsWorkers sched language q files jobs visibility includeSource
                        maxSourceLines).1)
       (symbolsWorker language q visibility includeSource maxSourceLines)
       readable files) /\
  (forall language q files jobs symbolName includeContext,
     skipsFailedFiles
       (fun sched => (runRefsWorkers sched language q files jobs symbolName includeContext).1)
       (refsWorker language q symbolName includeContext) readable files) /\
  (forall opts language q files,
     QueryOptions.Query opts <> "" ->
     selected (QueryOptions.Language opts) = Some language ->
     newQuery (QueryOptions.Query opts) language = Ok q ->
     (resolveFiles language (QueryOptions.File opts) (orDefault (QueryOptions.Path opts) ".")
        (orDefaultZ (QueryOptions.MaxBytes opts) defaultMaxBytes)).1 = Return files ->
     skipsFailedFiles (fun sched => (Query sched opts).1)
       (queryWorker language q) readable files) /\
  (forall opts language q files,
     selected (SymbolsOptions.Language opts) = Some language ->
     newQuery (Language.SymbolsQuery language) language = Ok q ->
     (resolveFiles language (SymbolsOptions.File opts) (orDefault (SymbolsOptions.Path opts) ".")
        (orDefaultZ (SymbolsOptions.MaxBytes opts) defaultMaxBytes)).1 = Return files ->
     skipsFailedFiles (fun sched => (Symbols sched opts).1)
       (symbolsWorker language q (orDefault (SymbolsOptions.Visibility opts) "all")
          (SymbolsOptions.IncludeSource opts)
          (orDefaultZ (SymbolsOptions.MaxSourceLines opts) 10))
       readable files) /\
  (forall opts language q files,
     RefsOptions.Symbol opts <> "" ->
     selected (RefsOptions.Language opts) = Some language ->
     newQuery (Language.RefsQuery language) language = Ok q ->
     (resolveFiles language (RefsOptions.File opts) (orDefault (RefsOptions.Path opts) ".")
        (orDefaultZ (RefsOptions.MaxBytes opts) defaultMaxBytes)).1 = Return files ->
     skipsFailedFiles (fun sched => mapOutcome RefsResult.References (Refs sched opts).1)
       (refsWorker language q (RefsOptions.Symbol opts) (RefsOptions.IncludeContext opts))
       readable files).
Proof.
  split.
  { intros language q job Hjob. split; [by apply queryWorker_unreadable|].
    split; intros; [by apply symbolsWorker_unreadable | by apply refsWorker_unreadable]. }
  split.
  { intros language q job source Hread matches.
    unfold queryWorker, symbolsWorker, refsWorker, parseFile. rewrite Hread. fold matches.
    split; [done|]. split.
    - intros visibility includeSource maxSourceLines. by destruct (extractSymbols _ _ _ _ _ _).
    - intros symbolName includeContext.
      by destruct (findReferences_total TrimSpace matches source symbolName includeContext)
        as [refs ->]. }
  split. { intros. apply runPool_skips. intros job. apply queryWorker_unreadable. }
  split. { intros. apply runPool_skips. intros job. apply symbolsWorker_unreadable. }
  split. { intros. apply runPool_skips. intros job. apply refsWorker_unreadable. }
  split; [|split].
  - intros opts language q files Hq Hl Hc Hfiles.
    eapply skipsFailedFiles_ext;
      [|apply (runPool_skips (queryWorker language q) readable files
                 (orDefaultZ (QueryOptions.Jobs opts) NumCPU));
        intros job; apply queryWorker_unreadable].
    intros sched. rewrite (Query_valid _ _ _ _ Hq Hl Hc).
    by apply dispatch_outcome.
  - intros opts language q files Hl Hc Hfiles.
    eapply skipsFailedFiles_ext;
      [|apply (runPool_skips (symbolsWorker language q _ _ _) readable files
                 (orDefaultZ (SymbolsOptions.Jobs opts) NumCPU));
        intros job; apply symbolsWorker_unreadable].
    intros sched. rewrite (Symbols_valid _ _ _ _ Hl Hc).
    by apply dispatch_outcome.
  - intros opts language q files Hs Hl Hc Hfiles.
    eapply (skipsFailedFiles_References _ _ (RefsOptions.Symbol opts));
      [|apply (runPool_skips (refsWorker language q _ _) readable files
                 (orDefaultZ (RefsOptions.Jobs opts) NumCPU));
        intros job; apply refsWorker_unreadable].
    intros sched. rewrite (Refs_valid _ _ _ _ Hs Hl Hc), (bind_Return _ _ _ Hfiles).
    cbn [fst]. destruct files as [|job files].
    + by rewrite runPool_empty.
    + change ((length (job :: files) =? 0)%nat) with false. cbv iota.
      unfold runRefsWorkers.
      by destruct (runPool (refsWorker _ _ _ _) sched _ _) as [[refs|msg|] log].
Qed.

Lemma file_errors_skipped_witness :
  readable (FileJob.mk "/r/missing.go" "missing.go") = false /\
  exists out,
    (Query [0; 1; 2; 0; 1; 2; 0; 1; 2; 0; 1; 2; 0; 1; 2]%nat
       (QueryOptions.mk "(q)" "" "" "" 0 0)).1
    = Return out /\
    out ≡ₚ queryWorker goLanguage "(q)" (FileJob.mk "/r/a.go" "a.go")
           ++ queryWorker goLanguage "(q)" (FileJob.mk "/r/b.go" "b.go").
Proof.
  split; [reflexivity|].
  destruct (@file_errors_skipped demoWorld) as (_ & _ & _ & _ & _ & Hquery & _).
  destruct (Hquery (QueryOptions.mk "(q)" "" "" "" 0 0) goLanguage "(q)" demoJobs
              ltac:(discriminate) eq_refl eq_refl eq_refl
              [0; 1; 2; 0; 1; 2; 0; 1; 2; 0; 1; 2; 0; 1; 2]%nat) as (_ & Hout & _).
  eexists. split; [reflexivity|].
  rewrite (Hout _ eq_refl). reflexivity.
Defined.

(** ** Configuration errors *)

(** C6: [Query] with an empty query string, [Refs] with an empty symbol,
    and each of [Query], [Symbols], [Outline] and [Refs] with a language
    the registry does not hold, return an error and no result, with an
    empty log of effects: no path was resolved, no directory walked, no
    worker started and no file read or parsed. *)
Theorem config_errors_first `{W : World} :
  (forall sched opts,
     QueryOptions.Query opts = "" ->
     Query sched opts = (Error "query is required", [])) /\
  (forall sched opts,
     RefsOptions.Symbol opts = "" ->
     Refs sched opts = (Error "symbol is required", [])) /\
  (forall sched opts,
     selected (QueryOptions.Language opts) = None ->
     exists msg, Query sched opts = (Error msg, [])) /\
  (forall sched opts,
     selected (SymbolsOptions.Language opts) = None ->
     exists msg, Symbols sched opts = (Error msg, [])) /\
  (forall opts,
     selected (OutlineOptions.Language opts) = None ->
     exists msg, Outline opts = (Error msg, [])) /\
  (forall sched opts,
     selected (RefsOptions.Language opts) = None ->
     exists msg, Refs sched opts = (Error msg, [])).
Proof.
  unfold selected. repeat split.
  - intros sched opts Hq. unfold Query. by rewrite Hq.
  - intros sched opts Hs. unfold Refs. by rewrite Hs.
  - intros sched opts Hl. unfold Query. rewrite Hl.
    destruct (String.eqb _ ""); unfold fail; eauto.
  - intros sched opts Hl. unfold Symbols. rewrite Hl. unfold fail; eauto.
  - intros opts Hl. unfold Outline. rewrite Hl.
    destruct (String.eqb _ ""); unfold fail; eauto.
  - intros sched opts Hl. unfold Refs. rewrite Hl.
    destruct (String.eqb _ ""); unfold fail; eauto.
Qed.

Lemma config_errors_first_witness :
  Query [0]%nat (QueryOptions.mk "" "go" "." "" 1 0) = (Error "query is required", []) /\
  Refs [0]%nat (RefsOptions.mk "" "go" "." "" false 1 0) = (Error "symbol is required", []) /\
  exists msg, Symbols [0]%nat (SymbolsOptions.mk "rust" "." "" "" false 0 1 0) = (Error msg, []).
Proof.
  destruct (@config_errors_first demoWorld) as (Hq & Hr & _ & Hs & _).
  split; [|split].
  - apply Hq. reflexivity.
  - apply Hr. reflexivity.
  - apply Hs. reflexivity.
Defined.

(** ** Defaults *)





Section Defaults.

Context `{W : World}.




End Defaults.



(** * Further properties of the classifier *)

Lemma string_prefix_nil (s : string) : String.prefix "" s = true.
Proof. by destruct s. Qed.

Section SymbolFacts.

Variable Fields : string -> list string.

(** [withName] touches the name and the range only. *)
Lemma withName_others (captures : gmap string CaptureResult.t) (sym : Symbol.t) :
  Symbol.Kind (withName captures sym) = Symbol.Kind sym /\
  Symbol.Visibility (withName captures sym) = Symbol.Visibility sym /\
  Symbol.File (withName captures sym) = Symbol.File sym /\
  Symbol.Signature (withName captures sym) = Symbol.Signature sym /\
  Symbol.Source (withName captures sym) = Symbol.Source sym /\
  Symbol.Receiver (withName captures sym) = Symbol.Receiver sym /\
  Symbol.Doc (withName captures sym) = Symbol.Doc sym.
Proof. unfold withName. by destruct (captures !! "name"). Qed.

(** What [classify] leaves in each field. *)
Lemma classify_fields (captures : gmap string CaptureResult.t) (sym0 : Symbol.t) :
  classify Fields captures = Some sym0 ->
  Symbol.Doc sym0 = "" /\ Symbol.Source sym0 = "" /\
  (Symbol.Kind sym0 = "const" \/ Symbol.Kind sym0 = "var" \/ Symbol.Kind sym0 = "function" \/
   Symbol.Kind sym0 = "method" \/ Symbol.Kind sym0 = "struct" \/
   Symbol.Kind sym0 = "interface" \/ Symbol.Kind sym0 = "type") /\
  (Symbol.Kind sym0 = "function" \/ Symbol.Kind sym0 = "method" ->
   Symbol.Signature sym0 = buildFuncSignature captures) /\
  (Symbol.Kind sym0 <> "function" -> Symbol.Kind sym0 <> "method" ->
   Symbol.Signature sym0 = "") /\
  (Symbol.Kind sym0 <> "method" -> Symbol.Receiver sym0 = "").
Proof.
  unfold classify, withName.
  destruct (has captures "const").
  { intros [= <-]. destruct (captures !! "name"); simpl; intuition (eauto 10; congruence). }
  destruct (has captures "var").
  { intros [= <-]. destruct (captures !! "name"); simpl; intuition (eauto 10; congruence). }
  destruct (has captures "function").
  { intros [= <-]. destruct (captures !! "name"); simpl; intuition (eauto 10; congruence). }
  destruct (has captures "method").
  { intros [= <-]. destruct (captures !! "name"), (captures !! "receiver"); simpl;
      intuition (eauto 10; congruence). }
  destruct (captures !! "type"); [|done]. intros [= <-].
  destruct (captures !! "type_def") as [typeSpec|];
    [destruct (strings.HasPrefix _ "struct"); [|destruct (strings.HasPrefix _ "interface")]|];
    destruct (captures !! "name"); simpl; intuition (eauto 10; congruence).
Qed.

(** What [parseSymbolFromMatch] does to the symbol [classify] built. *)
Lemma parseSymbolFromMatch_fields
    (match_ : QueryMatch.t) (source : string) (includeSource : bool) (maxSourceLines : Z)
    (sym : Symbol.t) :
  parseSymbolFromMatch Fields match_ source includeSource maxSourceLines = Some sym ->
  exists sym0,
    classify Fields (captureMap (QueryMatch.Captures match_)) = Some sym0 /\
    Symbol.Name sym = Symbol.Name sym0 /\ Symbol.Kind sym = Symbol.Kind sym0 /\
    Symbol.Signature sym = Symbol.Signature sym0 /\
    Symbol.Receiver sym = Symbol.Receiver sym0 /\ Symbol.Doc sym = Symbol.Doc sym0 /\
    Symbol.File sym = QueryMatch.File match_ /\
    Symbol.Visibility sym = getVisibility (Symbol.Name sym) /\
    match (if includeSource then List.find isOutermost (QueryMatch.Captures match_)
           else None) with
    | Some c =>
        Symbol.Source sym = truncateSource (CaptureResult.Text c) maxSourceLines /\
        Symbol.Range sym = CaptureResult.Range c
    | None => Symbol.Source sym = Symbol.Source sym0 /\ Symbol.Range sym = Symbol.Range sym0
    end.
Proof.
  unfold parseSymbolFromMatch.
  destruct (classify Fields _) as [sym0|]; [|done].
  destruct (String.eqb (Symbol.Name sym0) ""); [done|].
  intros [= <-]. exists sym0.
  destruct includeSource; [destruct (List.find _ _)|]; simpl; done.
Qed.

(** A symbol in the result of [extractSymbols] comes from one of the
    matches, and passed the filter. *)
Lemma extractSymbols_elem
    (matches : list QueryMatch.t) (source visibility : string) (includeSource : bool)
    (maxSourceLines : Z) (sym : Symbol.t) :
  sym ∈ extractSymbols Fields matches source visibility includeSource maxSourceLines <->
  exists match_,
    match_ ∈ matches /\
    parseSymbolFromMatch Fields match_ source includeSource maxSourceLines = Some sym /\
    passesFilter visibility sym = true.
Proof.
  rewrite extractSymbols_flat_map, list_elem_of_In, in_flat_map. unfold keptSymbols.
  split.
  - intros (m & Hm & Hin). exists m. rewrite list_elem_of_In. split; [done|].
    destruct (parseSymbolFromMatch _ _ _ _ _) as [sym'|]; [|by destruct Hin].
    destruct (passesFilter visibility sym') eqn:Hp; [|by destruct Hin].
    by destruct Hin as [<-|[]].
  - intros (m & Hm & Hp & Hf). exists m. rewrite <- list_elem_of_In. split; [done|].
    rewrite Hp, Hf. by left.
Qed.

End SymbolFacts.

(** X1: every symbol [extractSymbols] returns has one of the seven kinds
    const, var, function, method, struct, interface, type; its
    visibility is [getVisibility] of its name, hence public or private;
    its file is the file of one of the matches; and its doc comment is
    empty: the extraction never fills [Doc]. *)
Theorem extractSymbols_wellformed
    (Fields : string -> list string) (matches : list QueryMatch.t) (source visibility : string)
    (includeSource : bool) (maxSourceLines : Z) :
  Forall (fun sym =>
            (Symbol.Kind sym = "const" \/ Symbol.Kind sym = "var" \/
             Symbol.Kind sym = "function" \/ Symbol.Kind sym = "method" \/
             Symbol.Kind sym = "struct" \/ Symbol.Kind sym = "interface" \/
             Symbol.Kind sym = "type") /\
            Symbol.Visibility sym = getVisibility (Symbol.Name sym) /\
            (Symbol.Visibility sym = "public" \/ Symbol.Visibility sym = "private") /\
            (exists match_, match_ ∈ matches /\ Symbol.File sym = QueryMatch.File match_) /\
            Symbol.Doc sym = "")
         (extractSymbols Fields matches source visibility includeSource maxSourceLines).
Proof.
  apply Forall_forall. intros sym (m & Hm & Hp & _)%extractSymbols_elem.
  apply parseSymbolFromMatch_fields in Hp
    as (sym0 & Hc & _ & HK & _ & _ & HD & HF & HV & _).
  apply classify_fields in Hc as (Hdoc & _ & Hkind & _).
  rewrite HK, HD, HV. repeat split; [done| |by eauto|done].
  apply getVisibility_total.
Qed.

(** X2: a symbol [extractSymbols] returns has a signature exactly when it
    is a function or a method, and the signature then begins with [func];
    a non-empty receiver occurs on methods only. *)
Theorem extractSymbols_signature_receiver
    (Fields : string -> list string) (matches : list QueryMatch.t) (source visibility : string)
    (includeSource : bool) (maxSourceLines : Z) :
  Forall (fun sym =>
            (Symbol.Kind sym = "function" \/ Symbol.Kind sym = "method" ->
             strings.HasPrefix (Symbol.Signature sym) "func" = true) /\
            (Symbol.Kind sym <> "function" -> Symbol.Kind sym <> "method" ->
             Symbol.Signature sym = "") /\
            (Symbol.Receiver sym <> "" -> Symbol.Kind sym = "method"))
         (extractSymbols Fields matches source visibility includeSource maxSourceLines).
Proof.
  apply Forall_forall. intros sym (m & Hm & Hp & _)%extractSymbols_elem.
  apply parseSymbolFromMatch_fields in Hp
    as (sym0 & Hc & _ & HK & HS & HR & _).
  apply classify_fields in Hc as (_ & _ & _ & Hsig & Hnosig & Hrecv).
  rewrite HK, HS, HR. split; [|split; [done|]].
  - intros Hfm. rewrite (Hsig Hfm). unfold buildFuncSignature.
    destruct (_ !! "receiver"), (_ !! "name"), (_ !! "params"), (_ !! "result");
      autorewrite with strings; unfold strings.HasPrefix; cbn;
      first [reflexivity | apply string_prefix_nil].
  - intros Hne. destruct (decide (Symbol.Kind sym0 = "method")) as [|Hk]; [done|].
    by destruct (Hne (Hrecv Hk)).
Qed.

Lemma extractSymbols_signature_receiver_witness :
  exists sym,
    extractSymbols asciiFields [helloMatch] "" "all" false 0 = [sym] /\
    strings.HasPrefix (Symbol.Signature sym) "func" = true.
Proof.
  pose proof (extractSymbols_signature_receiver asciiFields [helloMatch] "" "all" false 0) as H.
  destruct (extractSymbols asciiFields [helloMatch] "" "all" false 0) as [|sym [|sym' l]] eqn:E;
    [vm_compute in E; discriminate | | vm_compute in E; discriminate].
  exists sym. split; [reflexivity|].
  apply Forall_cons in H as [(Hsig & _) _]. apply Hsig. left.
  vm_compute in E. injection E as <-. reflexivity.
Defined.

(** ** The visibility filter *)

Lemma keptSymbols_filter
    (Fields : string -> list string) (source visibility : string) (includeSource : bool)
    (maxSourceLines : Z) (match_ : QueryMatch.t) :
  keptSymbols Fields source visibility includeSource maxSourceLines match_
  = List.filter (passesFilter visibility)
      (keptSymbols Fields source "all" includeSource maxSourceLines match_).
Proof.
  unfold keptSymbols. destruct (parseSymbolFromMatch _ _ _ _ _) as [sym|]; [|done].
  change (passesFilter "all" sym) with true. simpl. by destruct (passesFilter visibility sym).
Qed.

Lemma extractSymbols_filter
    (Fields : string -> list string) (matches : list QueryMatch.t) (source visibility : string)
    (includeSource : bool) (maxSourceLines : Z) :
  extractSymbols Fields matches source visibility includeSource maxSourceLines
  = List.filter (passesFilter visibility)
      (extractSymbols Fields matches source "all" includeSource maxSourceLines).
Proof.
  rewrite !extractSymbols_flat_map.
  induction matches as [|m ms IH]; simpl; [done|].
  by rewrite List.filter_app, <- IH, <- keptSymbols_filter.
Qed.

Lemma filter_ext_Forall {A : Type} (P Q : A -> Prop)
    `{!forall x, Decision (P x)} `{!forall x, Decision (Q x)} (l : list A) :
  Forall (fun x => P x <-> Q x) l -> filter P l = filter Q l.
Proof.
  induction 1 as [|x l Hx _ IH]; [done|].
  rewrite !filter_cons, IH. destruct (decide (P x)), (decide (Q x)); tauto.
Qed.

(** X3: the visibility filter selects from the unfiltered result, in
    order: [public] keeps the symbols whose visibility is public,
    [private] those whose visibility is private, and the two together
    make up the unfiltered result.  Any other filter value - [all], the
    empty string, a misspelt one - filters nothing. *)
Theorem extractSymbols_visibility_filter
    (Fields : string -> list string) (matches : list QueryMatch.t) (source : string)
    (includeSource : bool) (maxSourceLines : Z) :
  let all := extractSymbols Fields matches source "all" includeSource maxSourceLines in
  let public := extractSymbols Fields matches source "public" includeSource maxSourceLines in
  let private := extractSymbols Fields matches source "private" includeSource maxSourceLines in
  public = filter (fun sym => Symbol.Visibility sym = "public") all /\
  private = filter (fun sym => Symbol.Visibility sym = "private") all /\
  public ++ private ≡ₚ all /\
  forall visibility,
    visibility <> "public" -> visibility <> "private" ->
    extractSymbols Fields matches source visibility includeSource maxSourceLines = all.
Proof.
  intros all public private.
  assert (Hfilter : forall v (l : list Symbol.t),
            List.filter (fun sym => String.eqb (Symbol.Visibility sym) v) l
            = filter (fun sym => Symbol.Visibility sym = v) l).
  { intros v l. induction l as [|sym l IH]; simpl; [done|].
    rewrite filter_cons, <- IH.
    destruct (String.eqb_spec (Symbol.Visibility sym) v); by case_decide. }
  assert (Hpub : public = filter (fun sym => Symbol.Visibility sym = "public") all).
  { unfold public. by rewrite extractSymbols_filter, <- Hfilter. }
  assert (Hpriv : private = filter (fun sym => Symbol.Visibility sym = "private") all).
  { unfold private. by rewrite extractSymbols_filter, <- Hfilter. }
  split; [done|]. split; [done|]. split.
  - rewrite Hpub, Hpriv.
    rewrite <- (filter_app_complement (fun sym => Symbol.Visibility sym = "public") all) at 3.
    f_equiv.
    enough (filter (fun sym => Symbol.Visibility sym = "private") all
            = filter (fun sym => Symbol.Visibility sym <> "public") all) as -> by done.
    apply filter_ext_Forall, Forall_forall.
    intros sym (m & _ & Hp & _)%extractSymbols_elem.
    apply parseSymbolFromMatch_fields in Hp as (_ & _ & _ & _ & _ & _ & _ & _ & -> & _).
    destruct (getVisibility_total (Symbol.Name sym)) as [-> | ->]; split; congruence.
  - intros visibility Hpub' Hpriv'. rewrite extractSymbols_filter. fold all.
    unfold passesFilter. apply String.eqb_neq in Hpub', Hpriv'. rewrite Hpub', Hpriv'.
    generalize all. intros l. induction l as [|sym l IH]; simpl; [done|]. by rewrite IH.
Qed.

Lemma extractSymbols_visibility_filter_witness :
  extractSymbols asciiFields [helloMatch; constWithType] "" "Public" false 0
  = extractSymbols asciiFields [helloMatch; constWithType] "" "all" false 0.
Proof.
  destruct (extractSymbols_visibility_filter asciiFields [helloMatch; constWithType] "" false 0)
    as (_ & _ & _ & Hother).
  apply Hother; discriminate.
Defined.

(** X4: the result of [extractSymbols] over a list of matches put
    together from two lists is the result over the first followed by the
    result over the second; each match gives at most one symbol, so there
    are never more symbols than matches. *)
Theorem extractSymbols_app
    (Fields : string -> list string) (before after : list QueryMatch.t)
    (source visibility : string) (includeSource : bool) (maxSourceLines : Z) :
  extractSymbols Fields (before ++ after) source visibility includeSource maxSourceLines
  = extractSymbols Fields before source visibility includeSource maxSourceLines
    ++ extractSymbols Fields after source visibility includeSource maxSourceLines /\
  (length (extractSymbols Fields before source visibility includeSource maxSourceLines)
   <= length before)%nat.
Proof.
  rewrite !extractSymbols_flat_map, flat_map_app. split; [done|].
  induction before as [|m ms IH]; simpl; [done|].
  rewrite length_app. unfold keptSymbols at 1.
  destruct (parseSymbolFromMatch _ _ _ _ _) as [sym|]; [|simpl; lia].
  destruct (passesFilter visibility sym); simpl; lia.
Qed.

(** ** The capture map *)

(** X5: looking a name up in the capture map of a match gives the last
    capture of that name in the match, and nothing when the match has no
    capture of that name. *)
Theorem captureMap_last_wins (cs : list CaptureResult.t) (name : string) :
  captureMap cs !! name = last (filter (fun c => CaptureResult.Name c = name) cs).
Proof.
  induction cs as [|c cs IH] using rev_ind; [done|].
  rewrite captureMap_snoc, lookup_insert, filter_app, filter_cons, filter_nil.
  case_decide as Hname.
  - by rewrite last_snoc.
  - by rewrite app_nil_r.
Qed.

(** ** Kinds of type declarations *)

Lemma HasPrefix_interface_not_struct (s : string) :
  strings.HasPrefix s "interface" = true -> strings.HasPrefix s "struct" = false.
Proof.
  unfold strings.HasPrefix. intros H%String.prefix_correct.
  destruct s as [|c s]; [discriminate H|]. simpl in H. injection H as -> _. reflexivity.
Qed.

(** X6: among the symbols [parseSymbolFromMatch] produces, the structs
    are exactly those of matches without a const, var, function or
    method capture whose [type_def] capture has a node type beginning
    with [struct]; the interfaces are those where it begins with
    [interface]. *)
Theorem struct_interface_kinds
    (Fields : string -> list string) (match_ : QueryMatch.t) (source : string)
    (includeSource : bool) (maxSourceLines : Z) (sym : Symbol.t) :
  parseSymbolFromMatch Fields match_ source includeSource maxSourceLines = Some sym ->
  let typeDeclaration (keyword : string) :=
    ~ captured match_ "const" /\ ~ captured match_ "var" /\
    ~ captured match_ "function" /\ ~ captured match_ "method" /\
    exists typeSpec,
      captureMap (QueryMatch.Captures match_) !! "type_def" = Some typeSpec /\
      strings.HasPrefix (CaptureResult.NodeType typeSpec) keyword = true in
  (Symbol.Kind sym = "struct" <-> typeDeclaration "struct") /\
  (Symbol.Kind sym = "interface" <-> typeDeclaration "interface").
Proof.
  intros Hp typeDeclaration. subst typeDeclaration. cbv beta.
  apply parseSymbolFromMatch_inv in Hp as (sym0 & Hc & -> & _).
  rewrite <- !has_not_captured. revert Hc. unfold classify.
  set (captures := captureMap (QueryMatch.Captures match_)).
  destruct (has captures "const").
  { intros [= <-]. rewrite withName_Kind. simpl. split; (split; [done|]); by intros (? & _). }
  destruct (has captures "var").
  { intros [= <-]. rewrite withName_Kind. simpl.
    split; (split; [done|]); by intros (_ & ? & _). }
  destruct (has captures "function").
  { intros [= <-]. simpl. rewrite withName_Kind. simpl.
    split; (split; [done|]); by intros (_ & _ & ? & _). }
  destruct (has captures "method").
  { intros [= <-]. simpl. destruct (captures !! "receiver"); simpl; rewrite withName_Kind;
      simpl; split; (split; [done|]); by intros (_ & _ & _ & ? & _). }
  destruct (captures !! "type"); [|done]. intros [= <-]. simpl. rewrite withName_Kind. simpl.
  destruct (captures !! "type_def") as [typeSpec|].
  - destruct (strings.HasPrefix (CaptureResult.NodeType typeSpec) "struct") eqn:Hs.
    + split.
      * split; [intros _; repeat split; try done; by exists typeSpec | done].
      * split; [done|]. intros (_ & _ & _ & _ & ts & [= <-] & Hi).
        apply HasPrefix_interface_not_struct in Hi. congruence.
    + destruct (strings.HasPrefix (CaptureResult.NodeType typeSpec) "interface") eqn:Hi.
      * split.
        -- split; [done|]. intros (_ & _ & _ & _ & ts & [= <-] & Hs'). congruence.
        -- split; [intros _; repeat split; try done; by exists typeSpec | done].
      * split; (split; [done|]); intros (_ & _ & _ & _ & ts & [= <-] & ?); congruence.
  - split; (split; [done|]); by intros (_ & _ & _ & _ & ts & [=] & _).
Qed.

Lemma struct_interface_kinds_witness :
  exists sym,
    parseSymbolFromMatch asciiFields structMatch "" false 0 = Some sym /\
    Symbol.Kind sym = "struct".
Proof.
  eexists. split; [reflexivity|].
  apply (struct_interface_kinds asciiFields structMatch "" false 0 _ eq_refl).
  repeat split; try (apply has_not_captured; reflexivity).
  eexists. split; reflexivity.
Defined.

(** ** Source snippets and ranges *)

Lemma classify_Range
    (Fields : string -> list string) (captures : gmap string CaptureResult.t)
    (sym0 : Symbol.t) :
  classify Fields captures = Some sym0 ->
  Symbol.Name sym0 <> "" ->
  (Symbol.Kind sym0 = "const" \/ Symbol.Kind sym0 = "var" \/
   Symbol.Kind sym0 = "function" \/ Symbol.Kind sym0 = "method" ->
   exists name, captures !! "name" = Some name /\
                Symbol.Range sym0 = CaptureResult.Range name) /\
  (Symbol.Kind sym0 = "struct" \/ Symbol.Kind sym0 = "interface" \/
   Symbol.Kind sym0 = "type" ->
   exists typeDef, captures !! "type" = Some typeDef /\
                   Symbol.Range sym0 = CaptureResult.Range typeDef).
Proof.
  unfold classify, withName.
  destruct (has captures "const").
  { intros [= <-]. destruct (captures !! "name"); simpl; intuition (eauto; congruence). }
  destruct (has captures "var").
  { intros [= <-]. destruct (captures !! "name"); simpl; intuition (eauto; congruence). }
  destruct (has captures "function").
  { intros [= <-]. destruct (captures !! "name"); simpl; intuition (eauto; congruence). }
  destruct (has captures "method").
  { intros [= <-]. destruct (captures !! "name"), (captures !! "receiver"); simpl;
      intuition (eauto; congruence). }
  destruct (captures !! "type") as [typeDef|]; [|done]. intros [= <-].
  destruct (captures !! "type_def") as [typeSpec|];
    [destruct (strings.HasPrefix _ "struct"); [|destruct (strings.HasPrefix _ "interface")]|];
    destruct (captures !! "name"); simpl; intuition (eauto; congruence).
Qed.

(** A match that classifies carries a capture the snippet can be taken from. *)
Lemma classify_outermost
    (Fields : string -> list string) (match_ : QueryMatch.t) (sym0 : Symbol.t) :
  classify Fields (captureMap (QueryMatch.Captures match_)) = Some sym0 ->
  exists c, List.find isOutermost (QueryMatch.Captures match_) = Some c.
Proof.
  intros Hc.
  assert (Hcap : exists n, captured match_ n /\
                           (n = "const" \/ n = "var" \/ n = "function" \/ n = "method"
                            \/ n = "type")).
  { pose proof (classify_Kind Fields (captureMap (QueryMatch.Captures match_))) as HK.
    rewrite Hc in HK.
    destruct (has _ "const") eqn:H1; [exists "const"; rewrite <- has_captured; auto|].
    destruct (has _ "var") eqn:H2; [exists "var"; rewrite <- has_captured; auto|].
    destruct (has _ "function") eqn:H3; [exists "function"; rewrite <- has_captured; auto|].
    destruct (has _ "method") eqn:H4; [exists "method"; rewrite <- has_captured; auto 6|].
    destruct HK as [H5 _]. exists "type". rewrite <- has_captured. auto 6. }
  destruct Hcap as (n & (c & Hin & Hname) & Hn).
  destruct (List.find isOutermost (QueryMatch.Captures match_)) as [c'|] eqn:Hfind; [eauto|].
  apply list_elem_of_In in Hin.
  pose proof (List.find_none _ _ Hfind c Hin) as Hno.
  unfold isOutermost in Hno. rewrite Hname in Hno.
  destruct Hn as [-> | [-> | [-> | [-> | ->]]]]; discriminate Hno.
Qed.

(** X7: without the include-source flag a symbol has no source snippet,
    and its range is that of the [name] capture for constants,
    variables, functions and methods, and that of the [type] capture for
    structs, interfaces and other types.  With the flag, snippet and
    range both come from the first capture of the match, in capture
    order, that is named function, method, type, const or var - there
    always is one - the snippet being its text cut by [truncateSource]. *)
Theorem symbol_source_and_range
    (Fields : string -> list string) (match_ : QueryMatch.t) (source : string)
    (maxSourceLines : Z) (sym : Symbol.t) :
  let captures := captureMap (QueryMatch.Captures match_) in
  (parseSymbolFromMatch Fields match_ source false maxSourceLines = Some sym ->
   Symbol.Source sym = "" /\
   (Symbol.Kind sym = "const" \/ Symbol.Kind sym = "var" \/
    Symbol.Kind sym = "function" \/ Symbol.Kind sym = "method" ->
    exists name, captures !! "name" = Some name /\
                 Symbol.Range sym = CaptureResult.Range name) /\
   (Symbol.Kind sym = "struct" \/ Symbol.Kind sym = "interface" \/
    Symbol.Kind sym = "type" ->
    exists typeDef, captures !! "type" = Some typeDef /\
                    Symbol.Range sym = CaptureResult.Range typeDef)) /\
  (parseSymbolFromMatch Fields match_ source true maxSourceLines = Some sym ->
   exists c,
     List.find isOutermost (QueryMatch.Captures match_) = Some c /\
     Symbol.Source sym = truncateSource (CaptureResult.Text c) maxSourceLines /\
     Symbol.Range sym = CaptureResult.Range c).
Proof.
  intros captures. split.
  - intros Hp.
    pose proof (parseSymbolFromMatch_inv _ _ _ _ _ _ Hp) as (_ & _ & _ & _ & Hne & _).
    apply parseSymbolFromMatch_fields in Hp
      as (sym0 & Hc & HN & HK & _ & _ & _ & _ & _ & HS & HR).
    rewrite HN in Hne. rewrite HK, HS, HR.
    split; [by apply classify_fields in Hc as (_ & ? & _)|].
    by apply (classify_Range Fields).
  - intros Hp.
    apply parseSymbolFromMatch_fields in Hp
      as (sym0 & Hc & _ & _ & _ & _ & _ & _ & _ & Hsrc).
    destruct (classify_outermost _ _ _ Hc) as [c Hfind]. rewrite Hfind in Hsrc.
    by exists c.
Qed.

Lemma symbol_source_and_range_witness :
  exists sym,
    parseSymbolFromMatch asciiFields constWithType "" true 10 = Some sym /\
    Symbol.Source sym = "const x int = 1" /\ Symbol.Range sym = at_ 1 1.
Proof.
  assert (Hp : exists sym,
             parseSymbolFromMatch asciiFields constWithType "" true 10 = Some sym)
    by (eexists; reflexivity).
  destruct Hp as [sym Hp]. exists sym. split; [exact Hp|].
  destruct (symbol_source_and_range asciiFields constWithType "" 10 sym) as [_ Hwith].
  destruct (Hwith Hp) as (c & Hfind & -> & ->).
  injection Hfind as <-. split; reflexivity.
Defined.

(** ** Truncating source snippets *)

Lemma Split1_nonempty (s : string) (sep : ascii) : strings.Split1 s sep <> [].
Proof.
  destruct s as [|c s]; simpl; [done|].
  destruct (Ascii.eqb c sep); [done|]. by destruct (strings.Split1 s sep).
Qed.

Lemma Join_cons_head (c : ascii) (piece : string) (pieces : list string) (sep : string) :
  strings.Join (String c piece :: pieces) sep = String c (strings.Join (piece :: pieces) sep).
Proof. by destruct pieces. Qed.

(** Joining the pieces of a split with the separator gives the string back. *)
Lemma Join_Split1 (s : string) (sep : ascii) :
  strings.Join (strings.Split1 s sep) (String sep "") = s.
Proof.
  induction s as [|c s IH]; simpl; [done|].
  destruct (Ascii.eqb_spec c sep) as [->|Hne].
  - destruct (strings.Split1 s sep) as [|piece pieces] eqn:E;
      [by destruct (Split1_nonempty s sep)|].
    change (strings.Join ("" :: piece :: pieces) (String sep ""))
      with ("" +:+ String sep "" +:+ strings.Join (piece :: pieces) (String sep "")).
    by rewrite IH.
  - destruct (strings.Split1 s sep) as [|piece pieces] eqn:E;
      [by destruct (Split1_nonempty s sep)|].
    by rewrite Join_cons_head, IH.
Qed.

(** Splitting distributes over a separator. *)
Lemma Split1_app_sep (a b : string) (sep : ascii) :
  strings.Split1 (a +:+ String sep b) sep = strings.Split1 a sep ++ strings.Split1 b sep.
Proof.
  induction a as [|c a IH].
  - simpl. by rewrite Ascii.eqb_refl.
  - rewrite string_app_cons. simpl. rewrite IH.
    destruct (Ascii.eqb c sep); [done|].
    pose proof (Split1_nonempty a sep). by destruct (strings.Split1 a sep).
Qed.

(** The pieces of a split hold no separator: each is its own split. *)
Lemma Split1_pieces (s : string) (sep : ascii) :
  Forall (fun piece => strings.Split1 piece sep = [piece]) (strings.Split1 s sep).
Proof.
  induction s as [|c s IH]; simpl; [by constructor|].
  destruct (Ascii.eqb c sep) eqn:Hc; [by constructor|].
  destruct (strings.Split1 s sep) as [|piece pieces]; [constructor; [|done]|].
  - simpl. by rewrite Hc.
  - apply Forall_cons in IH as [Hp Hps]. constructor; [|done].
    simpl. by rewrite Hc, Hp.
Qed.

Lemma Split1_Join (pieces : list string) (sep : ascii) :
  pieces <> [] ->
  Forall (fun piece => strings.Split1 piece sep = [piece]) pieces ->
  strings.Split1 (strings.Join pieces (String sep "")) sep = pieces.
Proof.
  intros Hne HF. induction HF as [|piece pieces Hp HF IH]; [done|].
  destruct pieces as [|piece' pieces]; [done|].
  change (strings.Join (piece :: piece' :: pieces) (String sep ""))
    with (piece +:+ String sep "" +:+ strings.Join (piece' :: pieces) (String sep "")).
  rewrite string_app_cons, string_app_nil_l, Split1_app_sep, Hp, IH; done.
Qed.

(** The lines of a snippet that is cut. *)
Lemma truncateSource_cut (source : string) (maxLines : Z) :
  0 < maxLines < Z.of_nat (length (strings.Split1 source newline)) ->
  strings.Split1 (truncateSource source maxLines) newline
  = take (Z.to_nat maxLines) (strings.Split1 source newline) ++ ["..."].
Proof.
  intros H. unfold truncateSource.
  replace (maxLines <=? 0) with false by lia.
  replace (Z.of_nat (length (strings.Split1 source newline)) <=? maxLines) with false by lia.
  unfold newline_str. rewrite string_app_cons, string_app_nil_l, Split1_app_sep.
  rewrite Split1_Join; [done| |].
  - intros Hnil. apply (f_equal length) in Hnil. rewrite length_take in Hnil.
    simpl in Hnil. lia.
  - apply Forall_take, Split1_pieces.
Qed.

(** X8: [truncateSource] leaves a snippet alone when the maximum is not
    positive or the snippet has no more lines than the maximum.
    Otherwise the result consists of the first [maxLines] lines of the
    snippet followed by one line holding the marker [...]. *)
Theorem truncateSource_lines (source : string) (maxLines : Z) :
  let lines := strings.Split1 source newline in
  (maxLines <= 0 \/ Z.of_nat (length lines) <= maxLines ->
   truncateSource source maxLines = source) /\
  (0 < maxLines < Z.of_nat (length lines) ->
   strings.Split1 (truncateSource source maxLines) newline
   = take (Z.to_nat maxLines) lines ++ ["..."]).
Proof.
  intros lines. split.
  - unfold truncateSource. fold lines. intros [H|H].
    + by replace (maxLines <=? 0) with true by lia.
    + destruct (maxLines <=? 0); [done|].
      by replace (Z.of_nat (length lines) <=? maxLines) with true by lia.
  - apply truncateSource_cut.
Qed.

Lemma truncateSource_lines_witness :
  strings.Split1 (truncateSource fooSource 2) newline
  = ["package p"; "  var x Foo = Foo(Bar)  "; "..."].
Proof.
  destruct (truncateSource_lines fooSource 2) as [_ H]. rewrite H; [reflexivity|].
  vm_compute. split; reflexivity.
Defined.

(** X9: truncating twice is truncating once: the marker line that
    [truncateSource] appends is cut off and appended again. *)
Theorem truncateSource_idempotent (source : string) (maxLines : Z) :
  truncateSource (truncateSource source maxLines) maxLines = truncateSource source maxLines.
Proof.
  destruct (decide (0 < maxLines < Z.of_nat (length (strings.Split1 source newline))))
    as [Hrange|H].
  - pose proof (truncateSource_cut source maxLines Hrange) as Hcut.
    unfold truncateSource at 1. rewrite Hcut.
    replace (maxLines <=? 0) with false by lia.
    rewrite length_app, length_take. simpl.
    destruct (Z.of_nat _ <=? maxLines) eqn:E; [apply Z.leb_le in E; lia|]. clear E.
    rewrite take_app_le by (rewrite length_take; lia).
    rewrite take_take, Nat.min_id.
    unfold truncateSource.
    replace (maxLines <=? 0) with false by lia.
    by replace (Z.of_nat (length (strings.Split1 source newline)) <=? maxLines)
      with false by lia.
  - assert (Hsame : truncateSource source maxLines = source).
    { unfold truncateSource. destruct (Z.leb_spec maxLines 0); [done|].
      by destruct (Z.leb_spec (Z.of_nat (length (strings.Split1 source newline))) maxLines);
        [|lia]. }
    by rewrite !Hsame.
Qed.

(** * Further properties of reference finding *)

(** X10: each reference [findReferences] returns carries the file of its
    match and the start position of its capture, and one of the five
    kinds call, type_ref, field_access, identifier, reference; there are
    never more references than captures. *)
Theorem findReferences_located
    (TrimSpace : string -> string) (matches : list QueryMatch.t) (source S : string)
    (includeContext : bool) :
  exists refs,
    findReferences TrimSpace matches source S includeContext = Some refs /\
    Forall2 (fun mc ref =>
               Reference.File ref = QueryMatch.File mc.1 /\
               Reference.Position ref = Range.Start (CaptureResult.Range mc.2) /\
               (Reference.Kind ref = "call" \/ Reference.Kind ref = "type_ref" \/
                Reference.Kind ref = "field_access" \/ Reference.Kind ref = "identifier" \/
                Reference.Kind ref = "reference"))
            (withText S (allCaptures matches)) refs /\
    (length refs <= length (allCaptures matches))%nat.
Proof.
  destruct (findReferences_spec TrimSpace matches source S includeContext) as (refs & Hf & HF).
  exists refs. split; [exact Hf|]. split.
  - eapply Forall2_impl; [exact HF|]. intros mc ref Href. cbv beta in Href.
    apply referenceFor_fields in Href as (_ & -> & -> & ->).
    split; [done|]. split; [done|]. unfold referenceKind.
    destruct (String.eqb _ "call"); [auto|].
    destruct (String.eqb _ "type_ref" || String.eqb _ "composite_type"); [auto|].
    destruct (String.eqb _ "field"); [auto|].
    destruct (String.eqb _ "ident" || String.eqb _ "short_var"); auto 6.
  - rewrite <- (Forall2_length _ _ _ HF). unfold withText. apply length_filter.
Qed.

(** X11: without the include-context flag the source text plays no part
    in [findReferences], nor does the white-space trimming, and every
    reference has an empty context. *)
Theorem findReferences_without_context
    (TrimSpace TrimSpace' : string -> string) (matches : list QueryMatch.t)
    (source source' S : string) :
  findReferences TrimSpace matches source S false
  = findReferences TrimSpace' matches source' S false /\
  exists refs,
    findReferences TrimSpace matches source S false = Some refs /\
    Forall (fun ref => Reference.Context ref = "") refs.
Proof.
  split; [reflexivity|].
  destruct (findReferences_spec TrimSpace matches source S false) as (refs & Hf & HF).
  exists refs. split; [exact Hf|].
  clear Hf. induction HF as [|mc ref mcs refs' Href _ IH]; [constructor|].
  constructor; [|exact IH]. by injection Href as <-.
Qed.

(** * The outline *)

Section OutlineFacts.

Variables (file : string) (includeSource : bool) (maxSourceLines : Z).

(** One step of [buildOutline] appends what the match alone gives, and
    replaces the package when the match is a package clause. *)
Lemma outlineStep_outlineOf (o : FileOutline.t) (match_ : QueryMatch.t) :
  outlineStep file includeSource maxSourceLines o match_
  = FileOutline.mk (FileOutline.File o)
      (default (FileOutline.Package o)
         (captureText (captureMap (QueryMatch.Captures match_)) "package"))
      (FileOutline.Imports o
       ++ FileOutline.Imports (outlineOf file includeSource maxSourceLines match_))
      (FileOutline.Symbols o
       ++ FileOutline.Symbols (outlineOf file includeSource maxSourceLines match_)).
Proof.
  unfold outlineOf, outlineStep, captureText, addSymbol.
  set (captures := captureMap (QueryMatch.Captures match_)).
  destruct o as [f pkg imports symbols].
  destruct (captures !! "package"); [simpl; by rewrite !app_nil_r|].
  destruct (captures !! "path"); [simpl; by rewrite !app_nil_r|].
  destruct (has captures "function").
  { destruct (captures !! "function"), (captures !! "func_name"); simpl;
      by rewrite ?app_nil_r. }
  destruct (has captures "method").
  { destruct (captures !! "method"), (captures !! "method_name"); simpl;
      by rewrite ?app_nil_r. }
  destruct (has captures "struct").
  { destruct (captures !! "struct"), (captures !! "type_name"); simpl;
      by rewrite ?app_nil_r. }
  destruct (has captures "interface").
  { destruct (captures !! "interface"), (captures !! "type_name"); simpl;
      by rewrite ?app_nil_r. }
  destruct (firstTypeDecl captures), (captures !! "type_name"),
    (has captures "const"), (captures !! "const"), (captures !! "const_name"),
    (has captures "var"), (captures !! "var"), (captures !! "var_name");
    simpl; rewrite ?app_nil_r, <- ?app_assoc; reflexivity.
Qed.

Lemma buildOutline_fold (o : FileOutline.t) (matches : list QueryMatch.t) :
  let final := foldl (outlineStep file includeSource maxSourceLines) o matches in
  FileOutline.File final = FileOutline.File o /\
  FileOutline.Package final
  = default (FileOutline.Package o) (last (packageClauses matches)) /\
  FileOutline.Imports final
  = FileOutline.Imports o
    ++ flat_map (fun m => FileOutline.Imports (outlineOf file includeSource maxSourceLines m))
         matches /\
  FileOutline.Symbols final
  = FileOutline.Symbols o
    ++ flat_map (fun m => FileOutline.Symbols (outlineOf file includeSource maxSourceLines m))
         matches.
Proof.
  revert o. induction matches as [|m ms IH]; intros o; simpl.
  - by rewrite !app_nil_r.
  - destruct (IH (outlineStep file includeSource maxSourceLines o m)) as (HF & HP & HI & HS).
    rewrite HF, HP, HI, HS, outlineStep_outlineOf. simpl.
    rewrite <- !app_assoc. repeat split.
    unfold packageClauses. simpl.
    destruct (captureText (captureMap (QueryMatch.Captures m)) "package") as [pkg|]; [|done].
    simpl. rewrite last_cons. by destruct (last _).
Qed.

(** The symbols one match adds: what they have in common. *)
Lemma outlineOf_symbols (match_ : QueryMatch.t) :
  Forall (fun sym =>
            Symbol.File sym = file /\
            (Symbol.Kind sym = "function" \/ Symbol.Kind sym = "method" \/
             Symbol.Kind sym = "struct" \/ Symbol.Kind sym = "interface" \/
             Symbol.Kind sym = "type" \/ Symbol.Kind sym = "const" \/
             Symbol.Kind sym = "var") /\
            Symbol.Visibility sym = getVisibility (Symbol.Name sym) /\
            Symbol.Signature sym = "" /\ Symbol.Doc sym = "" /\
            (Symbol.Receiver sym <> "" -> Symbol.Kind sym = "method") /\
            (includeSource = false -> Symbol.Source sym = ""))
         (FileOutline.Symbols (outlineOf file includeSource maxSourceLines match_)).
Proof.
  assert (Hsym : forall kind name decl receiver,
            (kind = "function" \/ kind = "method" \/ kind = "struct" \/ kind = "interface" \/
             kind = "type" \/ kind = "const" \/ kind = "var") ->
            (receiver <> "" -> kind = "method") ->
            let sym := outlineSymbol kind name decl file receiver includeSource
                         maxSourceLines in
            Symbol.File sym = file /\
            (Symbol.Kind sym = "function" \/ Symbol.Kind sym = "method" \/
             Symbol.Kind sym = "struct" \/ Symbol.Kind sym = "interface" \/
             Symbol.Kind sym = "type" \/ Symbol.Kind sym = "const" \/
             Symbol.Kind sym = "var") /\
            Symbol.Visibility sym = getVisibility (Symbol.Name sym) /\
            Symbol.Signature sym = "" /\ Symbol.Doc sym = "" /\
            (Symbol.Receiver sym <> "" -> Symbol.Kind sym = "method") /\
            (includeSource = false -> Symbol.Source sym = "")).
  { intros kind name decl receiver Hk Hr. simpl.
    repeat split; try done; try (by intros ->); auto. }
  assert (Hno : forall kind, ("" : string) <> "" -> kind = "method") by (by intros ? []).
  unfold outlineOf, outlineStep, addSymbol.
  set (captures := captureMap (QueryMatch.Captures match_)).
  destruct (captures !! "package"); [by constructor|].
  destruct (captures !! "path"); [by constructor|].
  destruct (has captures "function").
  { destruct (captures !! "function"), (captures !! "func_name"); simpl;
      repeat (apply List.Forall_cons; [apply Hsym; auto 8|]); apply List.Forall_nil. }
  destruct (has captures "method").
  { destruct (captures !! "method"), (captures !! "method_name"); simpl;
      repeat (apply List.Forall_cons; [apply Hsym; auto 8|]); apply List.Forall_nil. }
  destruct (has captures "struct").
  { destruct (captures !! "struct"), (captures !! "type_name"); simpl;
      repeat (apply List.Forall_cons; [apply Hsym; auto 8|]); apply List.Forall_nil. }
  destruct (has captures "interface").
  { destruct (captures !! "interface"), (captures !! "type_name"); simpl;
      repeat (apply List.Forall_cons; [apply Hsym; auto 8|]); apply List.Forall_nil. }
  destruct (firstTypeDecl captures), (captures !! "type_name"),
    (has captures "const"), (captures !! "const"), (captures !! "const_name"),
    (has captures "var"), (captures !! "var"), (captures !! "var_name");
    simpl; repeat (apply List.Forall_cons; [apply Hsym; auto 8|]); apply List.Forall_nil.
Qed.

End OutlineFacts.

(** X12: the symbols and the imports of an outline built over a list of
    matches put together from two lists are those of the first list
    followed by those of the second, and the outline carries the file
    name it was given. *)
Theorem buildOutline_app
    (file : string) (before after : list QueryMatch.t) (source : string)
    (includeSource : bool) (maxSourceLines : Z) :
  let outline ms := buildOutline file ms source includeSource maxSourceLines in
  FileOutline.File (outline (before ++ after)) = file /\
  FileOutline.Symbols (outline (before ++ after))
  = FileOutline.Symbols (outline before) ++ FileOutline.Symbols (outline after) /\
  FileOutline.Imports (outline (before ++ after))
  = FileOutline.Imports (outline before) ++ FileOutline.Imports (outline after).
Proof.
  intros outline. unfold outline, buildOutline.
  pose proof (fun ms => buildOutline_fold file includeSource maxSourceLines
                          (FileOutline.mk file "" [] []) ms) as H.
  destruct (H (before ++ after)) as (-> & _ & -> & ->).
  destruct (H before) as (_ & _ & -> & ->). destruct (H after) as (_ & _ & -> & ->).
  simpl. by rewrite !flat_map_app.
Qed.

(** X13: every symbol of an outline has the outline's file, one of the
    seven kinds, the visibility [getVisibility] gives its name, no
    signature and no doc comment; a receiver on methods only; and no
    source snippet unless snippets were asked for. *)
Theorem buildOutline_symbols_wellformed
    (file : string) (matches : list QueryMatch.t) (source : string)
    (includeSource : bool) (maxSourceLines : Z) :
  Forall (fun sym =>
            Symbol.File sym = file /\
            (Symbol.Kind sym = "function" \/ Symbol.Kind sym = "method" \/
             Symbol.Kind sym = "struct" \/ Symbol.Kind sym = "interface" \/
             Symbol.Kind sym = "type" \/ Symbol.Kind sym = "const" \/
             Symbol.Kind sym = "var") /\
            Symbol.Visibility sym = getVisibility (Symbol.Name sym) /\
            Symbol.Signature sym = "" /\ Symbol.Doc sym = "" /\
            (Symbol.Receiver sym <> "" -> Symbol.Kind sym = "method") /\
            (includeSource = false -> Symbol.Source sym = ""))
         (FileOutline.Symbols (buildOutline file matches source includeSource maxSourceLines)).
Proof.
  unfold buildOutline.
  destruct (buildOutline_fold file includeSource maxSourceLines
              (FileOutline.mk file "" [] []) matches) as (_ & _ & _ & ->).
  simpl. apply Forall_forall. intros sym Hin.
  apply list_elem_of_In, in_flat_map in Hin as (m & _ & Hin).
  apply list_elem_of_In in Hin.
  by apply (proj1 (Forall_forall _ _) (outlineOf_symbols file includeSource maxSourceLines m)).
Qed.

(** X14: the package of an outline is the text of the last package
    clause among the matches, and empty when there is none. *)
Theorem buildOutline_package
    (file : string) (matches : list QueryMatch.t) (source : string)
    (includeSource : bool) (maxSourceLines : Z) :
  FileOutline.Package (buildOutline file matches source includeSource maxSourceLines)
  = default "" (last (packageClauses matches)).
Proof.
  unfold buildOutline.
  by destruct (buildOutline_fold file includeSource maxSourceLines
                 (FileOutline.mk file "" [] []) matches) as (_ & -> & _).
Qed.

Lemma buildOutline_symbols_wellformed_witness :
  Forall (fun sym => Symbol.Source sym = "")
         (FileOutline.Symbols (buildOutline "a.go" outlineMatches "" false 5)).
Proof.
  eapply Forall_impl;
    [apply (buildOutline_symbols_wellformed "a.go" outlineMatches "" false 5)|].
  intros sym (_ & _ & _ & _ & _ & _ & Hsource). by apply Hsource.
Defined.

(** X15: a match that carries a package capture, or an import path,
    declares no symbol, whatever else it captures: a package clause adds
    no import either, and an import adds exactly one, its path stripped
    of the double quotes around it and its alias kept when there is one. *)
Theorem buildOutline_package_and_imports
    (file : string) (match_ : QueryMatch.t) (source : string)
    (includeSource : bool) (maxSourceLines : Z) :
  let captures := captureMap (QueryMatch.Captures match_) in
  let outline := buildOutline file [match_] source includeSource maxSourceLines in
  (captured match_ "package" ->
   FileOutline.Symbols outline = [] /\ FileOutline.Imports outline = []) /\
  (~ captured match_ "package" ->
   forall path,
     captures !! "path" = Some path ->
     FileOutline.Symbols outline = [] /\
     FileOutline.Imports outline
     = [ImportInfo.mk (strings.Trim1 (CaptureResult.Text path) dquote)
          (default "" (captureText captures "alias"))]).
Proof.
  intros captures outline. subst outline.
  unfold buildOutline. simpl. unfold outlineStep, captureText. fold captures.
  rewrite <- has_not_captured, <- has_captured. fold captures. unfold has. split.
  - by destruct (captures !! "package").
  - destruct (captures !! "package"); [done|]. intros _ path ->. simpl.
    by destruct (captures !! "alias").
Qed.

Lemma buildOutline_package_and_imports_witness :
  FileOutline.Imports (buildOutline "a.go" (take 1 (drop 1 outlineMatches)) "" false 5)
  = [ImportInfo.mk "fmt" "f"].
Proof.
  destruct (buildOutline_package_and_imports "a.go"
              (QueryMatch.mk "a.go" 1
                 [ CaptureResult.mk "import" "import_declaration"
                     ("import f " +:+ quoted "fmt") (at_ 2 1);
                   CaptureResult.mk "alias" "package_identifier" "f" (at_ 2 8);
                   CaptureResult.mk "path" "interpreted_string_literal" (quoted "fmt")
                     (at_ 2 10) ])
              "" false 5) as [_ Himport].
  destruct (Himport ltac:(apply has_not_captured; reflexivity)
              (CaptureResult.mk "path" "interpreted_string_literal" (quoted "fmt") (at_ 2 10))
              eq_refl) as [_ Himports].
  exact Himports.
Defined.

(** * Further properties of the worker pool *)

Lemma readsOf_app (l k : list Event) : readsOf (l ++ k) = readsOf l ++ readsOf k.
Proof. unfold readsOf. apply omap_app. Qed.

Lemma readsOf_replicate (n : nat) : readsOf (replicate n EvGo) = [].
Proof. induction n as [|n IH]; [done|exact IH]. Qed.

Section PoolOrder.

Context {T : Type}.
Variable body : FileJob.t -> list T.

Implicit Types (p : @pool T) (ws : list (@goroutine T)) (g : @goroutine T).

Lemma receivedBy_split ws i g :
  ws !! i = Some g ->
  forall g', receivedBy (<[i := g']> ws) ++ receivedBy [g] ≡ₚ receivedBy ws ++ receivedBy [g'].
Proof.
  intros Hi g'. unfold receivedBy.
  rewrite insert_take_drop by (by eapply lookup_lt_Some).
  rewrite <- (take_drop_middle ws i g Hi) at 3.
  rewrite !omap_app, (omap_app _ [g] (drop (S i) ws)), (omap_app _ [g'] (drop (S i) ws)).
  rewrite <- !app_assoc. f_equiv.
  etrans; [apply Permutation_app_comm|]. rewrite <- app_assoc.
  apply Permutation_app_swap_app.
Qed.

(** The files read, those received and those in the queue are together
    always the file set. *)
Lemma stepWorker_reads i p :
  readsOf (effects (stepWorker body i p)) ++ receivedBy (workers (stepWorker body i p))
    ++ map FileJob.AbsPath (jobQueue (stepWorker body i p))
  ≡ₚ readsOf (effects p) ++ receivedBy (workers p) ++ map FileJob.AbsPath (jobQueue p).
Proof.
  unfold stepWorker.
  destruct (workers p !! i) as [[[|r pending]|job|]|] eqn:Hi; [| | |done..].
  - destruct (jobQueue p) as [|job queue]; cbn [effects workers jobQueue map].
    + pose proof (receivedBy_split _ _ _ Hi Exited) as Hsplit. simpl in Hsplit.
      rewrite !app_nil_r in Hsplit. by rewrite Hsplit.
    + pose proof (receivedBy_split _ _ _ Hi (Received job)) as Hsplit. simpl in Hsplit.
      rewrite app_nil_r in Hsplit. f_equiv. rewrite Hsplit, <- app_assoc. done.
  - cbn [effects workers jobQueue].
    pose proof (receivedBy_split _ _ _ Hi (Working pending)) as Hsplit. simpl in Hsplit.
    rewrite !app_nil_r in Hsplit. by rewrite Hsplit.
  - cbn [effects workers jobQueue]. rewrite readsOf_app. simpl.
    pose proof (receivedBy_split _ _ _ Hi (Working (body job))) as Hsplit. simpl in Hsplit.
    rewrite app_nil_r in Hsplit. rewrite <- Hsplit, <- !app_assoc. f_equiv.
    rewrite !app_assoc. f_equiv. apply Permutation_app_comm.
Qed.

Lemma schedule_reads sched p :
  readsOf (effects (schedule body sched p)) ++ receivedBy (workers (schedule body sched p))
    ++ map FileJob.AbsPath (jobQueue (schedule body sched p))
  ≡ₚ readsOf (effects p) ++ receivedBy (workers p) ++ map FileJob.AbsPath (jobQueue p).
Proof.
  revert p. induction sched as [|i sched IH]; intros p; simpl; [done|].
  rewrite IH. apply stepWorker_reads.
Qed.

Lemma allExited_queue p : live p -> allExited p = true -> jobQueue p = [].
Proof.
  intros [Hq|Hw] Hall; [done|]. by destruct (allExited_not_working _ Hall).
Qed.

Lemma allExited_received ws : forallb hasExited ws = true -> receivedBy ws = [].
Proof.
  induction ws as [|[pending|job|] ws IH]; simpl; [done|done|done|exact IH].
Qed.

Lemma receivedBy_replicate (n : nat) : receivedBy (replicate n (@Working T [])) = [].
Proof. induction n as [|n IH]; [done|exact IH]. Qed.

Lemma runPool_reads (files : list FileJob.t) (jobs : Z) :
  readsEachFileOnce (fun sched => runPool body sched files jobs) files.
Proof.
  intros sched. unfold runPool. cbn [fst snd].
  set (p0 := startPool files (Z.to_nat (workerCount jobs files))).
  pose proof (schedule_reads sched p0) as Hreads.
  unfold p0 at 4 5 6 in Hreads. simpl in Hreads.
  rewrite readsOf_replicate, receivedBy_replicate in Hreads. simpl in Hreads. split.
  - rewrite <- Hreads. by apply submseteq_inserts_r.
  - destruct (allExited (schedule body sched p0)) eqn:Hall; [|done]. intros out _.
    rewrite (allExited_queue _ (schedule_live body sched p0 (startPool_live files jobs)) Hall),
      (allExited_received _ Hall) in Hreads.
    simpl in Hreads. by rewrite app_nil_r in Hreads.
Qed.

(** A job in progress stays in progress through every step. *)
Lemma stepWorker_inProgress i p job :
  inProgress body p job -> inProgress body (stepWorker body i p) job.
Proof.
  intros (sent & rest & Hbody & Hsent & Hrest). unfold stepWorker.
  destruct (workers p !! i) as [[[|r pending]|job'|]|] eqn:Hi;
    [| | |by exists sent, rest..].
  - assert (Hkeep : rest = [] \/
              exists j g, j <> i /\ workers p !! j = Some g /\ hasExited g = false /\
                          pendingOf body g = rest).
    { destruct Hrest as [|(j & g & Hj & Hg & Hp)]; [by left|].
      destruct (decide (j = i)) as [->|Hne]; [|right; eauto 10].
      left. assert (g = Working []) as -> by congruence. by simpl in Hp. }
    destruct (jobQueue p) as [|job'' queue]; exists sent, rest; simpl;
      (split; [done|]; split; [done|]);
      (destruct Hkeep as [|(j & g & Hne & Hj & Hg & Hp)]; [by left|]; right; exists j, g;
       by rewrite list_lookup_insert_ne).
  - destruct Hrest as [->|(j & g & Hj & Hg & Hp)].
    + exists sent, []. simpl. split; [done|]. split; [by apply sublist_inserts_r|by left].
    + destruct (decide (j = i)) as [->|Hne].
      * assert (g = Working (r :: pending)) as -> by congruence. simpl in Hp. subst rest.
        exists (sent ++ [r]), pending. simpl. split; [by rewrite <- app_assoc|].
        split; [by apply sublist_app|]. right. exists i, (Working pending).
        split; [|done]. apply list_lookup_insert_eq. by eapply lookup_lt_Some.
      * exists sent, rest. simpl. split; [done|].
        split; [by apply sublist_inserts_r|]. right. exists j, g.
        by rewrite list_lookup_insert_ne.
  - exists sent, rest. simpl. split; [done|]. split; [done|].
    destruct Hrest as [|(j & g & Hj & Hg & Hp)]; [by left|]. right.
    destruct (decide (j = i)) as [->|Hne].
    + assert (g = Received job') as -> by congruence. simpl in Hp.
      exists i, (Working (body job')). split; [|done].
      apply list_lookup_insert_eq. by eapply lookup_lt_Some.
    + exists j, g. by rewrite list_lookup_insert_ne.
Qed.

Lemma stepWorker_ordered files i p : ordered body files p -> ordered body files (stepWorker body i p).
Proof.
  intros (taken & Hfiles & Htaken).
  assert (Hstay : Forall (inProgress body (stepWorker body i p)) taken).
  { eapply Forall_impl; [exact Htaken|]. intros job. apply stepWorker_inProgress. }
  unfold ordered. unfold stepWorker in *.
  destruct (workers p !! i) as [[[|r pending]|job'|]|] eqn:Hi;
    [| | |by exists taken..].
  - destruct (jobQueue p) as [|job queue] eqn:Hq.
    + by exists taken.
    + exists (taken ++ [job]). simpl. split; [by rewrite <- app_assoc|].
      apply Forall_app. split; [done|]. constructor; [|done].
      exists [], (body job). simpl. split; [done|]. split; [apply sublist_nil_l|].
      right. exists i, (Received job). split; [|done].
      apply list_lookup_insert_eq. by eapply lookup_lt_Some.
  - by exists taken.
  - by exists taken.
Qed.

Lemma schedule_ordered files sched p :
  ordered body files p -> ordered body files (schedule body sched p).
Proof.
  revert p. induction sched as [|i sched IH]; intros p Hp; simpl; [done|].
  by apply IH, stepWorker_ordered.
Qed.

Lemma runPool_order (files : list FileJob.t) (jobs : Z) :
  keepsFileOrder (fun sched => runPool body sched files jobs) body files.
Proof.
  intros sched out. unfold runPool. cbn [fst].
  set (p0 := startPool files (Z.to_nat (workerCount jobs files))).
  destruct (allExited (schedule body sched p0)) eqn:Hall; [|done]. intros [= <-] job Hjob.
  assert (Hord : ordered body files (schedule body sched p0)).
  { apply schedule_ordered. exists []. by split. }
  destruct Hord as (taken & Hfiles & Htaken).
  rewrite (allExited_queue _ (schedule_live body sched p0 (startPool_live files jobs)) Hall),
    app_nil_r in Hfiles. subst taken.
  destruct (proj1 (Forall_forall _ _) Htaken job Hjob)
    as (sent & rest & Hbody & Hsent & [-> | (i & g & Hi & Hg & _)]).
  - by rewrite Hbody, app_nil_r.
  - destruct (allExited_not_working _ Hall). by exists i, g.
Qed.

End PoolOrder.

(** X16: each of the three worker pools reads each file once, in
    whatever order the workers get to it.  At any moment the files read
    so far are files of the file set, none read more often than it
    occurs there; when the pool returns, every file has been read,
    once. *)
Theorem workers_read_each_file_once `{W : World}
    (language : Language.t) (q : query) (files : list FileJob.t) (jobs : Z) :
  readsEachFileOnce (fun sched => runQueryWorkers sched language q files jobs) files /\
  (forall visibility includeSource maxSourceLines,
     readsEachFileOnce
       (fun sched => runSymbolsWorkers sched language q files jobs visibility includeSource
                       maxSourceLines) files) /\
  (forall symbolName includeContext,
     readsEachFileOnce
       (fun sched => runRefsWorkers sched language q files jobs symbolName includeContext)
       files).
Proof. split; [|split]; intros; exact (runPool_reads _ _ _). Qed.

(** X17: the results of one file keep their order.  When
    [runQueryWorkers] returns, the matches of each file appear in the
    result in the order the engine gave them, whatever else is
    interleaved with them; likewise the references of each file when
    [runRefsWorkers] returns. *)
Theorem workers_keep_file_order `{W : World}
    (language : Language.t) (q : query) (files : list FileJob.t) (jobs : Z) :
  keepsFileOrder (fun sched => runQueryWorkers sched language q files jobs)
    (queryWorker language q) files /\
  (forall symbolName includeContext,
     keepsFileOrder
       (fun sched => runRefsWorkers sched language q files jobs symbolName includeContext)
       (refsWorker language q symbolName includeContext) files).
Proof. split; intros; exact (runPool_order _ _ _). Qed.

Lemma workers_read_each_file_once_witness :
  readsOf (runQueryWorkers [0; 1; 2; 2; 1; 0; 0; 1; 2; 0; 1; 2; 0; 1; 2]%nat
             goLanguage "(q)" demoJobs 3).2
  = ["/r/b.go"; "/r/missing.go"; "/r/a.go"] /\
  readsOf (runQueryWorkers [0; 1; 2; 2; 1; 0; 0; 1; 2; 0; 1; 2; 0; 1; 2]%nat
             goLanguage "(q)" demoJobs 3).2
  ≡ₚ ["/r/a.go"; "/r/missing.go"; "/r/b.go"].
Proof.
  split; [vm_compute; reflexivity|].
  destruct (@workers_read_each_file_once demoWorld goLanguage "(q)" demoJobs 3) as [Hquery _].
  destruct (Hquery [0; 1; 2; 2; 1; 0; 0; 1; 2; 0; 1; 2; 0; 1; 2]%nat) as [_ Hall].
  assert (Hret : exists out,
             (runQueryWorkers [0; 1; 2; 2; 1; 0; 0; 1; 2; 0; 1; 2; 0; 1; 2]%nat
                goLanguage "(q)" demoJobs 3).1 = Return out)
    by (eexists; vm_compute; reflexivity).
  destruct Hret as [out Hret]. exact (Hall out Hret).
Defined.

Lemma workers_keep_file_order_witness :
  exists out,
    (runQueryWorkers [0; 1; 2; 0; 1; 2; 0; 1; 2; 0; 1; 2; 0; 1; 2]%nat goLanguage "(q)" demoJobs 3).1
    = Return out /\
    queryWorker goLanguage "(q)" (FileJob.mk "/r/a.go" "a.go") `sublist_of` out.
Proof.
  destruct (@workers_keep_file_order demoWorld goLanguage "(q)" demoJobs 3) as [Hquery _].
  assert (Hret : exists out,
             (runQueryWorkers [0; 1; 2; 0; 1; 2; 0; 1; 2; 0; 1; 2; 0; 1; 2]%nat goLanguage "(q)"
                demoJobs 3).1 = Return out)
    by (eexists; vm_compute; reflexivity).
  destruct Hret as [out Hret]. exists out. split; [exact Hret|].
  apply (Hquery [0; 1; 2; 0; 1; 2; 0; 1; 2; 0; 1; 2; 0; 1; 2]%nat out Hret).
  apply list_elem_of_here.
Defined.

(** * Further properties of the aggregators *)

Lemma sublist_full {A : Type} (l1 l2 : list A) :
  l1 `sublist_of` l2 -> (length l2 <= length l1)%nat -> l1 = l2.
Proof.
  induction 1 as [|x l1 l2 _ IH|x l1 l2 Hsub _]; simpl; intros Hlen; [done| |].
  - f_equal. apply IH. lia.
  - apply sublist_length in Hsub. lia.
Qed.

Lemma workerCount_single (jobs : Z) (job : FileJob.t) : workerCount jobs [job] = 1.
Proof.
  pose proof (workerCount_bounds jobs [job]) as H. simpl in H.
  assert ([job] <> []) as Hne by done. specialize (H Hne). lia.
Qed.

Section AggregatorMore.

Context `{W : World}.

(** The two ways of resolving the file set. *)
Lemma resolveFiles_directory language path maxBytes :
  let cfg := newScanner (scannerConfig.mk path language None maxBytes) in
  resolveFiles language "" path maxBytes
  = (match collect cfg with Ok files => Return files | Err msg => Error msg end,
     [EvCollect cfg]).
Proof. unfold resolveFiles. simpl. by destruct (collect _). Qed.

Lemma resolveFiles_single language file path maxBytes :
  file <> "" ->
  resolveFiles language file path maxBytes
  = (match filepath_Abs file with
     | Ok absPath => Return [FileJob.mk absPath (filepath_Base absPath)]
     | Err msg => Error ("resolve path: " +:+ msg)
     end, [EvResolve file]).
Proof.
  intros Hne%String.eqb_neq. unfold resolveFiles, collectSingle. rewrite Hne. simpl.
  by destruct (filepath_Abs file).
Qed.

(** A reference a worker sends carries the search term. *)
Lemma refsWorker_Symbol language q symbolName includeContext job ref :
  ref ∈ refsWorker language q symbolName includeContext job ->
  Reference.Symbol ref = symbolName.
Proof.
  unfold refsWorker. destruct (parseFile _ _) as [[tree source]|]; [|by intros ?%elem_of_nil].
  destruct (findReferences_spec TrimSpace (run q tree source (FileJob.DisplayPath job)) source
              symbolName includeContext) as (refs & -> & HF).
  intros Hin. clear -HF Hin.
  induction HF as [|mc ref' mcs refs' Href _ IH]; [by apply elem_of_nil in Hin|].
  apply elem_of_cons in Hin as [->|Hin]; [|by apply IH].
  by apply referenceFor_fields in Href as (? & _).
Qed.

(** A result a symbols worker sends is not empty, and its symbols are
    named and passed the filter. *)
Lemma symbolsWorker_result language q visibility includeSource maxSourceLines job result :
  result ∈ symbolsWorker language q visibility includeSource maxSourceLines job ->
  SymbolsResult.File result = FileJob.DisplayPath job /\
  SymbolsResult.Symbols result <> [] /\
  Forall (fun sym => Symbol.Name sym <> "" /\ passesFilter visibility sym = true)
         (SymbolsResult.Symbols result).
Proof.
  unfold symbolsWorker. destruct (parseFile _ _) as [[tree source]|]; [|by intros ?%elem_of_nil].
  cbv zeta.
  destruct (extractSymbols Fields _ source visibility includeSource maxSourceLines)
    as [|sym symbols] eqn:E; simpl; [by intros ?%elem_of_nil|].
  intros ->%list_elem_of_singleton. simpl. split; [done|]. split; [done|].
  rewrite <- E. apply Forall_forall. intros sym' (m & _ & Hp & Hf)%extractSymbols_elem.
  split; [|done]. by apply parseSymbolFromMatch_inv in Hp as (_ & _ & _ & _ & ? & _).
Qed.

(** What a dispatch returns was sent by a worker for one of the files. *)
Lemma runPool_elem {T : Type} (body : FileJob.t -> list T) sched files jobs out x :
  (runPool body sched files jobs).1 = Return out ->
  x ∈ out -> exists job, job ∈ files /\ x ∈ body job.
Proof.
  intros Hout%runPool_results Hin. rewrite Hout in Hin.
  apply list_elem_of_In, in_flat_map in Hin as (job & Hjob & Hin).
  exists job. by rewrite !list_elem_of_In.
Qed.

End AggregatorMore.

(** X18: a query that does not compile is fatal and found out before
    any file is touched: in [Query], [Symbols], [Outline] and [Refs] the
    error of [newQuery] is the error of the call, and nothing has been
    resolved, walked, started or read. *)
Theorem compile_errors_first `{W : World} :
  (forall sched opts language msg,
     QueryOptions.Query opts <> "" ->
     selected (QueryOptions.Language opts) = Some language ->
     newQuery (QueryOptions.Query opts) language = Err msg ->
     Query sched opts = (Error msg, [])) /\
  (forall sched opts language msg,
     selected (SymbolsOptions.Language opts) = Some language ->
     newQuery (Language.SymbolsQuery language) language = Err msg ->
     Symbols sched opts = (Error msg, [])) /\
  (forall opts language msg,
     OutlineOptions.File opts <> "" ->
     selected (OutlineOptions.Language opts) = Some language ->
     newQuery (Language.OutlineQuery language) language = Err msg ->
     Outline opts = (Error msg, [])) /\
  (forall sched opts language msg,
     RefsOptions.Symbol opts <> "" ->
     selected (RefsOptions.Language opts) = Some language ->
     newQuery (Language.RefsQuery language) language = Err msg ->
     Refs sched opts = (Error msg, [])).
Proof.
  unfold selected. repeat split.
  - intros sched opts language msg Hq%String.eqb_neq Hl Hc. unfold Query.
    by rewrite Hq, Hl, Hc.
  - intros sched opts language msg Hl Hc. unfold Symbols. by rewrite Hl, Hc.
  - intros opts language msg Hf%String.eqb_neq Hl Hc. unfold Outline.
    by rewrite Hf, Hl, Hc.
  - intros sched opts language msg Hs%String.eqb_neq Hl Hc. unfold Refs.
    by rewrite Hs, Hl, Hc.
Qed.

Lemma compile_errors_first_witness :
  @Symbols bareWorld [0]%nat (SymbolsOptions.mk "" "." "" "" false 0 1 0)
  = (Error "compile query: empty", []).
Proof.
  destruct (@compile_errors_first bareWorld) as (_ & Hsymbols & _).
  apply (Hsymbols [0]%nat (SymbolsOptions.mk "" "." "" "" false 0 1 0) bareLanguage);
    reflexivity.
Defined.

(** X19: an error of the scanner is the error of the call.  In directory
    mode a failing [collect], in single-file mode a path that cannot be
    made absolute, make [Query], [Symbols] and [Refs] return that error
    (the latter prefixed with [resolve path: ]) with no worker started
    and no file read. *)
Theorem scanner_errors_propagate `{W : World} :
  (forall sched opts language q msg,
     QueryOptions.Query opts <> "" ->
     selected (QueryOptions.Language opts) = Some language ->
     newQuery (QueryOptions.Query opts) language = Ok q ->
     (QueryOptions.File opts = "" /\
      collect (newScanner (scannerConfig.mk (orDefault (QueryOptions.Path opts) ".") language
                             None (orDefaultZ (QueryOptions.MaxBytes opts) defaultMaxBytes)))
      = Err msg) \/
     (QueryOptions.File opts <> "" /\
      exists err, filepath_Abs (QueryOptions.File opts) = Err err /\
                  msg = "resolve path: " +:+ err) ->
     (Query sched opts).1 = Error msg /\
     spawned (Query sched opts).2 = 0%nat /\ filesRead (Query sched opts).2 = 0%nat) /\
  (forall sched opts language q msg,
     selected (SymbolsOptions.Language opts) = Some language ->
     newQuery (Language.SymbolsQuery language) language = Ok q ->
     (SymbolsOptions.File opts = "" /\
      collect (newScanner (scannerConfig.mk (orDefault (SymbolsOptions.Path opts) ".") language
                             None (orDefaultZ (SymbolsOptions.MaxBytes opts) defaultMaxBytes)))
      = Err msg) \/
     (SymbolsOptions.File opts <> "" /\
      exists err, filepath_Abs (SymbolsOptions.File opts) = Err err /\
                  msg = "resolve path: " +:+ err) ->
     (Symbols sched opts).1 = Error msg /\
     spawned (Symbols sched opts).2 = 0%nat /\ filesRead (Symbols sched opts).2 = 0%nat) /\
  (forall sched opts language q msg,
     RefsOptions.Symbol opts <> "" ->
     selected (RefsOptions.Language opts) = Some language ->
     newQuery (Language.RefsQuery language) language = Ok q ->
     (RefsOptions.File opts = "" /\
      collect (newScanner (scannerConfig.mk (orDefault (RefsOptions.Path opts) ".") language
                             None (orDefaultZ (RefsOptions.MaxBytes opts) defaultMaxBytes)))
      = Err msg) \/
     (RefsOptions.File opts <> "" /\
      exists err, filepath_Abs (RefsOptions.File opts) = Err err /\
                  msg = "resolve path: " +:+ err) ->
     (Refs sched opts).1 = Error msg /\
     spawned (Refs sched opts).2 = 0%nat /\ filesRead (Refs sched opts).2 = 0%nat).
Proof.
  assert (Hresolve : forall language file path maxBytes msg,
            (file = "" /\
             collect (newScanner (scannerConfig.mk path language None maxBytes)) = Err msg) \/
            (file <> "" /\
             exists err, filepath_Abs file = Err err /\ msg = "resolve path: " +:+ err) ->
            (resolveFiles language file path maxBytes).1 = Error msg).
  { intros language file path maxBytes msg [[-> Hc]|(Hne & err & Ha & ->)].
    - rewrite resolveFiles_directory. simpl. by rewrite Hc.
    - rewrite (resolveFiles_single _ _ _ _ Hne). simpl. by rewrite Ha. }
  split; [|split].
  - intros sched opts language q msg Hq Hl Hc Hfail%Hresolve.
    rewrite (Query_valid _ _ _ _ Hq Hl Hc), (bind_Error _ _ _ Hfail). simpl.
    split; [done|]. split; apply resolveFiles_log.
  - intros sched opts language q msg Hl Hc Hfail%Hresolve.
    rewrite (Symbols_valid _ _ _ _ Hl Hc), (bind_Error _ _ _ Hfail). simpl.
    split; [done|]. split; apply resolveFiles_log.
  - intros sched opts language q msg Hs Hl Hc Hfail%Hresolve.
    rewrite (Refs_valid _ _ _ _ Hs Hl Hc), (bind_Error _ _ _ Hfail). simpl.
    split; [done|]. split; apply resolveFiles_log.
Qed.

Lemma scanner_errors_propagate_witness :
  (@Query bareWorld [0]%nat (QueryOptions.mk "(q)" "" "" "" 0 0)).1
  = Error "lstat: no such file or directory" /\
  (@Query bareWorld [0]%nat (QueryOptions.mk "(q)" "" "" "a.go" 0 0)).1
  = Error "resolve path: getwd: no such file or directory".
Proof.
  destruct (@scanner_errors_propagate bareWorld) as (Hquery & _).
  split.
  - apply (Hquery [0]%nat (QueryOptions.mk "(q)" "" "" "" 0 0) bareLanguage "(q)");
      [discriminate | reflexivity | reflexivity |].
    left. split; reflexivity.
  - apply (Hquery [0]%nat (QueryOptions.mk "(q)" "" "" "a.go" 0 0) bareLanguage "(q)");
      [discriminate | reflexivity | reflexivity |].
    right. split; [discriminate|]. eexists. split; reflexivity.
Defined.

(** X20: [Outline] requires a file, works on that one file without any
    worker, and - unlike the other three - reports the failure to read
    it: the error of [os.ReadFile], after the words [read file: ], is
    the error of the call.  A file that is read is parsed and queried
    whatever its content, and the result is [buildOutline] of the
    matches in its tree, under the base name of its path. *)
Theorem Outline_single_file `{W : World} :
  (forall opts,
     OutlineOptions.File opts = "" -> Outline opts = (Error "file is required", [])) /\
  (forall opts,
     spawned (Outline opts).2 = 0%nat /\ (filesRead (Outline opts).2 <= 1)%nat) /\
  (forall opts language q absPath,
     OutlineOptions.File opts <> "" ->
     selected (OutlineOptions.Language opts) = Some language ->
     newQuery (Language.OutlineQuery language) language = Ok q ->
     filepath_Abs (OutlineOptions.File opts) = Ok absPath ->
     Outline opts
     = (match ReadFile absPath with
        | Err err => Error ("read file: " +:+ err)
        | Ok source =>
            Return (buildOutline (filepath_Base absPath)
                      (run q (parse language source) source (filepath_Base absPath)) source
                      (OutlineOptions.IncludeSource opts)
                      (orDefaultZ (OutlineOptions.MaxSourceLines opts) 5))
        end,
        [EvResolve (OutlineOptions.File opts); EvParseFile absPath])).
Proof.
  split; [|split].
  - intros opts Hf. unfold Outline. by rewrite Hf.
  - intros opts. unfold Outline, collectSingle, spawned, filesRead.
    destruct (String.eqb _ ""); [simpl; split; [done|lia]|].
    destruct (Get _ _) as [language|]; [|simpl; split; [done|lia]].
    destruct (newQuery _ _) as [q|]; [|simpl; split; [done|lia]]. rewrite bind_lift_Ok.
    destruct (filepath_Abs _) as [absPath|]; [|simpl; split; [done|lia]].
    simpl. destruct (parseFile _ _) as [[tree source]|]; simpl; (split; [done|lia]).
  - intros opts language q absPath Hf%String.eqb_neq Hl Hc Ha.
    unfold Outline, selected, collectSingle, parseFile in *.
    rewrite Hf, Hl, Hc, bind_lift_Ok, Ha.
    simpl. by destruct (ReadFile absPath) as [source|err].
Qed.

Lemma Outline_single_file_witness :
  Outline (OutlineOptions.mk "" "missing.go" false 0)
  = (Error "read file: no such file", [EvResolve "missing.go"; EvParseFile "/r/missing.go"]) /\
  exists outline,
    (Outline (OutlineOptions.mk "" "broken.go" false 0)).1 = Return outline /\
    FileOutline.File outline = "broken.go".
Proof.
  destruct (@Outline_single_file demoWorld) as (_ & _ & Hfile). split.
  - rewrite (Hfile (OutlineOptions.mk "" "missing.go" false 0) goLanguage "(outline)"
               "/r/missing.go"); [reflexivity | discriminate | reflexivity..].
  - rewrite (Hfile (OutlineOptions.mk "" "broken.go" false 0) goLanguage "(outline)"
               "/r/broken.go"); [|discriminate | reflexivity..].
    eexists. split; reflexivity.
Defined.

(** A pool over one file: the requested worker count is immaterial, and
    what it returns is what the worker body gives for that file. *)
Lemma runPool_single_jobs {T : Type} (body : FileJob.t -> list T) sched job jobs jobs' :
  runPool body sched [job] jobs = runPool body sched [job] jobs'.
Proof. unfold runPool. by rewrite !workerCount_single. Qed.

Lemma runPool_single_result {T : Type} (body : FileJob.t -> list T) sched job jobs out :
  (runPool body sched [job] jobs).1 = Return out -> out = body job.
Proof.
  intros Hout. symmetry. apply sublist_full.
  - apply (runPool_order body [job] jobs sched out Hout job). by apply list_elem_of_singleton.
  - apply runPool_results in Hout. rewrite Hout. simpl. by rewrite app_nil_r.
Qed.

(** X21: single-file mode.  When [File] is set, [Query], [Symbols] and
    [Refs] ignore [Path], [Jobs] and [MaxBytes] altogether - in
    particular the size limit does not apply to a file named
    explicitly - and what they return is exactly what the one worker
    gives for that file, in the order it gives it. *)
Theorem single_file_mode `{W : World} :
  (forall sched opts path jobs maxBytes,
     QueryOptions.File opts <> "" ->
     Query sched opts
     = Query sched (QueryOptions.mk (QueryOptions.Query opts) (QueryOptions.Language opts)
                      path (QueryOptions.File opts) jobs maxBytes)) /\
  (forall sched opts path jobs maxBytes,
     SymbolsOptions.File opts <> "" ->
     Symbols sched opts
     = Symbols sched (SymbolsOptions.mk (SymbolsOptions.Language opts) path
                        (SymbolsOptions.File opts) (SymbolsOptions.Visibility opts)
                        (SymbolsOptions.IncludeSource opts)
                        (SymbolsOptions.MaxSourceLines opts) jobs maxBytes)) /\
  (forall sched opts path jobs maxBytes,
     RefsOptions.File opts <> "" ->
     Refs sched opts
     = Refs sched (RefsOptions.mk (RefsOptions.Symbol opts) (RefsOptions.Language opts) path
                     (RefsOptions.File opts) (RefsOptions.IncludeContext opts) jobs maxBytes)) /\
  (forall sched opts language q absPath out,
     QueryOptions.File opts <> "" ->
     selected (QueryOptions.Language opts) = Some language ->
     newQuery (QueryOptions.Query opts) language = Ok q ->
     filepath_Abs (QueryOptions.File opts) = Ok absPath ->
     (Query sched opts).1 = Return out ->
     out = queryWorker language q (FileJob.mk absPath (filepath_Base absPath))) /\
  (forall sched opts language q absPath out,
     SymbolsOptions.File opts <> "" ->
     selected (SymbolsOptions.Language opts) = Some language ->
     newQuery (Language.SymbolsQuery language) language = Ok q ->
     filepath_Abs (SymbolsOptions.File opts) = Ok absPath ->
     (Symbols sched opts).1 = Return out ->
     out = symbolsWorker language q (orDefault (SymbolsOptions.Visibility opts) "all")
             (SymbolsOptions.IncludeSource opts)
             (orDefaultZ (SymbolsOptions.MaxSourceLines opts) 10)
             (FileJob.mk absPath (filepath_Base absPath))) /\
  (forall sched opts language q absPath out,
     RefsOptions.File opts <> "" ->
     selected (RefsOptions.Language opts) = Some language ->
     newQuery (Language.RefsQuery language) language = Ok q ->
     filepath_Abs (RefsOptions.File opts) = Ok absPath ->
     (Refs sched opts).1 = Return out ->
     out = RefsResult.mk (RefsOptions.Symbol opts)
             (refsWorker language q (RefsOptions.Symbol opts) (RefsOptions.IncludeContext opts)
                (FileJob.mk absPath (filepath_Base absPath)))).
Proof.
  repeat apply conj.
  - intros sched opts path jobs maxBytes Hf. unfold Query. cbn [QueryOptions.Query
      QueryOptions.Language QueryOptions.Path QueryOptions.File QueryOptions.Jobs
      QueryOptions.MaxBytes].
    destruct (String.eqb _ ""); [done|]. destruct (Get _ _) as [language|]; [|done].
    destruct (newQuery _ _) as [q|]; [|done]. rewrite !bind_lift_Ok.
    rewrite !(resolveFiles_single _ _ _ _ Hf).
    destruct (filepath_Abs _) as [absPath|]; [|done].
    rewrite !(bind_Return (Return _, _) _ _ eq_refl). cbn [length Nat.eqb snd].
    unfold runQueryWorkers.
    by rewrite (runPool_single_jobs _ _ _ (orDefaultZ (QueryOptions.Jobs opts) NumCPU)
                  (orDefaultZ jobs NumCPU)).
  - intros sched opts path jobs maxBytes Hf. unfold Symbols. cbn [SymbolsOptions.Language
      SymbolsOptions.Path SymbolsOptions.File SymbolsOptions.Visibility
      SymbolsOptions.IncludeSource SymbolsOptions.MaxSourceLines SymbolsOptions.Jobs
      SymbolsOptions.MaxBytes]. cbv zeta.
    destruct (Get _ _) as [language|]; [|done].
    destruct (newQuery _ _) as [q|]; [|done]. rewrite !bind_lift_Ok.
    rewrite !(resolveFiles_single _ _ _ _ Hf).
    destruct (filepath_Abs _) as [absPath|]; [|done].
    rewrite !(bind_Return (Return _, _) _ _ eq_refl). cbn [length Nat.eqb snd].
    unfold runSymbolsWorkers.
    by rewrite (runPool_single_jobs _ _ _ (orDefaultZ (SymbolsOptions.Jobs opts) NumCPU)
                  (orDefaultZ jobs NumCPU)).
  - intros sched opts path jobs maxBytes Hf. unfold Refs. cbn [RefsOptions.Symbol
      RefsOptions.Language RefsOptions.Path RefsOptions.File RefsOptions.IncludeContext
      RefsOptions.Jobs RefsOptions.MaxBytes]. cbv zeta.
    destruct (String.eqb _ ""); [done|]. destruct (Get _ _) as [language|]; [|done].
    destruct (newQuery _ _) as [q|]; [|done]. rewrite !bind_lift_Ok.
    rewrite !(resolveFiles_single _ _ _ _ Hf).
    destruct (filepath_Abs _) as [absPath|]; [|done].
    rewrite !(bind_Return (Return _, _) _ _ eq_refl). cbn [length Nat.eqb snd].
    unfold runRefsWorkers.
    by rewrite (runPool_single_jobs _ _ _ (orDefaultZ (RefsOptions.Jobs opts) NumCPU)
                  (orDefaultZ jobs NumCPU)).
  - intros sched opts language q absPath out Hf Hl Hc Ha Hout.
    assert (Hq : QueryOptions.Query opts <> "").
    { intros Hq. revert Hout. unfold Query. by rewrite Hq. }
    revert Hout.
    rewrite (Query_valid _ _ _ _ Hq Hl Hc), (resolveFiles_single _ _ _ _ Hf), Ha.
    rewrite (bind_Return (Return _, _) _ _ eq_refl). cbn [length Nat.eqb fst snd].
    apply runPool_single_result.
  - intros sched opts language q absPath out Hf Hl Hc Ha.
    rewrite (Symbols_valid _ _ _ _ Hl Hc), (resolveFiles_single _ _ _ _ Hf), Ha.
    rewrite (bind_Return (Return _, _) _ _ eq_refl). cbn [length Nat.eqb fst snd].
    apply runPool_single_result.
  - intros sched opts language q absPath out Hf Hl Hc Ha Hout.
    assert (Hs : RefsOptions.Symbol opts <> "").
    { intros Hs. revert Hout. unfold Refs. by rewrite Hs. }
    revert Hout.
    rewrite (Refs_valid _ _ _ _ Hs Hl Hc), (resolveFiles_single _ _ _ _ Hf), Ha.
    rewrite (bind_Return (Return _, _) _ _ eq_refl). cbn [length Nat.eqb fst snd].
    unfold runRefsWorkers.
    destruct (runPool _ sched _ _) as [[refs|msg|] log] eqn:E; simpl; [|done..].
    intros [= <-]. f_equal. eapply runPool_single_result. by rewrite E.
Qed.

Lemma single_file_mode_witness :
  Query [0; 0; 0; 0; 0]%nat (QueryOptions.mk "(q)" "" "" "a.go" 0 0)
  = Query [0; 0; 0; 0; 0]%nat (QueryOptions.mk "(q)" "" "elsewhere" "a.go" 7 1) /\
  exists out,
    (Query [0; 0; 0; 0; 0]%nat (QueryOptions.mk "(q)" "" "" "a.go" 0 0)).1 = Return out /\
    out = queryWorker goLanguage "(q)" (FileJob.mk "/r/a.go" "a.go").
Proof.
  destruct (@single_file_mode demoWorld) as (Hignore & _ & _ & Hresult & _).
  split.
  - apply (Hignore [0; 0; 0; 0; 0]%nat (QueryOptions.mk "(q)" "" "" "a.go" 0 0) "elsewhere" 7 1).
    discriminate.
  - assert (Hret : exists out,
              (Query [0; 0; 0; 0; 0]%nat (QueryOptions.mk "(q)" "" "" "a.go" 0 0)).1 = Return out)
      by (eexists; vm_compute; reflexivity).
    destruct Hret as [out Hout]. exists out. split; [exact Hout|].
    apply (Hresult [0; 0; 0; 0; 0]%nat (QueryOptions.mk "(q)" "" "" "a.go" 0 0) goLanguage "(q)"
             "/r/a.go" out); [discriminate | reflexivity | reflexivity | reflexivity | exact Hout].
Defined.

(** X22: every reference [Refs] returns is a reference to the symbol
    that was asked for, and so is the result as a whole, in both modes
    and under every schedule. *)
Theorem Refs_only_the_symbol `{W : World} (sched : list nat) (opts : RefsOptions.t)
    (result : RefsResult.t) :
  (Refs sched opts).1 = Return result ->
  RefsOptions.Symbol opts <> "" /\
  RefsResult.Symbol result = RefsOptions.Symbol opts /\
  Forall (fun ref => Reference.Symbol ref = RefsOptions.Symbol opts)
         (RefsResult.References result).
Proof.
  unfold Refs. destruct (String.eqb _ "") eqn:Hs; [done|]. apply String.eqb_neq in Hs.
  cbv zeta. destruct (Get _ _) as [language|]; [|done].
  destruct (newQuery _ _) as [q|]; [|done]. rewrite bind_lift_Ok.
  destruct (resolveFiles _ _ _ _) as [[files|msg|] log]; [|done..].
  rewrite (bind_Return (Return files, log) _ _ eq_refl). cbn [fst].
  destruct (length files =? 0)%nat.
  { intros [= <-]. simpl. by repeat split. }
  unfold runRefsWorkers.
  destruct (runPool _ sched files _) as [[refs|msg|] log'] eqn:E; simpl; [|done..].
  intros [= <-]. simpl. split; [done|]. split; [done|].
  apply Forall_forall. intros ref Hin.
  assert (Hout : (runPool (refsWorker language q (RefsOptions.Symbol opts)
                             (RefsOptions.IncludeContext opts))
                    sched files (orDefaultZ (RefsOptions.Jobs opts) NumCPU)).1 = Return refs)
    by (by rewrite E).
  destruct (runPool_elem _ _ _ _ _ _ Hout Hin) as (job & _ & Href).
  by apply refsWorker_Symbol in Href.
Qed.

Lemma Refs_only_the_symbol_witness :
  exists result,
    (Refs [0; 1; 2; 0; 1; 2; 0; 1; 2; 0; 1; 2; 0; 1; 2]%nat (RefsOptions.mk "Foo" "" "" "" true 3 0)).1
    = Return result /\
    RefsResult.References result <> [] /\
    Forall (fun ref => Reference.Symbol ref = "Foo") (RefsResult.References result).
Proof.
  assert (Hret : exists result,
            (Refs [0; 1; 2; 0; 1; 2; 0; 1; 2; 0; 1; 2; 0; 1; 2]%nat
               (RefsOptions.mk "Foo" "" "" "" true 3 0)).1 = Return result /\
            RefsResult.References result <> [])
    by (eexists; split; [vm_compute; reflexivity | discriminate]).
  destruct Hret as (result & Hout & Hne). exists result. split; [exact Hout|]. split; [exact Hne|].
  exact (proj2 (proj2 (Refs_only_the_symbol _ _ _ Hout))).
Defined.

(** X23: what [Symbols] returns.  Every entry of the result stands for
    a file that has at least one symbol left after filtering - files
    without any are left out - and every symbol in it has a name and
    passes the requested visibility filter, [all] when none is
    requested. *)
Theorem Symbols_entries `{W : World} (sched : list nat) (opts : SymbolsOptions.t)
    (results : list SymbolsResult.t) :
  (Symbols sched opts).1 = Return results ->
  Forall (fun result =>
            SymbolsResult.Symbols result <> [] /\
            Forall (fun sym =>
                      Symbol.Name sym <> "" /\
                      passesFilter (orDefault (SymbolsOptions.Visibility opts) "all") sym = true)
                   (SymbolsResult.Symbols result))
         results.
Proof.
  unfold Symbols. cbv zeta. destruct (Get _ _) as [language|]; [|done].
  destruct (newQuery _ _) as [q|]; [|done]. rewrite bind_lift_Ok.
  destruct (resolveFiles _ _ _ _) as [[files|msg|] log]; [|done..].
  rewrite (bind_Return (Return files, log) _ _ eq_refl). cbn [fst].
  destruct (length files =? 0)%nat.
  { intros [= <-]. constructor. }
  unfold runSymbolsWorkers. intros Hout.
  apply Forall_forall. intros result Hin.
  destruct (runPool_elem _ sched files _ results result Hout Hin) as (job & _ & Hres).
  by apply symbolsWorker_result in Hres as (_ & ? & ?).
Qed.

Lemma Symbols_entries_witness :
  exists results,
    (Symbols [0; 1; 2; 0; 1; 2; 0; 1; 2; 0; 1; 2; 0; 1; 2]%nat
       (SymbolsOptions.mk "" "" "" "public" false 0 3 0)).1 = Return results /\
    map SymbolsResult.File results = ["a.go"; "b.go"] /\
    Forall (fun result =>
              SymbolsResult.Symbols result <> [] /\
              Forall (fun sym => Symbol.Name sym <> "" /\ passesFilter "public" sym = true)
                     (SymbolsResult.Symbols result))
           results.
Proof.
  assert (Hret : exists results,
            (Symbols [0; 1; 2; 0; 1; 2; 0; 1; 2; 0; 1; 2; 0; 1; 2]%nat
               (SymbolsOptions.mk "" "" "" "public" false 0 3 0)).1 = Return results /\
            map SymbolsResult.File results = ["a.go"; "b.go"])
    by (eexists; split; vm_compute; reflexivity).
  destruct Hret as (results & Hout & Hfiles). exists results.
  split; [exact Hout|]. split; [exact Hfiles|].
  exact (Symbols_entries _ _ _ Hout).
Defined.

(** ** The scanner *)

(** Induction on a file tree, with the entries of a directory. *)
Lemma node_tree_ind (P : fs.node -> Prop) :
  (forall name size, P (fs.File name size)) ->
  (forall name entries readErr, Forall P entries -> P (fs.Dir name entries readErr)) ->
  forall d, P d.
Proof.
  intros HFile HDir. fix IH 1. intros [name size|name entries readErr].
  - apply HFile.
  - apply HDir. induction entries as [|d1 entries IHentries]; constructor.
    + apply IH.
    + apply IHentries.
Qed.

Section ScannerFacts.

Context `{H : scanner.Host}.
Variable s : scannerConfig.t.
Variable absRoot : string.

(** What the walk function answers for a directory, a failure and a
    file. *)
Lemma visit_Dir path name entries readErr jobs :
  scanner.visit s absRoot path (Some (fs.Dir name entries readErr)) None jobs
  = (jobs, if pruned s absRoot path (fs.Dir name entries readErr)
           then Some fs.SkipDir else None).
Proof.
  unfold scanner.visit, pruned. simpl.
  destruct (String.eqb path absRoot); simpl; [done|].
  by destruct (scanner.shouldIgnoreDir s name).
Qed.

Lemma visit_File path name size jobs :
  exists new,
    scanner.visit s absRoot path (Some (fs.File name size)) None jobs = (jobs ++ new, None) /\
    forall job, job ∈ new <-> eligible s name size /\ job = jobAt absRoot path.
Proof.
  unfold scanner.visit, eligible.
  destruct (scanner.isSupportedFile s name) eqn:Hsup; cbn [negb]; cbv iota zeta.
  2:{ exists []. rewrite app_nil_r. split; [done|]. intros job. split.
      - by intros ?%elem_of_nil.
      - by intros [[? _] _]. }
  destruct (0 <? scannerConfig.maxBytes s) eqn:Hmax.
  - apply Z.ltb_lt in Hmax. destruct size as [bytes|e].
    + destruct (scannerConfig.maxBytes s <? bytes) eqn:Hbig.
      * apply Z.ltb_lt in Hbig. exists []. rewrite app_nil_r. split; [done|]. intros job. split.
        -- by intros ?%elem_of_nil.
        -- intros [[_ Hlim] _]. destruct (Hlim Hmax) as (bytes' & [= <-] & ?). lia.
      * apply Z.ltb_ge in Hbig. eexists. split; [done|]. intros job.
        rewrite list_elem_of_singleton. unfold jobAt. split.
        -- intros ->. split; [|done]. split; [done|]. intros _. by exists bytes.
        -- by intros [_ ->].
    + exists []. rewrite app_nil_r. split; [done|]. intros job. split.
      * by intros ?%elem_of_nil.
      * intros [[_ Hlim] _]. by destruct (Hlim Hmax) as (bytes' & ? & _).
  - apply Z.ltb_ge in Hmax. eexists. split; [done|]. intros job.
    rewrite list_elem_of_singleton. unfold jobAt. split.
    + intros ->. split; [|done]. split; [done|]. intros ?. lia.
    + by intros [_ ->].
Qed.

Lemma walkEntries_walked path (dirs : list fs.node) :
  Forall (fun d1 => forall path1 jobs,
            walked (collectable s absRoot path1 d1) (unreadable s absRoot path1 d1) jobs
              (walkDir scanner.Join (scanner.visit s absRoot) path1 d1 jobs)) dirs ->
  forall jobs,
    walked
      (fun job => exists d1, d1 ∈ dirs /\
                             collectable s absRoot (scanner.Join path (fs.Name d1)) d1 job)
      (fun msg => exists d1, d1 ∈ dirs /\
                             unreadable s absRoot (scanner.Join path (fs.Name d1)) d1 msg)
      jobs
      (walkEntries scanner.Join
         (fun path1 d1 jobs => walkDir scanner.Join (scanner.visit s absRoot) path1 d1 jobs)
         path dirs jobs).
Proof.
  induction 1 as [|d1 dirs Hd1 _ IH]; intros jobs.
  - simpl. split; [done|]. exists []. rewrite app_nil_r. split; [done|].
    split; [by intros job ?%elem_of_nil|]. split; [done|]. intros _. split.
    + by intros job (d1 & ?%elem_of_nil & _).
    + by intros msg (d1 & ?%elem_of_nil & _).
  - cbn [walkEntries].
    destruct (Hd1 (scanner.Join path (fs.Name d1)) jobs)
      as (Hskip & new1 & Hnew1 & Hsound1 & Herr1 & Hdone1).
    destruct (walkDir _ _ _ d1 jobs) as [jobs1 [[|msg1]|]]; simpl in *; [done| |].
    + split; [done|]. exists new1. split; [done|]. split.
      { intros job Hin. exists d1. split; [by left | by apply Hsound1]. }
      split; [|done]. intros msg [= <-]. exists d1. split; [by left | by apply Herr1].
    + destruct (Hdone1 eq_refl) as [Hall1 Hread1]. subst jobs1.
      destruct (IH (jobs ++ new1)) as (Hskip' & new & Hnew & Hsound & Herr & Hdone).
      split; [done|]. exists (new1 ++ new). split; [by rewrite Hnew, app_assoc|]. split.
      { intros job [Hin|Hin]%elem_of_app.
        - exists d1. split; [by left | by apply Hsound1].
        - destruct (Hsound job Hin) as (d2 & Hd2 & Hc). exists d2. split; [by right | done]. }
      split.
      { intros msg Hmsg. destruct (Herr msg Hmsg) as (d2 & Hd2 & Hc).
        exists d2. split; [by right | done]. }
      intros Hnone. destruct (Hdone Hnone) as [Hall Hread]. split.
      * intros job (d2 & [->|Hd2]%elem_of_cons & Hc); apply elem_of_app.
        -- left. by apply Hall1.
        -- right. apply Hall. by exists d2.
      * intros msg (d2 & [->|Hd2]%elem_of_cons & Hc).
        -- by apply (Hread1 msg).
        -- apply (Hread msg). by exists d2.
Qed.

Lemma walkDir_walked d :
  forall path jobs,
    walked (collectable s absRoot path d) (unreadable s absRoot path d) jobs
      (walkDir scanner.Join (scanner.visit s absRoot) path d jobs).
Proof.
  induction d as [name size|name entries readErr IH] using node_tree_ind; intros path jobs.
  - cbn [walkDir]. destruct (visit_File path name size jobs) as (new & -> & Hnew).
    split; [done|]. exists new. split; [done|]. split.
    { intros job [Hel ->]%Hnew. exists path, name, size. split; [constructor|done]. }
    split; [done|]. intros _. split.
    + intros job (path' & name' & size' & Hv & Hel & ->). inversion Hv; subst.
      by apply Hnew.
    + intros msg (path' & name' & entries' & Hv & _). inversion Hv.
  - cbn [walkDir]. rewrite visit_Dir.
    destruct (pruned s absRoot path (fs.Dir name entries readErr)) eqn:Hpruned.
    { simpl. split; [done|]. exists []. rewrite app_nil_r. split; [done|].
      split; [by intros job ?%elem_of_nil|]. split; [done|]. intros _. split.
      - intros job (path' & name' & size' & Hv & _). inversion Hv; subst. congruence.
      - intros msg (path' & name' & entries' & Hv & Hp). inversion Hv; subst; congruence. }
    destruct readErr as [e|].
    { simpl. split; [done|]. exists []. rewrite app_nil_r. split; [done|].
      split; [by intros job ?%elem_of_nil|]. split; [|done].
      intros msg [= <-]. exists path, name, entries. split; [constructor|done]. }
    destruct (walkEntries_walked path entries IH jobs)
      as (Hskip & new & Hnew & Hsound & Herr & Hdone).
    split; [done|]. exists new. split; [done|]. split.
    { intros job Hin. destruct (Hsound job Hin) as (d1 & Hd1 & path' & name' & size' & Hv & ?).
      exists path', name', size'. split; [|done]. by eapply visits_below. }
    split.
    { intros msg Hmsg.
      destruct (Herr msg Hmsg) as (d1 & Hd1 & path' & name' & entries' & Hv & ?).
      exists path', name', entries'. split; [|done]. by eapply visits_below. }
    intros Hnone. destruct (Hdone Hnone) as [Hall Hread]. split.
    + intros job (path' & name' & size' & Hv & Hel & ->). inversion Hv; subst.
      apply Hall. exists d1. split; [done|]. by exists path', name', size'.
    + intros msg (path' & name' & entries' & Hv & Hp). inversion Hv; subst.
      apply (Hread msg). exists d1. split; [done|]. by exists path', name', entries'.
Qed.

End ScannerFacts.

(** X24: the files [collect] finds.  When [collect] succeeds, its jobs
    are exactly the entries that are not directories, reached from the
    root through directories none of which is ignored - the root itself
    is entered whatever its name - that have a supported extension and,
    when a positive limit is set, a size that can be had and is within
    it.  With a limit of zero or less no size is asked for. *)
Theorem collect_files `{H : scanner.Host} (s : scannerConfig.t) (jobs : list FileJob.t) :
  scanner.collect s = Ok jobs ->
  exists absRoot root,
    scanner.Abs (scannerConfig.root s) = Ok absRoot /\
    scanner.Lstat absRoot = Ok root /\
    forall job,
      job ∈ jobs <->
      exists path name size,
        visits s absRoot absRoot root path (fs.File name size) /\
        eligible s name size /\
        job = jobAt absRoot path.
Proof.
  unfold scanner.collect, WalkDir.
  destruct (scanner.Abs _) as [absRoot|e] eqn:Habs; [|done].
  destruct (scanner.Lstat absRoot) as [root|e] eqn:Hroot.
  { destruct (walkDir_walked s absRoot root absRoot [])
      as (Hskip & new & Hnew & Hsound & _ & Hdone).
    destruct (walkDir _ _ _ root []) as [jobs' [[|msg]|]]; simpl in *;
      [by destruct Hskip | done |].
    intros [= <-]. subst jobs'. exists absRoot, root. split; [done|]. split; [done|].
    intros job. split; [apply Hsound | apply (Hdone eq_refl)]. }
  simpl. done.
Qed.

Lemma collect_files_witness :
  exists jobs,
    @scanner.collect demoHost
      (newScanner (scannerConfig.mk "." goLanguage None defaultMaxBytes)) = Ok jobs /\
    map FileJob.AbsPath jobs = ["/r/a.go"; "/r/sub/B.GO"] /\
    forall job,
      job ∈ jobs <->
      exists path name size,
        @visits demoHost (newScanner (scannerConfig.mk "." goLanguage None defaultMaxBytes))
          "/r" "/r" demoTree path (fs.File name size) /\
        @eligible demoHost (newScanner (scannerConfig.mk "." goLanguage None defaultMaxBytes))
          name size /\
        job = @jobAt demoHost "/r" path.
Proof.
  assert (Hok : exists jobs,
            @scanner.collect demoHost
              (newScanner (scannerConfig.mk "." goLanguage None defaultMaxBytes)) = Ok jobs /\
            map FileJob.AbsPath jobs = ["/r/a.go"; "/r/sub/B.GO"])
    by (eexists; split; vm_compute; reflexivity).
  destruct Hok as (jobs & Hok & Hpaths). exists jobs. split; [exact Hok|]. split; [exact Hpaths|].
  destruct (@collect_files demoHost _ _ Hok) as (absRoot & root & Habs & Hroot & Hjobs).
  injection Habs as <-. injection Hroot as <-. exact Hjobs.
Defined.

(** X25: when [collect] fails.  A root that cannot be made absolute or
    cannot be found is an error, and so is a single directory that
    cannot be read anywhere in the part of the tree that is walked: the
    scan as a whole fails with the error of such a directory, and
    returns no files.  A file whose size cannot be had is no error. *)
Theorem collect_fails `{H : scanner.Host} (s : scannerConfig.t) :
  (forall e, scanner.Abs (scannerConfig.root s) = Err e ->
             scanner.collect s = Err ("resolve root: " +:+ e)) /\
  (forall absRoot e,
     scanner.Abs (scannerConfig.root s) = Ok absRoot ->
     scanner.Lstat absRoot = Err e ->
     scanner.collect s = Err e) /\
  (forall absRoot root,
     scanner.Abs (scannerConfig.root s) = Ok absRoot ->
     scanner.Lstat absRoot = Ok root ->
     (forall msg, scanner.collect s = Err msg ->
                  exists path name entries,
                    visits s absRoot absRoot root path (fs.Dir name entries (Some msg)) /\
                    pruned s absRoot path (fs.Dir name entries (Some msg)) = false) /\
     (forall msg path name entries,
        visits s absRoot absRoot root path (fs.Dir name entries (Some msg)) ->
        pruned s absRoot path (fs.Dir name entries (Some msg)) = false ->
        exists msg', scanner.collect s = Err msg')).
Proof.
  unfold scanner.collect, WalkDir. split; [|split].
  - by intros e ->.
  - by intros absRoot e -> ->.
  - intros absRoot root -> ->.
    destruct (walkDir_walked s absRoot root absRoot [])
      as (Hskip & new & Hnew & _ & Herr & Hdone).
    destruct (walkDir _ _ _ root []) as [jobs' [[|msg]|]]; simpl in *;
      [by destruct Hskip | |].
    + split; [|by eauto]. intros msg' [= <-]. by apply Herr.
    + split; [done|]. intros msg path name entries Hv Hp.
      destruct (proj2 (Hdone eq_refl) msg). by exists path, name, entries.
Qed.

Lemma collect_fails_witness :
  @scanner.collect demoHost (newScanner (scannerConfig.mk "" goLanguage None 0))
  = Err "resolve root: getwd: no such file or directory" /\
  @scanner.collect demoHost (newScanner (scannerConfig.mk "nowhere" goLanguage None 0))
  = Err "lstat /r/nowhere: no such file or directory" /\
  exists msg,
    @scanner.collect demoHost (newScanner (scannerConfig.mk "locked" goLanguage None 0))
    = Err msg.
Proof.
  split; [|split].
  - apply (proj1 (@collect_fails demoHost _)). reflexivity.
  - apply (proj1 (proj2 (@collect_fails demoHost _)) "/r/nowhere"); reflexivity.
  - destruct (proj2 (proj2 (@collect_fails demoHost
                              (newScanner (scannerConfig.mk "locked" goLanguage None 0))))
                "/r/locked"
                (fs.Dir "locked" [] (Some "open /r/locked: permission denied"))
                eq_refl eq_refl) as [_ Hfails].
    apply (Hfails "open /r/locked: permission denied" "/r/locked" "locked" []);
      [constructor | reflexivity].
Defined.

(** ** The engine's wrapper *)

(** X26: the table [newQuery] builds makes [captureName] agree with the
    engine: for an index below the query's capture count it is the name
    the engine has for it, and for any other index it is [capture_]
    followed by the index in decimal; the table is never indexed out of
    range. *)
Theorem captureName_newQuery
    (NewQuery : string -> Language.t -> result sitter.Query)
    (queryStr : string) (language : Language.t) (q : parser.query) (id : Z) :
  parser.newQuery NewQuery queryStr language = Ok q ->
  0 <= id ->
  index (parser.captureNames q) id
  = (if id <? sitter.CaptureCount (parser.query_ q)
     then Some (sitter.CaptureNameForId (parser.query_ q) id) else None) /\
  parser.captureName q id
  = (if id <? sitter.CaptureCount (parser.query_ q)
     then sitter.CaptureNameForId (parser.query_ q) id
     else "capture_" +:+ pretty id).
Proof.
  unfold parser.newQuery. destruct (NewQuery queryStr language) as [sq|err]; [|done].
  intros [= <-] Hid. unfold parser.captureName, index. cbn [parser.captureNames parser.query_].
  rewrite length_map, length_seqZ.
  set (len := Z.of_nat (Z.to_nat (sitter.CaptureCount sq))).
  destruct (id <? sitter.CaptureCount sq) eqn:Hlt.
  - apply Z.ltb_lt in Hlt.
    destruct (Z.leb_spec len id); [lia|].
    destruct (Z.leb_spec 0 id); [|lia]. destruct (Z.ltb_spec id len); [|lia]. cbn [andb].
    rewrite list_lookup_fmap, lookup_seqZ_lt by lia. simpl.
    by replace (0 + Z.of_nat (Z.to_nat id)) with id by lia.
  - apply Z.ltb_ge in Hlt.
    destruct (Z.leb_spec len id); [|lia].
    destruct (Z.leb_spec 0 id); [|lia]. by destruct (Z.ltb_spec id len); [lia|].
Qed.

Lemma captureName_newQuery_witness :
  exists q,
    parser.newQuery (fun _ _ => Ok demoQuery) "(q)" goLanguage = Ok q /\
    parser.captureName q 1 = "call" /\ parser.captureName q 7 = "capture_7".
Proof.
  assert (Hq : exists q, parser.newQuery (fun _ _ => Ok demoQuery) "(q)" goLanguage = Ok q)
    by (eexists; reflexivity).
  destruct Hq as [q Hq]. exists q. split; [exact Hq|]. split.
  - rewrite (proj2 (captureName_newQuery _ _ _ q 1 Hq ltac:(lia))).
    injection Hq as <-. reflexivity.
  - rewrite (proj2 (captureName_newQuery _ _ _ q 7 Hq ltac:(lia))).
    injection Hq as <-. reflexivity.
Defined.

(** The captures of the matches [run] returns are those of the engine,
    in order, under the display path. *)
Lemma run_allCaptures {Tree : Type}
    (Exec : sitter.Query -> Tree -> list sitter.QueryMatch)
    (q : parser.query) (tree : Tree) (source displayPath : string) :
  Forall2 (fun capture mc =>
             QueryMatch.File mc.1 = displayPath /\
             CaptureResult.Name mc.2 = parser.captureName q (sitter.Index capture) /\
             CaptureResult.NodeType mc.2 = sitter.Type_ (sitter.Node_ capture) /\
             CaptureResult.Text mc.2 = sitter.Content (sitter.Node_ capture) source /\
             Range.Start (CaptureResult.Range mc.2)
             = Position.mk (int_add (sitter.Row (sitter.StartPoint (sitter.Node_ capture))) 1)
                 (int_add (sitter.Column (sitter.StartPoint (sitter.Node_ capture))) 1))
          (flat_map sitter.Captures (Exec (parser.query_ q) tree))
          (allCaptures (parser.run Exec q tree source displayPath)).
Proof.
  unfold parser.run, allCaptures.
  induction (Exec (parser.query_ q) tree) as [|m ms IH]; simpl; [constructor|].
  apply Forall2_app; [|exact IH]. clear IH.
  set (m' := QueryMatch.mk _ _ _).
  assert (Hfile : QueryMatch.File m' = displayPath) by done. clearbody m'.
  induction (sitter.Captures m) as [|c cs IH]; simpl; constructor; [done | exact IH].
Qed.

(** X27: from the engine to the references.  For the matches [run]
    makes of the engine's, [findReferences] returns one reference for
    each capture of the engine whose node text is the search term, in
    the engine's order: under the display path, at the node's start
    with row and column counted from one, and with the white-space
    trimmed text of the line of the node's row for context - the empty
    string when the source has no such line. *)
Theorem run_findReferences {Tree : Type}
    (TrimSpace : string -> string)
    (Exec : sitter.Query -> Tree -> list sitter.QueryMatch)
    (q : parser.query) (tree : Tree) (source displayPath S : string) :
  let lines := strings.Split1 source newline in
  let captures := flat_map sitter.Captures (Exec (parser.query_ q) tree) in
  Z.of_nat (length lines) <= maxInt ->
  Forall (fun capture =>
            sitter.uint32 (sitter.Row (sitter.StartPoint (sitter.Node_ capture))) /\
            sitter.uint32 (sitter.Column (sitter.StartPoint (sitter.Node_ capture))))
         captures ->
  exists refs,
    findReferences TrimSpace (parser.run Exec q tree source displayPath) source S true
    = Some refs /\
    Forall2 (fun capture ref =>
               let start := sitter.StartPoint (sitter.Node_ capture) in
               Reference.Symbol ref = S /\
               Reference.File ref = displayPath /\
               Reference.Position ref
               = Position.mk (sitter.Row start + 1) (sitter.Column start + 1) /\
               Reference.Context ref
               = match lines !! Z.to_nat (sitter.Row start) with
                 | Some line => TrimSpace line
                 | None => ""
                 end)
            (filter (fun capture => sitter.Content (sitter.Node_ capture) source = S) captures)
            refs.
Proof.
  intros lines captures Hlen Hpoints.
  destruct (findReferences_spec TrimSpace (parser.run Exec q tree source displayPath)
              source S true) as (refs & Hf & HF).
  exists refs. split; [exact Hf|]. clear Hf. fold lines in HF. unfold withText in HF.
  pose proof (run_allCaptures Exec q tree source displayPath) as Hrun.
  fold captures in Hrun.
  revert refs HF Hpoints Hrun.
  generalize (allCaptures (parser.run Exec q tree source displayPath)). generalize captures.
  clear captures. intros captures mcs refs HF Hpoints Hrun. revert refs HF.
  induction Hrun as [|capture mc captures mcs (Hfile & _ & _ & Htext & Hstart) _ IH];
    intros refs HF.
  { rewrite filter_nil in HF. apply Forall2_nil_inv_l in HF as ->. constructor. }
  apply Forall_cons in Hpoints as [[Hrow Hcol] Hpoints].
  rewrite filter_cons in HF. rewrite filter_cons. simpl in HF. rewrite Htext in HF.
  destruct (decide (sitter.Content (sitter.Node_ capture) source = S)) as [Heq|Hne];
    [|by apply IH].
  apply Forall2_cons_inv_l in HF as (ref & refs' & Href & HF & ->).
  constructor; [|by apply IH]. cbv zeta.
  unfold sitter.uint32 in *.
  assert (Hline : Position.Line (Range.Start (CaptureResult.Range mc.2))
                  = sitter.Row (sitter.StartPoint (sitter.Node_ capture)) + 1).
  { rewrite Hstart. simpl. unfold int_add. apply wrap_int_id.
    unfold is_int, minInt, maxInt. lia. }
  assert (Hcolumn : Position.Column (Range.Start (CaptureResult.Range mc.2))
                    = sitter.Column (sitter.StartPoint (sitter.Node_ capture)) + 1).
  { rewrite Hstart. simpl. unfold int_add. apply wrap_int_id.
    unfold is_int, minInt, maxInt. lia. }
  destruct (referenceFor_fields TrimSpace lines S true mc.1 mc.2 ref Href)
    as (Hsym & _ & Hf & Hpos).
  split; [done|]. split; [congruence|]. split.
  { rewrite Hpos. destruct (Range.Start (CaptureResult.Range mc.2)). simpl in *. congruence. }
  destruct (referenceFor_context TrimSpace lines S mc.1 mc.2 ref) as [Hout Hin];
    [rewrite Hline; unfold is_int, minInt, maxInt; lia | done | done |].
  rewrite Hline in Hout, Hin.
  replace (sitter.Row (sitter.StartPoint (sitter.Node_ capture)) + 1 - 1)
    with (sitter.Row (sitter.StartPoint (sitter.Node_ capture))) in Hout, Hin by lia.
  destruct (decide (sitter.Row (sitter.StartPoint (sitter.Node_ capture))
                    < Z.of_nat (length lines))) as [Hlt|Hge].
  - destruct Hin as (line & -> & ->); [lia|done].
  - rewrite Hout by lia. rewrite lookup_ge_None_2; [done|lia].
Qed.

Lemma run_findReferences_witness :
  exists refs,
    findReferences asciiTrimSpace
      (parser.run demoExec (parser.mk demoQuery ["type_ref"; "call"]) tt fooSource "p.go")
      fooSource "Foo" true = Some refs /\
    map Reference.Context refs = ["var x Foo = Foo(Bar)"; "var x Foo = Foo(Bar)"] /\
    map Reference.Position refs = [Position.mk 2 9; Position.mk 2 15].
Proof.
  destruct (run_findReferences asciiTrimSpace demoExec (parser.mk demoQuery ["type_ref"; "call"])
              tt fooSource "p.go" "Foo") as (refs & Hrefs & HF).
  - vm_compute. discriminate.
  - repeat constructor; vm_compute; congruence.
  - exists refs. split; [exact Hrefs|].
    cbv zeta in HF.
    change (filter _ _) with
      [sitter.mkQueryCapture 0 (nodeAt "type_identifier" "Foo" 1 8);
       sitter.mkQueryCapture 1 (nodeAt "identifier" "Foo" 1 14)] in HF.
    apply Forall2_cons_inv_l in HF as (r1 & refs1 & (_ & _ & Hp1 & Hc1) & HF & ->).
    apply Forall2_cons_inv_l in HF as (r2 & refs2 & (_ & _ & Hp2 & Hc2) & HF & ->).
    apply Forall2_nil_inv_l in HF as ->.
    simpl. rewrite Hp1, Hp2, Hc1, Hc2. split; reflexivity.
Defined.
